(** * interLink SLURM sidecar: script synthesis, job registry, status polling

    A shallow embedding of the Go package [slurm] (aux.go and the Submit and
    Status handlers).  Go strings are byte strings ([string]); the registry
    [map[string]*JidStruct] is a [gmap string JidStruct] whose missing keys
    stand for the nil pointer a Go map lookup yields; the filesystem, the
    clock and the external commands are an explicit world threaded through
    every operation. *)

From Stdlib Require Import ZArith Strings.Ascii.
From stdpp Require Import base strings gmap list.

Local Open Scope Z_scope.

(** ** Go strings *)

Module Strings.

Definition nl : string := String "010"%char EmptyString.
Definition dquote : string := String "034"%char EmptyString.

Definition byte_eqb (a b : ascii) : bool := bool_decide (a = b).

(** [strings.HasPrefix(s, p)] *)
Fixpoint HasPrefix (s p : string) : bool :=
  match p with
  | EmptyString => true
  | String c p' =>
      match s with
      | EmptyString => false
      | String d s' => byte_eqb c d && HasPrefix s' p'
      end
  end.

(** [strings.HasSuffix(s, suffix)] *)
Fixpoint HasSuffix (s suffix : string) : bool :=
  bool_decide (s = suffix) ||
  match s with
  | EmptyString => false
  | String _ s' => HasSuffix s' suffix
  end.

(** [strings.ReplaceAll(s, old, "")] for a one-byte [old]. *)
Fixpoint ReplaceAll_drop (old : ascii) (s : string) : string :=
  match s with
  | EmptyString => EmptyString
  | String c s' =>
      if byte_eqb c old then ReplaceAll_drop old s'
      else String c (ReplaceAll_drop old s')
  end.

(** [strings.Split(s, sep)] for a one-byte [sep]: n separators give n+1
    pieces, and the empty string gives one empty piece. *)
Fixpoint Split (s : string) (sep : ascii) : list string :=
  match s with
  | EmptyString => [EmptyString]
  | String c s' =>
      if byte_eqb c sep then EmptyString :: Split s' sep
      else match Split s' sep with
           | x :: xs => String c x :: xs
           | [] => [String c EmptyString]
           end
  end.

(** [strings.Join(elems, sep)] *)
Definition Join (elems : list string) (sep : string) : string :=
  String.concat sep elems.

(** [s[:len(s)-1]] when the last byte of [s] is [c], else [s]. *)
Fixpoint trim_last (c : ascii) (s : string) : string :=
  match s with
  | EmptyString => EmptyString
  | String d EmptyString => if byte_eqb d c then EmptyString else s
  | String d s' => String d (trim_last c s')
  end.

Definition is_digit (c : ascii) : bool :=
  let n := nat_of_ascii c in (48 <=? n)%nat && (n <=? 57)%nat.

Definition digit_val (c : ascii) : Z := Z.of_nat (nat_of_ascii c) - 48.

Fixpoint all_digits (s : string) : bool :=
  match s with
  | EmptyString => true
  | String c s' => is_digit c && all_digits s'
  end.

Fixpoint decimal (acc : Z) (s : string) : Z :=
  match s with
  | EmptyString => acc
  | String c s' => decimal (acc * 10 + digit_val c) s'
  end.

(** [strconv.Atoi]: an optional sign, then at least one decimal digit and
    nothing else; a value outside the 64-bit [int] is a range error. *)
Definition Atoi (s : string) : option Z :=
  let '(neg, body) :=
    match s with
    | String "-"%char r => (true, r)
    | String "+"%char r => (false, r)
    | _ => (false, s)
    end in
  match body with
  | EmptyString => None
  | _ =>
      if all_digits body then
        let n := if neg : bool then - decimal 0 body else decimal 0 body in
        if (- 2 ^ 63 <=? n) && (n <=? 2 ^ 63 - 1) then Some n else None
      else None
  end.

(** The maximal run of decimal digits at the head of [s] (a greedy [\d+]
    or [\d*]), and what follows it. *)
Fixpoint span_digits (s : string) : string :=
  match s with
  | String c s' => if is_digit c then String c (span_digits s') else EmptyString
  | EmptyString => EmptyString
  end.

(** [s] without the prefix [p], when it has it. *)
Fixpoint strip_prefix (p s : string) : option string :=
  match p with
  | EmptyString => Some s
  | String c p' =>
      match s with
      | EmptyString => None
      | String d s' => if byte_eqb c d then strip_prefix p' s' else None
      end
  end.

End Strings.

(** The Go conversion [int32(n)] of a 64-bit [int]: the low 32 bits, read as
    a signed number. *)
Definition int32 (n : Z) : Z := (n + 2 ^ 31) mod 2 ^ 32 - 2 ^ 31.

(** ** Time

    A [time.Time] is the number of nanoseconds since the zero instant
    (January 1, year 1, 00:00 UTC); a [time.Duration] is a 64-bit count of
    nanoseconds, and [Sub] saturates at its bounds as in package [time]. *)

Module time.

Definition Time := Z.
Definition Duration := Z.

Definition zero : Time := 0.
Definition IsZero (t : Time) : bool := t =? 0.

Definition Second : Duration := 1000000000.
Definition minDuration : Duration := - 2 ^ 63.
Definition maxDuration : Duration := 2 ^ 63 - 1.

Definition Sub (t u : Time) : Duration :=
  let d := t - u in
  if d <? minDuration then minDuration
  else if maxDuration <? d then maxDuration
  else d.

End time.

(** ** Kubernetes and interLink data *)

Definition error := string.

Module v1.

Record EnvVar := { EnvVar_Name : string; EnvVar_Value : string }.

Record Container := {
  Container_Name : string;
  Image : string;
  Command : list string;
  Args : list string;
  Env : list EnvVar
}.

Record Pod := {
  Pod_Name : string;
  Namespace : string;
  UID : string;
  Annotations : gmap string string;
  Containers : list Container
}.

(** [ContainerState] holds at most one of its three members in this
    package, so it is a variant here. *)
Inductive ContainerState :=
| Waiting
| Running (StartedAt : time.Time)
| Terminated (ExitCode : Z) (StartedAt FinishedAt : time.Time).

Record ContainerStatus := {
  ContainerStatus_Name : string;
  State : ContainerState;
  Ready : bool
}.

End v1.

Module commonIL.

Record InterLinkConfig := {
  DataRootFolder : string;
  BashPath : string;
  Sbatchpath : string;
  Scancelpath : string;
  Squeuepath : string;
  Commandprefix : string;
  SingularityPrefix : string;
  Tsocks : bool;
  Tsockspath : string;
  Tsockslogin : string
}.

Record PodStatus := {
  PodName : string;
  PodUID : string;
  PodNamespace : string;
  PodStatus_Containers : list v1.ContainerStatus
}.

(** Only the pod of a [RetrievedPodData] is read outside the volume
    materializer. *)
Record RetrievedPodData := { Pod : v1.Pod }.

End commonIL.

Record JidStruct := {
  PodUID : string;
  JID : string;
  StartTime : time.Time;
  EndTime : time.Time
}.

Record SingularityCommand := {
  containerName : string;
  command : list string
}.

(** ** prepareEnvs *)

(** The accumulation [env_data += Name + "=" + Value + ","] over the
    container's [Env]. *)
Definition env_pair (env_var : v1.EnvVar) : string :=
  v1.EnvVar_Name env_var +:+ "=" +:+ v1.EnvVar_Value env_var.

Definition env_data_loop (envs : list v1.EnvVar) : string :=
  foldl (fun env_data env_var => env_data +:+ (env_pair env_var +:+ ",")) "" envs.

(** [make([]string, 1)] is a slice holding one empty string, and the two
    appends follow it. *)
Definition prepareEnvs (container : v1.Container) : list string :=
  if (0 <? length (v1.Env container))%nat then
    let env := [""] in
    let env := env ++ ["--env"] in
    let env_data := env_data_loop (v1.Env container) in
    let env_data := Strings.trim_last "," env_data in
    let env := if bool_decide (env_data = "") then [] else env in
    env ++ [env_data]
  else [].


(** ** Path names

    How the system finds the place a path name stands for.  A name that
    begins with a slash starts at the root, any other name at the working
    directory of the process; its pieces between slashes are taken one after
    the other, where an empty piece and [.] stay in the directory reached,
    [..] goes to its parent (the root is its own parent) and any other piece
    goes to the child of that name.  The empty name stands for no place.
    There are no symbolic links, and the directories a name passes through
    are taken to exist: the world below holds regular files only. *)

Module Path.

(** One piece of a name, from the directory [dir] (its elements from the
    root, innermost first). *)
Definition step (dir : list string) (piece : string) : list string :=
  if bool_decide (piece = "" \/ piece = ".") then dir
  else if bool_decide (piece = "..") then tail dir
  else piece :: dir.

(** The place of [name], by its elements from the root, for a process
    whose working directory is [cwd]. *)
Definition resolve (cwd : list string) (name : string) : option (list string) :=
  if bool_decide (name = "") then None
  else
    let start := if Strings.HasPrefix name "/" then [] else rev cwd in
    Some (rev (foldl step start (Strings.Split name "/"))).

Fixpoint is_prefix (a b : list string) : bool :=
  match a, b with
  | [], _ => true
  | x :: a', y :: b' => bool_decide (x = y) && is_prefix a' b'
  | _ :: _, [] => false
  end.

(** [name] stands for the place of [path] or for a place below it. *)
Definition under (cwd : list string) (path name : string) : bool :=
  match resolve cwd path, resolve cwd name with
  | Some a, Some b => is_prefix a b
  | _, _ => false
  end.

(** [endsWithDot] of package [os]: the name is [.] or ends in [/.]. *)
Definition endsWithDot (path : string) : bool :=
  bool_decide (path = ".") || Strings.HasSuffix path "/.".

End Path.

(** ** The world outside the handlers

    The process-wide variables of the package ([prefix], [timer],
    [cachedStatus]), the registry behind [SidecarHandler.JIDs], and the
    regular files of the filesystem with their contents, each under the name
    it is created and opened with (the package spells the name of a file one
    way: its directory, a slash, the name in it).  [tick] counts the
    questions put to the environment so far, and [execLog] records every
    external command that was run, oldest first. *)

Record World := {
  files : gmap string string;
  prefix : string;
  timer : time.Time;
  cachedStatus : list commonIL.PodStatus;
  JIDs : gmap string JidStruct;
  tick : nat;
  execLog : list (string * list string)
}.

Definition set_files (f : gmap string string) (w : World) : World :=
  {| files := f; prefix := prefix w; timer := timer w;
     cachedStatus := cachedStatus w; JIDs := JIDs w; tick := tick w;
     execLog := execLog w |}.

Definition set_prefix (p : string) (w : World) : World :=
  {| files := files w; prefix := p; timer := timer w;
     cachedStatus := cachedStatus w; JIDs := JIDs w; tick := tick w;
     execLog := execLog w |}.

Definition set_cache (c : list commonIL.PodStatus) (t : time.Time) (w : World) : World :=
  {| files := files w; prefix := prefix w; timer := t;
     cachedStatus := c; JIDs := JIDs w; tick := tick w;
     execLog := execLog w |}.

Definition set_JIDs (j : gmap string JidStruct) (w : World) : World :=
  {| files := files w; prefix := prefix w; timer := timer w;
     cachedStatus := cachedStatus w; JIDs := j; tick := tick w;
     execLog := execLog w |}.

Definition bump (w : World) : World :=
  {| files := files w; prefix := prefix w; timer := timer w;
     cachedStatus := cachedStatus w; JIDs := JIDs w; tick := S (tick w);
     execLog := execLog w |}.

Definition log_exec (c : string) (args : list string) (w : World) : World :=
  {| files := files w; prefix := prefix w; timer := timer w;
     cachedStatus := cachedStatus w; JIDs := JIDs w; tick := tick w;
     execLog := execLog w ++ [(c, args)] |}.

(** The calls whose failure the operating system decides. *)
Inductive syscall :=
| sys_MkdirAll (path : string)
| sys_Create (name : string)
| sys_Chmod (name : string)
| sys_WriteString (name : string)
| sys_Open (name : string)
| sys_ReadAll (name : string)
| sys_ReadFile (name : string)
| sys_ReadDir (name : string)
| sys_RemoveAll (path : string)
| sys_Unlink (name : string).

Record ExecResult := { Stdout : string; Stderr : string; ExitCode : Z }.

Record DirEntry := { DirEntry_Name : string; IsDir : bool }.

(** What the environment answers to the question number [n]: the reading of
    the clock, the outcome of an external command (with the error of the
    executor, if any), the error of a system call ([None] lets it through),
    and the entries of a directory in the order the system lists them.
    [Getwd] is the working directory of the process, by its elements from the
    root; nothing in the package changes it. *)
Record Environment := {
  Now : nat -> time.Time;
  Execute : nat -> string -> list string -> ExecResult * option error;
  fault : nat -> syscall -> option error;
  Listing : nat -> string -> list DirEntry;
  Getwd : list string
}.

(** A Go call either returns a value, returns a non-nil [error], or panics;
    the world goes on in each case. *)
Inductive result (A : Type) :=
| Ok (a : A) (w : World)
| Err (e : error) (w : World)
| Panic (w : World).
Arguments Ok {A} a w.
Arguments Err {A} e w.
Arguments Panic {A} w.

Definition M (A : Type) : Type := World -> result A.

#[global] Instance M_ret : MRet M := fun A a w => Ok a w.

(** Sequencing: a non-nil error is handed to the caller
    ([if err != nil { return ..., err }]) and a panic unwinds. *)
#[global] Instance M_bind : MBind M := fun A B f m w =>
  match m w with
  | Ok a w' => f a w'
  | Err e w' => Err e w'
  | Panic w' => Panic w'
  end.

Definition fail {A} (e : error) : M A := fun w => Err e w.
Definition panic {A} : M A := fun w => Panic w.
Definition get : M World := fun w => Ok w w.
Definition modify (f : World -> World) : M unit := fun w => Ok tt (f w).

(** The error of a call, caught for the caller to look at. *)
Definition try {A} (m : M A) : M (error + A) := fun w =>
  match m w with
  | Ok a w' => Ok (inr a) w'
  | Err e w' => Ok (inl e) w'
  | Panic w' => Panic w'
  end.

(** [s[i]] on a slice: an index out of range panics. *)
Definition index {A} (s : list A) (i : nat) : M A :=
  match s !! i with
  | Some x => mret x
  | None => panic
  end.

(** A field read through [JIDs[podUID]]: the map yields nil for a missing
    key, and reading a field through nil panics. *)
Definition deref_JID (podUID : string) : M JidStruct := fun w =>
  match JIDs w !! podUID with
  | Some r => Ok r w
  | None => Panic w
  end.

Definition ENOENT : error := "no such file or directory".
Definition EINVAL : error := "invalid argument".

(** The files that are left when the tree at [path] is removed: those
    outside the tree, and those of the tree that could not be removed
    ([stays]). *)
Definition RemoveAll_files (cwd : list string) (path : string) (stays : string -> bool)
    (fs : gmap string string) : gmap string string :=
  filter (fun kv => Path.under cwd path kv.1 = false \/ stays kv.1 = true) fs.

Section OS.

Variable env : Environment.

Definition ask (c : syscall) : M unit := fun w =>
  match fault env (tick w) c with
  | Some e => Err e (bump w)
  | None => Ok tt (bump w)
  end.

Definition time_Now : M time.Time := fun w => Ok (Now env (tick w)) (bump w).

(** [shell.Execute()] and [exec.Command(...).Output()] *)
Definition shell_Execute (c : string) (args : list string) : M (ExecResult * option error) :=
  fun w => Ok (Execute env (tick w) c args) (log_exec c args (bump w)).

Definition os_MkdirAll (path : string) : M unit := ask (sys_MkdirAll path).

Definition os_Chmod (name : string) : M unit := ask (sys_Chmod name).

(** [os.Create(name)]: the file exists and is empty afterwards; the result
    is the open file, known by its name. *)
Definition os_Create (name : string) : M string :=
  _ ← ask (sys_Create name);
  _ ← modify (fun w => set_files (<[name := ""]> (files w)) w);
  mret name.

(** [f.WriteString(s)] on a file opened by [os.Create]. *)
Definition WriteString (f : string) (s : string) : M unit :=
  _ ← ask (sys_WriteString f);
  modify (fun w => set_files (<[f := default "" (files w !! f) +:+ s]> (files w)) w).

(** [os.Open(name)] for reading. *)
Definition os_Open (name : string) : M string :=
  _ ← ask (sys_Open name);
  w ← get;
  match files w !! name with
  | Some _ => mret name
  | None => fail ENOENT
  end.

(** [io.ReadAll(file)] *)
Definition io_ReadAll (f : string) : M string :=
  _ ← ask (sys_ReadAll f);
  w ← get;
  match files w !! f with
  | Some data => mret data
  | None => fail ENOENT
  end.

(** [os.ReadFile(name)] *)
Definition os_ReadFile (name : string) : M string :=
  _ ← ask (sys_ReadFile name);
  w ← get;
  match files w !! name with
  | Some data => mret data
  | None => fail ENOENT
  end.

(** [os.Open(path)] of a directory followed by [dir.ReadDir(0)] *)
Definition entries_of (path : string) : M (list DirEntry) :=
  fun w => Ok (Listing env (tick w) path) (bump w).

Definition os_ReadDir (path : string) : M (list DirEntry) :=
  _ ← ask (sys_Open path);
  _ ← ask (sys_ReadDir path);
  entries_of path.

(** [os.RemoveAll(path)].  The empty path is answered with nil and a path
    that ends in a dot element with EINVAL, both without touching anything.
    Otherwise the tree at the place of [path] is removed: when the call
    returns nil nothing of the tree is left; when it returns an error it has
    removed what it could, and what it could not unlink is still there. *)
Definition os_RemoveAll (path : string) : M unit := fun w =>
  if bool_decide (path = "") then Ok tt w
  else if Path.endsWithDot path then Err EINVAL w
  else
    match fault env (tick w) (sys_RemoveAll path) with
    | None =>
        Ok tt (set_files (RemoveAll_files (Getwd env) path (fun _ => false) (files w))
                 (bump w))
    | Some e =>
        let stays name := bool_decide (is_Some (fault env (tick w) (sys_Unlink name))) in
        Err e (set_files (RemoveAll_files (Getwd env) path stays (files w)) (bump w))
    end.

End OS.

(** ** Regular expressions of the package *)

(** [regexp.MustCompile(`Submitted batch job (?P<jid>\d+)`)] applied with
    [FindStringSubmatch]: the leftmost place where the literal is followed by
    a digit; the group takes every digit that follows.  The result is the
    slice [[whole match; group]], or nil when nothing matches. *)
Definition jid_literal : string := "Submitted batch job ".

Definition match_jid_here (s : string) : list string :=
  match Strings.strip_prefix jid_literal s with
  | Some rest =>
      let d := Strings.span_digits rest in
      if bool_decide (d = "") then [] else [jid_literal +:+ d; d]
  | None => []
  end.

Fixpoint FindStringSubmatch_jid (s : string) : list string :=
  match match_jid_here s with
  | [] =>
      match s with
      | EmptyString => []
      | String _ s' => FindStringSubmatch_jid s'
      end
  | m => m
  end.

(** [regexp.MustCompile(`(CD|CG|F|PD|PR|R|S|ST)`)] applied with
    [FindString]: at the leftmost place where an alternative matches, the
    first alternative in the order written; the empty string when none
    matches anywhere. *)
Definition state_codes : list string := ["CD"; "CG"; "F"; "PD"; "PR"; "R"; "S"; "ST"].

Definition match_state_here (s : string) : option string :=
  List.find (Strings.HasPrefix s) state_codes.

Fixpoint FindString_state (s : string) : string :=
  match match_state_here s with
  | Some c => c
  | None =>
      match s with
      | EmptyString => ""
      | String _ s' => FindString_state s'
      end
  end.

(** ** aux.go *)

(** Functions of the Go library that are not spelled out, and the volume
    materializer of the package ([prepareMounts] with [mountData]), which no
    property below looks into: what it returns and what it does to the world
    are left open. *)
Record Externals := {
  strings_Fields : string -> list string;
  time_Parse : string -> string -> error + time.Time;
  time_Format : time.Time -> string -> string;
  prepareMounts : string -> v1.Container -> list commonIL.RetrievedPodData ->
                  commonIL.InterLinkConfig -> M (list string)
}.

Definition timestampFormat : string := "2006-01-02 15:04:05.999999999 -0700 MST".

(** A [for ... range] loop whose body may return early with an error. *)
Fixpoint for_range {A} (body : A -> M unit) (l : list A) : M unit :=
  match l with
  | [] => mret tt
  | x :: l' => _ ← body x; for_range body l'
  end.

Section Aux.

Variable env : Environment.
Variable ext : Externals.

(** Returns the pair [(time, err)] of the Go function. *)
Definition parsingTimeFromString (stringTime : string) : time.Time * option error :=
  let parts := strings_Fields ext stringTime in
  if bool_decide (length parts ≠ 4%nat) then (time.zero, Some "invalid timestamp format")
  else
    match time_Parse ext timestampFormat stringTime with
    | inl err => (time.zero, Some err)
    | inr parsedTime => (parsedTime, None)
    end.

(** The optional timestamp file of one entry: a failed read leaves the zero
    instant, a failed parse assigns the zero instant the parser returns. *)
Definition load_time (name : string) : M time.Time :=
  r ← try (os_ReadFile env name);
  match r with
  | inl _ => mret time.zero
  | inr s => mret (parsingTimeFromString s).1
  end.

Definition LoadJIDs_entry (path : string) (entry : DirEntry) : M unit :=
  if IsDir entry then
    let podUID := DirEntry_Name entry in
    JID ← os_ReadFile env (path +:+ DirEntry_Name entry +:+ "/" +:+ "JobID.jid");
    StartedAt ← load_time (path +:+ DirEntry_Name entry +:+ "/" +:+ "StartedAt.time");
    FinishedAt ← load_time (path +:+ DirEntry_Name entry +:+ "/" +:+ "FinishedAt.time");
    let JIDEntry := {| PodUID := podUID; JID := JID;
                       StartTime := StartedAt; EndTime := FinishedAt |} in
    modify (fun w => set_JIDs (<[podUID := JIDEntry]> (JIDs w)) w)
  else mret tt.

Definition LoadJIDs (config : commonIL.InterLinkConfig) : M unit :=
  let path := commonIL.DataRootFolder config in
  entries ← os_ReadDir env path;
  for_range (LoadJIDs_entry path) entries.

(** The loop [for _, singularityCommand := range commands] of the MPI
    wrapping.  The loop variable is a copy of the element, so the assignment
    to its [command] field changes the copy; the state of the loop is the
    slice and the loop variable. *)
Definition mpi_loop_body (mpi : list string)
    (st : list SingularityCommand * option SingularityCommand)
    (elem : SingularityCommand) : list SingularityCommand * option SingularityCommand :=
  let singularityCommand := elem in
  let singularityCommand :=
    {| containerName := containerName singularityCommand;
       command := mpi ++ command singularityCommand |} in
  (st.1, Some singularityCommand).

Definition mpi_loop (mpi : list string) (commands : list SingularityCommand) : list SingularityCommand :=
  (foldl (mpi_loop_body mpi) (commands, None) commands).1.

Definition mpi_wrap (Annotations : gmap string string) (commands : list SingularityCommand) : list SingularityCommand :=
  match Annotations !! "slurm-job.vk.io/mpi-flags" with
  | Some mpi_flags =>
      if bool_decide (mpi_flags ≠ "true") then
        let mpi := ["mpiexec"; "-np"; "$SLURM_NTASKS"] ++ Strings.Split mpi_flags " " in
        mpi_loop mpi commands
      else commands
  | None => commands
  end.

Definition append_prefix (s : string) : M unit :=
  modify (fun w => set_prefix (prefix w +:+ s) w).

Definition tsocks_prefix (podUID : string) (config : commonIL.InterLinkConfig) : string :=
  Strings.nl +:+ Strings.nl +:+ "min_port=10000" +:+
  Strings.nl +:+ "max_port=65000" +:+
  Strings.nl +:+ "for ((port=$min_port; port<=$max_port; port++))" +:+
  Strings.nl +:+ "do" +:+
  Strings.nl +:+ "  temp=$(ss -tulpn | grep :$port)" +:+
  Strings.nl +:+ "  if [ -z " +:+ Strings.dquote +:+ "$temp" +:+ Strings.dquote +:+ " ]" +:+
  Strings.nl +:+ "  then" +:+
  Strings.nl +:+ "    break" +:+
  Strings.nl +:+ "  fi" +:+
  Strings.nl +:+ "done" +:+
  Strings.nl +:+ "ssh -4 -N -D $port " +:+ commonIL.Tsockslogin config +:+ " &" +:+
  Strings.nl +:+ "SSH_PID=$!" +:+
  Strings.nl +:+ "echo " +:+ Strings.dquote +:+ "local = 10.0.0.0/255.0.0.0 " +:+
  Strings.nl +:+ "server = 127.0.0.1 " +:+
  Strings.nl +:+ "server_port = $port" +:+ Strings.dquote +:+ " >> .tmp/" +:+ podUID +:+ "_tsocks.conf" +:+
  Strings.nl +:+ "export TSOCKS_CONF_FILE=.tmp/" +:+ podUID +:+
    "_tsocks.conf && export LD_PRELOAD=" +:+ commonIL.Tsockspath config.

(** The line of one container in job.sh. *)
Definition command_line (path : string) (singularityCommand : SingularityCommand) : string :=
  Strings.nl +:+ Strings.Join (command singularityCommand) " " +:+
  " &> " +:+ path +:+ "/" +:+ containerName singularityCommand +:+ ".out; " +:+
  "echo $? > " +:+ path +:+ "/" +:+ containerName singularityCommand +:+ ".status &".

Definition produceSLURMScript (path podNamespace podUID : string)
    (Annotations : gmap string string) (commands : list SingularityCommand)
    (config : commonIL.InterLinkConfig) : M string :=
  _ ← os_MkdirAll env path;
  let postfix := "" in
  f ← os_Create env (path +:+ "/job.sh");
  _ ← os_Chmod env (path +:+ "/job.sh");
  let sbatch_flags_from_argo :=
    match Annotations !! "slurm-job.vk.io/flags" with
    | Some slurm_flags => Strings.Split slurm_flags " "
    | None => []
    end in
  let commands := mpi_wrap Annotations commands in
  let sbatch_flags_as_string :=
    foldl (fun acc slurm_flag => acc +:+ (Strings.nl +:+ "#SBATCH " +:+ slurm_flag))
          "" sbatch_flags_from_argo in
  let postfix :=
    if commonIL.Tsocks config
    then postfix +:+ (Strings.nl +:+ Strings.nl +:+ "kill -15 $SSH_PID &> log2.txt")
    else postfix in
  _ ← (if commonIL.Tsocks config then append_prefix (tsocks_prefix podUID config)
       else mret tt);
  _ ← (if bool_decide (commonIL.Commandprefix config ≠ "")
       then append_prefix (Strings.nl +:+ commonIL.Commandprefix config)
       else mret tt);
  _ ← match Annotations !! "job.vk.io/pre-exec" with
      | Some preExecAnnotations => append_prefix (Strings.nl +:+ preExecAnnotations)
      | None => mret tt
      end;
  w ← get;
  let sbatch_macros :=
    "#!" +:+ commonIL.BashPath config +:+
    Strings.nl +:+ "#SBATCH --job-name=" +:+ podUID +:+
    Strings.nl +:+ "#SBATCH --output=" +:+ path +:+ "/job.out" +:+
    sbatch_flags_as_string +:+
    Strings.nl +:+
    prefix w +:+
    Strings.nl in
  let stringToBeWritten :=
    foldl (fun acc singularityCommand => acc +:+ command_line path singularityCommand)
          sbatch_macros commands in
  let stringToBeWritten := stringToBeWritten +:+ (Strings.nl +:+ postfix) in
  _ ← WriteString env f stringToBeWritten;
  mret f.

Definition SLURMBatchSubmit (path : string) (config : commonIL.InterLinkConfig) : M string :=
  let cmd := [path] in
  '(execReturn, err) ← shell_Execute env (commonIL.Sbatchpath config) cmd;
  match err with
  | Some e => fail e
  | None =>
      let stdout := Strings.ReplaceAll_drop "010"%char (Stdout execReturn) in
      if bool_decide (Stderr execReturn ≠ "") then fail (Stderr execReturn)
      else mret stdout
  end.

(** [jid[1]] is evaluated when the created file is about to be written. *)
Definition handleJID (podUID output : string) (pod : v1.Pod) (path : string) : M unit :=
  let jid := FindStringSubmatch_jid output in
  f ← os_Create env (path +:+ "/JobID.jid");
  jid1 ← index jid 1;
  _ ← WriteString env f jid1;
  jid1 ← index jid 1;
  modify (fun w => set_JIDs (<[podUID := {| PodUID := v1.UID pod; JID := jid1;
                                           StartTime := time.zero;
                                           EndTime := time.zero |}]> (JIDs w)) w).

Definition removeJID (podUID : string) : M unit :=
  modify (fun w => set_JIDs (delete podUID (JIDs w)) w).

(** The record of the pod is read before scancel runs; the error of
    [os.RemoveAll] is dropped (the call is a statement of its own), and [err]
    is nil where it is tested last. *)
Definition deleteContainer (podUID path : string) (config : commonIL.InterLinkConfig) : M unit :=
  r ← deref_JID podUID;
  '(_, err) ← shell_Execute env (commonIL.Scancelpath config) [JID r];
  match err with
  | Some e => fail e
  | None =>
      _ ← deref_JID podUID;
      _ ← try (os_RemoveAll env (path +:+ "/" +:+ podUID));
      removeJID podUID
  end.

End Aux.

(** ** The HTTP side of a handler *)

Module http.

Definition StatusOK : Z := 200.
Definition StatusInternalServerError : Z := 500.

(** A body is a sequence of writes: a text, or the JSON encoding of a list
    of pod statuses. *)
Inductive chunk :=
| Text (s : string)
| Json (resp : list commonIL.PodStatus).

(** [status] is [None] until the header is written. *)
Record ResponseWriter := {
  status : option Z;
  body : list chunk
}.

Definition fresh : ResponseWriter := {| status := None; body := [] |}.

(** [w.WriteHeader(code)]: only the first call counts. *)
Definition WriteHeader (code : Z) (w : ResponseWriter) : ResponseWriter :=
  match status w with
  | Some _ => w
  | None => {| status := Some code; body := body w |}
  end.

(** [w.Write(b)]: writes the header with 200 first, if none was written. *)
Definition Write (c : chunk) (w : ResponseWriter) : ResponseWriter :=
  {| status := Some (default StatusOK (status w)); body := body w ++ [c] |}.

(** What [io.ReadAll(r.Body)] and [json.Unmarshal] make of a request. *)
Inductive Request (A : Type) :=
| ReadFailed (err : error)
| Malformed (err : error)
| Decoded (req : A).
Arguments ReadFailed {A} err.
Arguments Malformed {A} err.
Arguments Decoded {A} req.

End http.

(** [w.WriteHeader(code)] followed by [w.Write(msg)] *)
Definition respond (code : Z) (msg : string) (w : http.ResponseWriter) : http.ResponseWriter :=
  http.Write (http.Text msg) (http.WriteHeader code w).

(** A step of a handler either goes on or has returned from the handler. *)
Inductive flow (S : Type) :=
| Next (s : S)
| Return (w : http.ResponseWriter).
Arguments Next {S} s.
Arguments Return {S} w.

Fixpoint for_range_flow {A S} (body : S -> A -> M (flow S)) (l : list A) (s : S) : M (flow S) :=
  match l with
  | [] => mret (Next s)
  | x :: l' =>
      r ← body s x;
      match r with
      | Next s' => for_range_flow body l' s'
      | Return w => mret (Return w)
      end
  end.

(** ** SubmitHandler *)

Section Submit.

Variable env : Environment.
Variable ext : Externals.
Variable Config : commonIL.InterLinkConfig.

(** The image token of a container's invocation. *)
Definition Submit_image (Annotations : gmap string string) (container : v1.Container) : string :=
  let image := v1.Image container in
  if Strings.HasPrefix (v1.Image container) "/" then
    match Annotations !! "slurm-job.vk.io/image-root" with
    | Some image_uri => image_uri +:+ v1.Image container
    | None => image
    end
  else v1.Image container.

(** The body of the loop over the containers of a pod ([singularityPrefix]
    is computed there and never read).  The error of [os.RemoveAll] is
    dropped here and in the body of the loop over the pods. *)
Definition Submit_container (req : list commonIL.RetrievedPodData) (pod : v1.Pod)
    (filesPath : string) (w : http.ResponseWriter)
    (singularity_command_pod : list SingularityCommand) (container : v1.Container)
    : M (flow (list SingularityCommand)) :=
  let commstr1 := ["singularity"; "exec"; "--writable-tmpfs"; "--nv"; "-H";
                   "${HOME}/" +:+ commonIL.DataRootFolder Config +:+ v1.UID pod +:+ ":${HOME}"] in
  let envs := prepareEnvs container in
  r ← try (prepareMounts ext filesPath container req Config);
  match r with
  | inl err =>
      let w := respond http.StatusInternalServerError
                 "Error prepairing mounts. Check Slurm Sidecar's logs" w in
      _ ← try (os_RemoveAll env filesPath);
      mret (Return w)
  | inr mounts =>
      let image := Submit_image (v1.Annotations pod) container in
      let singularity_command := commstr1 ++ envs in
      let singularity_command := singularity_command ++ mounts in
      let singularity_command := singularity_command ++ [image] in
      let singularity_command := singularity_command ++ v1.Command container in
      let singularity_command := singularity_command ++ v1.Args container in
      mret (Next (singularity_command_pod ++
                    [{| containerName := v1.Container_Name container;
                        command := singularity_command |}]))
  end.

(** The body of the loop over the pods of the request. *)
Definition Submit_pod (req : list commonIL.RetrievedPodData) (w : http.ResponseWriter)
    (data : commonIL.RetrievedPodData) : M (flow http.ResponseWriter) :=
  let pod := commonIL.Pod data in
  let containers := v1.Containers pod in
  let filesPath := commonIL.DataRootFolder Config +:+ v1.Namespace pod +:+ "-" +:+ v1.UID pod in
  cs ← for_range_flow (Submit_container req pod filesPath w) containers [];
  match cs with
  | Return w' => mret (Return w')
  | Next singularity_command_pod =>
      p ← try (produceSLURMScript env filesPath (v1.Namespace pod) (v1.UID pod)
                 (v1.Annotations pod) singularity_command_pod Config);
      match p with
      | inl err =>
          let w := respond http.StatusInternalServerError
                     "Error producing Slurm script. Check Slurm Sidecar's logs" w in
          _ ← try (os_RemoveAll env filesPath);
          mret (Return w)
      | inr path =>
          o ← try (SLURMBatchSubmit env path Config);
          match o with
          | inl err =>
              let w := respond http.StatusInternalServerError
                         "Error submitting Slurm script. Check Slurm Sidecar's logs" w in
              _ ← try (os_RemoveAll env filesPath);
              mret (Return w)
          | inr out =>
              h ← try (handleJID env (v1.UID pod) out pod filesPath);
              match h with
              | inl err =>
                  let w := respond http.StatusInternalServerError
                             "Error handling JID. Check Slurm Sidecar's logs" w in
                  _ ← try (os_RemoveAll env filesPath);
                  _ ← try (deleteContainer env (v1.UID pod) filesPath Config);
                  mret (Return w)
              | inr _ => mret (Next w)
              end
          end
      end
  end.

Definition SubmitHandler (r : http.Request (list commonIL.RetrievedPodData)) : M http.ResponseWriter :=
  let w := http.fresh in
  let statusCode := http.StatusOK in
  match r with
  | http.ReadFailed err | http.Malformed err =>
      mret (respond http.StatusInternalServerError
              "Some errors occurred while creating container. Check Slurm Sidecar's logs" w)
  | http.Decoded req =>
      l ← for_range_flow (Submit_pod req) req w;
      match l with
      | Return w' => mret w'
      | Next w =>
          let w := http.WriteHeader statusCode w in
          mret (http.Write (http.Text "Containers created") w)
      end
  end.

End Submit.

(** ** StatusHandler *)

(** The local variables of the handler that its loops change. *)
Record Local := {
  statusCode : Z;
  writer : http.ResponseWriter;
  resp : list commonIL.PodStatus;
  timeNow : time.Time
}.

Definition add_resp (ps : commonIL.PodStatus) (l : Local) : Local :=
  {| statusCode := statusCode l; writer := writer l;
     resp := resp l ++ [ps]; timeNow := timeNow l |}.

Definition set_EndTime (t : time.Time) (r : JidStruct) : JidStruct :=
  {| PodUID := PodUID r; JID := JID r; StartTime := StartTime r; EndTime := t |}.

Definition set_StartTime (t : time.Time) (r : JidStruct) : JidStruct :=
  {| PodUID := PodUID r; JID := JID r; StartTime := t; EndTime := EndTime r |}.

Definition terminated (name : string) (code : Z) (started finished : time.Time) : v1.ContainerStatus :=
  {| v1.ContainerStatus_Name := name;
     v1.State := v1.Terminated code started finished;
     v1.Ready := false |}.

Definition pod_status (pod : v1.Pod) (cs : list v1.ContainerStatus) : commonIL.PodStatus :=
  {| commonIL.PodName := v1.Pod_Name pod;
     commonIL.PodUID := v1.UID pod;
     commonIL.PodNamespace := v1.Namespace pod;
     commonIL.PodStatus_Containers := cs |}.

Section Status.

Variable env : Environment.
Variable ext : Externals.
Variable Config : commonIL.InterLinkConfig.

(** Branch of the non-empty stderr: the loop over the containers of the pod.
    Its state is [statusCode], the response writer and [containerStatuses]. *)
Definition Status_exit_code (path : string)
    (st : Z * http.ResponseWriter * list v1.ContainerStatus) (ct : v1.Container)
    : M (flow (Z * http.ResponseWriter * list v1.ContainerStatus)) :=
  let '(statusCode, w, containerStatuses) := st in
  o ← try (os_Open env (path +:+ "/" +:+ v1.Container_Name ct +:+ ".status"));
  match o with
  | inl err =>
      mret (Return (respond http.StatusInternalServerError
                      "Error retrieving container status. Check Slurm Sidecar's logs" w))
  | inr file =>
      d ← try (io_ReadAll env file);
      match d with
      | inl err =>
          mret (Return (respond http.StatusInternalServerError
                          "Error reading container status. Check Slurm Sidecar's logs" w))
      | inr statusb =>
          let '(status, statusCode, w) :=
            match Strings.Atoi (Strings.ReplaceAll_drop "010"%char statusb) with
            | Some n => (n, statusCode, w)
            | None =>
                (500, http.StatusInternalServerError,
                 respond http.StatusInternalServerError
                   "Error converting container status.. Check Slurm Sidecar's logs" w)
            end in
          mret (Next (statusCode, w,
                      containerStatuses ++
                        [terminated (v1.Container_Name ct) (int32 status) time.zero time.zero]))
      end
  end.

Definition Status_branchB (pod : v1.Pod) (path : string) (l : Local) : M (flow Local) :=
  r ← for_range_flow (Status_exit_code path) (v1.Containers pod) (statusCode l, writer l, []);
  match r with
  | Return w => mret (Return w)
  | Next (statusCode, w, containerStatuses) =>
      mret (Next {| statusCode := statusCode; writer := w;
                    resp := resp l ++ [pod_status pod containerStatuses];
                    timeNow := timeNow l |})
  end.

(** [if JIDs[uid].EndTime.IsZero() { JIDs[uid].EndTime = timeNow; ... }]:
    the record is changed before FinishedAt.time is created, and the error of
    writing the file is dropped. *)
Definition stamp_end (uid path : string) (l : Local) : M (flow unit) :=
  r ← deref_JID uid;
  if time.IsZero (EndTime r) then
    _ ← modify (fun w => set_JIDs (alter (set_EndTime (timeNow l)) uid (JIDs w)) w);
    c ← try (os_Create env (path +:+ "/FinishedAt.time"));
    match c with
    | inl err =>
        mret (Return (respond http.StatusInternalServerError
                        "Error writing end timestamp... Check Slurm Sidecar's logs" (writer l)))
    | inr f =>
        r ← deref_JID uid;
        _ ← try (WriteString env f (time_Format ext (EndTime r) timestampFormat));
        mret (Next tt)
    end
  else mret (Next tt).

Definition stamp_start (uid path : string) (l : Local) : M (flow unit) :=
  r ← deref_JID uid;
  if time.IsZero (StartTime r) then
    _ ← modify (fun w => set_JIDs (alter (set_StartTime (timeNow l)) uid (JIDs w)) w);
    c ← try (os_Create env (path +:+ "/StartedAt.time"));
    match c with
    | inl err =>
        mret (Return (respond http.StatusInternalServerError
                        "Error writing start timestamp... Check Slurm Sidecar's logs" (writer l)))
    | inr f =>
        r ← deref_JID uid;
        _ ← try (WriteString env f (time_Format ext (StartTime r) timestampFormat));
        mret (Next tt)
    end
  else mret (Next tt).

(** The cases CD, F, PR, ST and default of the switch have this one body. *)
Definition Status_terminated (pod : v1.Pod) (uid path : string) (l : Local) : M (flow Local) :=
  s ← stamp_end uid path l;
  match s with
  | Return w => mret (Return w)
  | Next _ =>
      c0 ← index (v1.Containers pod) 0;
      r ← deref_JID uid;
      let containerStatus :=
        terminated (v1.Container_Name c0) 0 (StartTime r) (EndTime r) in
      mret (Next (add_resp (pod_status pod [containerStatus]) l))
  end.

(** The cases CG and R. *)
Definition Status_running (pod : v1.Pod) (uid path : string) (l : Local) : M (flow Local) :=
  s ← stamp_start uid path l;
  match s with
  | Return w => mret (Return w)
  | Next _ =>
      c0 ← index (v1.Containers pod) 0;
      r ← deref_JID uid;
      let containerStatus :=
        {| v1.ContainerStatus_Name := v1.Container_Name c0;
           v1.State := v1.Running (StartTime r);
           v1.Ready := true |} in
      mret (Next (add_resp (pod_status pod [containerStatus]) l))
  end.

(** The cases PD and S. *)
Definition Status_waiting (pod : v1.Pod) (l : Local) : M (flow Local) :=
  c0 ← index (v1.Containers pod) 0;
  let containerStatus :=
    {| v1.ContainerStatus_Name := v1.Container_Name c0;
       v1.State := v1.Waiting;
       v1.Ready := false |} in
  mret (Next (add_resp (pod_status pod [containerStatus]) l)).

Definition Status_branchA (pod : v1.Pod) (uid path stdout : string) (l : Local) : M (flow Local) :=
  let match_ := FindString_state stdout in
  _ ← deref_JID uid;
  if bool_decide (match_ = "CD") then Status_terminated pod uid path l
  else if bool_decide (match_ = "CG") then Status_running pod uid path l
  else if bool_decide (match_ = "F") then Status_terminated pod uid path l
  else if bool_decide (match_ = "PD") then Status_waiting pod l
  else if bool_decide (match_ = "PR") then Status_terminated pod uid path l
  else if bool_decide (match_ = "R") then Status_running pod uid path l
  else if bool_decide (match_ = "S") then Status_waiting pod l
  else if bool_decide (match_ = "ST") then Status_terminated pod uid path l
  else Status_terminated pod uid path l.

(** The body of the loop over the pods of the request. *)
Definition Status_pod (l : Local) (pod : v1.Pod) : M (flow Local) :=
  let uid := v1.UID pod in
  let path := commonIL.DataRootFolder Config +:+ v1.Namespace pod +:+ "-" +:+ v1.UID pod in
  r ← deref_JID uid;
  let cmd := ["--noheader"; "-a"; "-j " +:+ JID r] in
  '(execReturn, _) ← shell_Execute env (commonIL.Squeuepath Config) cmd;
  now ← time_Now env;
  let l := {| statusCode := statusCode l; writer := writer l;
              resp := resp l; timeNow := now |} in
  if bool_decide (Stderr execReturn ≠ "") then Status_branchB pod path l
  else Status_branchA pod uid path (Stdout execReturn) l.

(** The end of the handler: the header, then the statuses or a text.
    [json.Marshal] does not fail on a list of pod statuses, so its error
    branch is left out. *)
Definition Status_finish (l : Local) : http.ResponseWriter :=
  let w := http.WriteHeader (statusCode l) (writer l) in
  if bool_decide (statusCode l ≠ http.StatusOK) then
    http.Write (http.Text "Some errors occurred deleting containers. Check Docker Sidecar's logs") w
  else http.Write (http.Json (resp l)) w.

Definition Status_cycle (req : list v1.Pod) (l : Local) : M http.ResponseWriter :=
  '(execReturn, _) ← shell_Execute env "squeue" ["--me"];
  if bool_decide (Stderr execReturn ≠ "") then
    mret (respond http.StatusInternalServerError
            "Error executing Squeue. Check Slurm Sidecar's logs" (writer l))
  else
    r ← for_range_flow Status_pod req l;
    match r with
    | Return w => mret w
    | Next l =>
        now ← time_Now env;
        _ ← modify (set_cache (resp l) now);
        mret (Status_finish l)
    end.

Definition StatusHandler (r : http.Request (list v1.Pod)) : M http.ResponseWriter :=
  let l := {| statusCode := http.StatusOK; writer := http.fresh; resp := [];
              timeNow := time.zero |} in
  now ← time_Now env;
  let l := {| statusCode := statusCode l; writer := writer l; resp := resp l;
              timeNow := now |} in
  match r with
  | http.ReadFailed err =>
      mret (respond http.StatusInternalServerError
              "Some errors occurred while retrieving container status. Check Slurm Sidecar's logs"
              (writer l))
  | _ =>
      w ← get;
      if time.Second * 10 <=? time.Sub (timeNow l) (timer w) then
        match r with
        | http.Decoded req => Status_cycle req l
        | _ =>
            mret (respond http.StatusInternalServerError
                    "Some errors occurred while retrieving container status. Check Slurm Sidecar's logs"
                    (writer l))
        end
      else
        let l := {| statusCode := statusCode l; writer := writer l;
                    resp := cachedStatus w; timeNow := timeNow l |} in
        mret (Status_finish l)
  end.

End Status.

(** ** What the statements below are phrased with *)

(** The system lets every call through. *)
Definition no_faults (env : Environment) : Prop :=
  forall n c, fault env n c = None.

(** The exit code the status poll makes of the bytes of a [.status] file. *)
Definition exit_status (data : string) : Z :=
  match Strings.Atoi (Strings.ReplaceAll_drop "010"%char data) with
  | Some n => int32 n
  | None => 500
  end.

Definition status_file (path : string) (ct : v1.Container) : string :=
  path +:+ "/" +:+ v1.Container_Name ct +:+ ".status".

Definition status_data (fs : gmap string string) (path : string) (ct : v1.Container) : string :=
  default "" (fs !! status_file path ct).

(** The content of a status file is an integer once its newlines are
    removed. *)
Definition parses (data : string) : bool :=
  bool_decide (is_Some (Strings.Atoi (Strings.ReplaceAll_drop "010"%char data))).

(** The file [name] can be opened and read, the two calls being the
    questions [n] and [n + 1] to the environment. *)
Definition can_read (env : Environment) (fs : gmap string string) (n : nat)
    (name : string) : bool :=
  bool_decide (fault env n (sys_Open name) = None)
  && bool_decide (is_Some (fs !! name))
  && bool_decide (fault env (S n) (sys_ReadAll name) = None).

(** The status files of the containers [cts] can be opened and read one
    after the other, from the question [n] on. *)
Fixpoint all_read (env : Environment) (fs : gmap string string) (path : string)
    (n : nat) (cts : list v1.Container) : bool :=
  match cts with
  | [] => true
  | ct :: cts' =>
      can_read env fs n (status_file path ct) && all_read env fs path (S (S n)) cts'
  end.

(** The containers whose status file does not hold an integer. *)
Definition unparsed (fs : gmap string string) (path : string)
    (cts : list v1.Container) : list v1.Container :=
  filter (fun ct => parses (status_data fs path ct) = false) cts.

(** One terminated status per container, with the exit code its status
    file gives. *)
Definition exit_statuses (fs : gmap string string) (path : string)
    (cts : list v1.Container) : list v1.ContainerStatus :=
  map (fun ct => terminated (v1.Container_Name ct) (exit_status (status_data fs path ct))
                   time.zero time.zero) cts.

(** The texts that the branch of the non-empty stderr writes. *)
Definition retrieving : string :=
  "Error retrieving container status. Check Slurm Sidecar's logs".
Definition reading : string :=
  "Error reading container status. Check Slurm Sidecar's logs".
Definition converting : string :=
  "Error converting container status.. Check Slurm Sidecar's logs".

(** The text of the failure for a file that cannot be read: that of the
    read when the file was opened, that of the open otherwise. *)
Definition read_failure (env : Environment) (fs : gmap string string) (n : nat)
    (name : string) : string :=
  if bool_decide (fault env n (sys_Open name) = None) && bool_decide (is_Some (fs !! name))
  then reading else retrieving.

(** What was written to a response is the header 500 and texts, no list. *)
Definition is_text (c : http.chunk) : bool :=
  match c with
  | http.Text _ => true
  | http.Json _ => false
  end.

Definition failed (rw : http.ResponseWriter) : Prop :=
  http.status rw = Some 500 /\ forallb is_text (http.body rw) = true.

(** The status code and the response of a poll cycle go together: 200 and
    nothing written, or 500 and a failed response. *)
Definition code_ok (sc : Z) (rw : http.ResponseWriter) : Prop :=
  (sc = 200 /\ rw = http.fresh) \/ (sc = 500 /\ failed rw).

Definition Local_ok (l : Local) : Prop := code_ok (statusCode l) (writer l).

(** A step of a loop went on in a state that satisfies [I], or the handler
    has returned a response that satisfies [R]. *)
Definition flow_ok {S} (I : S -> Prop) (R : http.ResponseWriter -> Prop) (fl : flow S) : Prop :=
  match fl with
  | Next s => I s
  | Return rw => R rw
  end.

(** The local state [l'] of a cycle comes after [l]: its list is that of
    [l] with entries added at the end, and a status code 500 has stayed. *)
Definition grows (l l' : Local) : Prop :=
  (exists more, resp l' = resp l ++ more) /\ (statusCode l = 500 -> statusCode l' = 500).

(** The local state with which a poll cycle enters its loop over the pods
    and the world in which it does: the clock was read and [squeue --me]
    was run.  [cycle_end] is the world a cycle leaves that ran its loop to
    the end with the local state [l] in the world [w1]. *)
Definition cycle_start (env : Environment) (w : World) : Local :=
  {| statusCode := http.StatusOK; writer := http.fresh; resp := [];
     timeNow := Now env (tick w) |}.

Definition cycle_world (w : World) : World := log_exec "squeue" ["--me"] (bump (bump w)).

Definition cycle_end (env : Environment) (l : Local) (w1 : World) : World :=
  set_cache (resp l) (Now env (tick w1)) (bump w1).

(** The world after [k] more questions to the environment. *)
Definition asked (k : nat) (w : World) : World := Nat.iter k bump w.

(** The world in which the status files of a pod are looked at: squeue was
    run for the job of its record [r] and the clock was read. *)
Definition polled (Config : commonIL.InterLinkConfig) (r : JidStruct) (w : World) : World :=
  bump (log_exec (commonIL.Squeuepath Config)
          ["--noheader"; "-a"; "-j " +:+ JID r] (bump w)).

(** The record that recovery builds for a directory, and the registry after
    the entry [e] was loaded from the files [fs]. *)
Definition recovered_time (ext : Externals) (data : option string) : time.Time :=
  match data with
  | None => time.zero
  | Some s => (parsingTimeFromString ext s).1
  end.

Definition jid_file (path : string) (e : DirEntry) : string :=
  path +:+ DirEntry_Name e +:+ "/" +:+ "JobID.jid".

Definition recover_entry (ext : Externals) (fs : gmap string string) (path : string)
    (J : gmap string JidStruct) (e : DirEntry) : gmap string JidStruct :=
  if IsDir e then
    <[DirEntry_Name e :=
        {| PodUID := DirEntry_Name e;
           JID := default "" (fs !! jid_file path e);
           StartTime := recovered_time ext (fs !! (path +:+ DirEntry_Name e +:+ "/" +:+ "StartedAt.time"));
           EndTime := recovered_time ext (fs !! (path +:+ DirEntry_Name e +:+ "/" +:+ "FinishedAt.time")) |}]> J
  else J.

(** What removing the tree at [path] may do to a world: a file outside the
    tree is as before, a file of the tree is gone or as before, and nothing
    else changes but the count of the questions put to the environment. *)
Definition removal (cwd : list string) (path : string) (w w' : World) : Prop :=
  JIDs w' = JIDs w /\ execLog w' = execLog w /\ prefix w' = prefix w /\
  timer w' = timer w /\ cachedStatus w' = cachedStatus w /\
  forall name,
    if Path.under cwd path name
    then files w' !! name = None \/ files w' !! name = files w !! name
    else files w' !! name = files w !! name.

(** A name that is one element of a path. *)
Fixpoint has_slash (s : string) : bool :=
  match s with
  | EmptyString => false
  | String c s' => Strings.byte_eqb c "/" || has_slash s'
  end.

Definition path_element (s : string) : bool :=
  negb (bool_decide (s = "")) && negb (bool_decide (s = ".")) &&
  negb (bool_decide (s = "..")) && negb (has_slash s).

(** The world a call leaves behind, however it ends. *)
Definition final {A} (r : result A) : World :=
  match r with
  | Ok _ w | Err _ w | Panic w => w
  end.

(** Every value that [m] returns satisfies [Q]. *)
Definition post {A} (m : M A) (Q : A -> Prop) : Prop :=
  forall w, match m w with Ok a _ => Q a | _ => True end.

(** [m] relates every world it starts in to the world it ends in by [R]. *)
Definition keeps (R : World -> World -> Prop) {A} (m : M A) : Prop :=
  forall w, R w (final (m w)).

(** The rate-limit variables and the keys of the registry are as before. *)
Definition steady (w w' : World) : Prop :=
  timer w' = timer w /\ cachedStatus w' = cachedStatus w /\
  dom (JIDs w') = dom (JIDs w).

(** The files are as before. *)
Definition same_files (w w' : World) : Prop := files w' = files w.

(** ** Sample data *)

Module Sample.

Definition config : commonIL.InterLinkConfig :=
  {| commonIL.DataRootFolder := ".local/interlink/jobs/";
     commonIL.BashPath := "/bin/bash";
     commonIL.Sbatchpath := "/usr/bin/sbatch";
     commonIL.Scancelpath := "/usr/bin/scancel";
     commonIL.Squeuepath := "/usr/bin/squeue";
     commonIL.Commandprefix := "";
     commonIL.SingularityPrefix := "";
     commonIL.Tsocks := false;
     commonIL.Tsockspath := "";
     commonIL.Tsockslogin := "" |}.

Definition world : World :=
  {| files := ∅; prefix := ""; timer := time.zero; cachedStatus := [];
     JIDs := ∅; tick := 0; execLog := [] |}.

(** A pod without volumes: the materializer has nothing to bind. *)
Definition ext : Externals :=
  {| strings_Fields := fun s => Strings.Split s " ";
     time_Parse := fun _ _ => inl "parsing time: cannot parse";
     time_Format := fun _ _ => "2024-05-06 07:08:09.000000001 +0000 UTC";
     prepareMounts := fun _ _ _ _ => mret [] |}.

Definition out (stdout stderr : string) : ExecResult :=
  {| Stdout := stdout; Stderr := stderr; ExitCode := if bool_decide (stderr = "") then 0 else 1 |}.

(** An environment without faults in which every command answers [r]. *)
Definition answering (r : ExecResult * option error) (entries : list DirEntry) : Environment :=
  {| Now := fun n => 63000000000000000000 + Z.of_nat n;
     Execute := fun _ _ _ => r;
     fault := fun _ _ => None;
     Listing := fun _ _ => entries;
     Getwd := ["home"; "interlink"] |}.

(** The scheduler answers [squeue --me], and no longer knows any job. *)
Definition job_gone : Environment :=
  {| Now := fun n => 63000000000000000000 + Z.of_nat n;
     Execute := fun _ c _ =>
       if bool_decide (c = "squeue") then (out "" "", None)
       else (out "" "slurm_load_jobs error: Invalid job id specified", None);
     fault := fun _ _ => None;
     Listing := fun _ _ => [];
     Getwd := ["home"; "interlink"] |}.

Definition env_AB : list v1.EnvVar :=
  [ {| v1.EnvVar_Name := "A"; v1.EnvVar_Value := "1" |};
    {| v1.EnvVar_Name := "B"; v1.EnvVar_Value := "2" |} ].

Definition container (image : string) (envs : list v1.EnvVar) : v1.Container :=
  {| v1.Container_Name := "c"; v1.Image := image;
     v1.Command := ["echo"]; v1.Args := ["hi"]; v1.Env := envs |}.

Definition pod (annotations : gmap string string) (cs : list v1.Container) : v1.Pod :=
  {| v1.Pod_Name := "job"; v1.Namespace := "default"; v1.UID := "abc";
     v1.Annotations := annotations; v1.Containers := cs |}.

Definition record (jid : string) : JidStruct :=
  {| PodUID := "abc"; JID := jid; StartTime := time.zero; EndTime := time.zero |}.

Definition registered (jid : string) : World :=
  set_JIDs {["abc" := record jid]} world.

End Sample.

(** ** What the further statements are phrased with *)

(** The text of job.sh, part by part, for the value [prefix_now] that the
    process-wide prefix has when the file is written. *)
Definition script_header (path podUID : string) (config : commonIL.InterLinkConfig) : string :=
  "#!" +:+ commonIL.BashPath config +:+
  Strings.nl +:+ "#SBATCH --job-name=" +:+ podUID +:+
  Strings.nl +:+ "#SBATCH --output=" +:+ path +:+ "/job.out".

Definition script_flags (Annotations : gmap string string) : string :=
  String.concat ""
    (map (fun slurm_flag => Strings.nl +:+ "#SBATCH " +:+ slurm_flag)
       match Annotations !! "slurm-job.vk.io/flags" with
       | Some slurm_flags => Strings.Split slurm_flags " "
       | None => []
       end).

Definition script_postfix (config : commonIL.InterLinkConfig) : string :=
  if commonIL.Tsocks config
  then Strings.nl +:+ Strings.nl +:+ "kill -15 $SSH_PID &> log2.txt"
  else "".

Definition script_text (path podUID : string) (Annotations : gmap string string)
    (commands : list SingularityCommand) (config : commonIL.InterLinkConfig)
    (prefix_now : string) : string :=
  script_header path podUID config +:+ script_flags Annotations +:+
  Strings.nl +:+ prefix_now +:+ Strings.nl +:+
  String.concat "" (map (command_line path) commands) +:+
  Strings.nl +:+ script_postfix config.

(** What one call of [produceSLURMScript] appends to the process-wide
    prefix. *)
Definition prefix_added (podUID : string) (Annotations : gmap string string)
    (config : commonIL.InterLinkConfig) : string :=
  (if commonIL.Tsocks config then tsocks_prefix podUID config else "") +:+
  (if bool_decide (commonIL.Commandprefix config <> "")
   then Strings.nl +:+ commonIL.Commandprefix config else "") +:+
  match Annotations !! "job.vk.io/pre-exec" with
  | Some preExecAnnotations => Strings.nl +:+ preExecAnnotations
  | None => ""
  end.

(** The process-wide prefix has only grown. *)
Definition extends_prefix (w w' : World) : Prop :=
  exists added, prefix w' = prefix w +:+ added.

(** The registry is as before. *)
Definition same_JIDs (w w' : World) : Prop := JIDs w' = JIDs w.

(** A record that was only aged: its identifiers are as before, and a
    start or end instant that was recorded is as before. *)
Definition ages_record (r r' : JidStruct) : Prop :=
  PodUID r' = PodUID r /\ JID r' = JID r /\
  (StartTime r <> time.zero -> StartTime r' = StartTime r) /\
  (EndTime r <> time.zero -> EndTime r' = EndTime r).

Definition ages (w w' : World) : Prop :=
  forall uid,
    match JIDs w !! uid with
    | Some r => exists r', JIDs w' !! uid = Some r' /\ ages_record r r'
    | None => JIDs w' !! uid = None
    end.

(** What the status poll makes of the state code [code] of a job with the
    record [r] when the clock reads [now]: the record afterwards, the state
    of the first container and its readiness. *)
Definition project (code : string) (r : JidStruct) (now : time.Time)
    : JidStruct * v1.ContainerState * bool :=
  if bool_decide (code = "CG" \/ code = "R") then
    let r' := if time.IsZero (StartTime r) then set_StartTime now r else r in
    (r', v1.Running (StartTime r'), true)
  else if bool_decide (code = "PD" \/ code = "S") then
    (r, v1.Waiting, false)
  else
    let r' := if time.IsZero (EndTime r) then set_EndTime now r else r in
    (r', v1.Terminated 0 (StartTime r') (EndTime r'), false).

Module Cases.

(** sbatch accepts the job, and JobID.jid of pod abc cannot be created. *)
Definition jid_unwritable : Environment :=
  {| Now := fun n => 63000000000000000000 + Z.of_nat n;
     Execute := fun _ _ _ =>
       (Sample.out ("Submitted batch job 12345" +:+ Strings.nl) "", None);
     fault := fun _ c =>
       match c with
       | sys_Create name =>
           if bool_decide (name = ".local/interlink/jobs/default-abc/JobID.jid")
           then Some "permission denied" else None
       | _ => None
       end;
     Listing := fun _ _ => [];
     Getwd := ["home"; "interlink"] |}.

(** The record of a pod that was submitted and neither started nor ended. *)
Definition record_of (uid jid : string) : JidStruct :=
  {| PodUID := uid; JID := jid; StartTime := time.zero; EndTime := time.zero |}.

(** squeue answers every query with [line] on stdout. *)
Definition squeue_says (line : string) : Environment :=
  Sample.answering (Sample.out line "", None) [].

Definition local : Local :=
  {| statusCode := http.StatusOK; writer := http.fresh; resp := [];
     timeNow := time.zero |}.

(** Pod abc with its one container, and without containers. *)
Definition pod_abc : v1.Pod := Sample.pod ∅ [Sample.container "ubuntu" []].

Definition pod_bare : v1.Pod := Sample.pod ∅ [].

Definition data_abc : commonIL.RetrievedPodData := {| commonIL.Pod := pod_abc |}.

(** Pod abc is registered with job 77 and the status file of its container
    holds [content]. *)
Definition finished (content : string) : World :=
  set_files {[".local/interlink/jobs/default-abc/c.status" := content]}
    (Sample.registered "77").

(** The sample configuration with a command prefix. *)
Definition config_prefixed : commonIL.InterLinkConfig :=
  {| commonIL.DataRootFolder := ".local/interlink/jobs/";
     commonIL.BashPath := "/bin/bash";
     commonIL.Sbatchpath := "/usr/bin/sbatch";
     commonIL.Scancelpath := "/usr/bin/scancel";
     commonIL.Squeuepath := "/usr/bin/squeue";
     commonIL.Commandprefix := "module load singularity";
     commonIL.SingularityPrefix := "";
     commonIL.Tsocks := false;
     commonIL.Tsockspath := "";
     commonIL.Tsockslogin := "" |}.

End Cases.

(** * Properties *)

(** ** Strings *)

Lemma string_app_cons (c : ascii) (a b : string) :
  String c a +:+ b = String c (a +:+ b).
Proof. reflexivity. Qed.

Lemma string_app_nil_r (s : string) : s +:+ "" = s.
Proof.
  induction s as [|c s IH]; [done |].
  rewrite string_app_cons. by f_equal.
Qed.

Lemma string_app_assoc (a b c : string) : (a +:+ b) +:+ c = a +:+ (b +:+ c).
Proof.
  induction a as [|x a IH]; [done |].
  rewrite !string_app_cons. by f_equal.
Qed.

Lemma string_app_length (a b : string) :
  String.length (a +:+ b) = (String.length a + String.length b)%nat.
Proof.
  induction a as [|x a IH]; [done |].
  rewrite string_app_cons. simpl. by f_equal.
Qed.

Lemma byte_eqb_refl (c : ascii) : Strings.byte_eqb c c = true.
Proof. unfold Strings.byte_eqb. by apply bool_decide_eq_true. Qed.

Lemma byte_eqb_eq (c d : ascii) : Strings.byte_eqb c d = true <-> c = d.
Proof. unfold Strings.byte_eqb. apply bool_decide_eq_true. Qed.

Lemma trim_last_snoc (c : ascii) (s : string) :
  Strings.trim_last c (s +:+ String c "") = s.
Proof.
  induction s as [|d s IH].
  - simpl. by rewrite byte_eqb_refl.
  - rewrite string_app_cons. simpl. rewrite IH.
    destruct s; done.
Qed.

Lemma HasPrefix_empty (s : string) : Strings.HasPrefix s "" = true.
Proof. by destruct s. Qed.

Lemma HasPrefix_length (s p : string) :
  Strings.HasPrefix s p = true -> (String.length p <= String.length s)%nat.
Proof.
  revert s. induction p as [|c p IH]; intros s H; simpl in *; [lia |].
  destruct s as [|d s]; [done |].
  apply andb_true_iff in H as [_ H]. apply IH in H. simpl. lia.
Qed.

Lemma HasPrefix_app (a s p : string) :
  Strings.HasPrefix (a +:+ s) (a +:+ p) = Strings.HasPrefix s p.
Proof.
  induction a as [|c a IH]; [done |].
  rewrite !string_app_cons. simpl. by rewrite byte_eqb_refl, IH.
Qed.

(** ** prepareEnvs *)

Lemma env_data_loop_from (acc : string) (envs : list v1.EnvVar) :
  foldl (fun env_data env_var => env_data +:+ (env_pair env_var +:+ ",")) acc envs
  = acc +:+ env_data_loop envs.
Proof.
  unfold env_data_loop. revert acc.
  induction envs as [|e envs IH]; intros acc; simpl.
  - by rewrite string_app_nil_r.
  - rewrite (IH (acc +:+ _)), (IH ("" +:+ _)). by rewrite string_app_assoc.
Qed.

Lemma env_data_loop_cons (e : v1.EnvVar) (envs : list v1.EnvVar) :
  env_data_loop (e :: envs) = (env_pair e +:+ ",") +:+ env_data_loop envs.
Proof. exact (env_data_loop_from _ envs). Qed.

Lemma env_data_loop_join (e : v1.EnvVar) (envs : list v1.EnvVar) :
  env_data_loop (e :: envs) = Strings.Join (map env_pair (e :: envs)) "," +:+ ",".
Proof.
  revert e. induction envs as [|e' envs IH]; intros e; rewrite env_data_loop_cons.
  - unfold env_data_loop, Strings.Join. cbn [foldl map String.concat].
    by rewrite string_app_nil_r.
  - rewrite IH. unfold Strings.Join. cbn [map String.concat].
    by rewrite !string_app_assoc.
Qed.

Lemma join_env_nonempty (e : v1.EnvVar) (envs : list v1.EnvVar) :
  Strings.Join (map env_pair (e :: envs)) "," <> "".
Proof.
  intros H. apply (f_equal String.length) in H.
  unfold Strings.Join in H. cbn [map String.concat] in H.
  destruct (map env_pair envs); unfold env_pair in H;
    rewrite ?string_app_length in H; simpl in H; lia.
Qed.

(** Without [Env] the result is the empty vector. *)
Lemma prepareEnvs_no_env (container : v1.Container) :
  v1.Env container = [] -> prepareEnvs container = [].
Proof. intros H. unfold prepareEnvs. by rewrite H. Qed.

(** With [Env] the result has three tokens: the empty string that
    [make([]string, 1)] holds, then [--env], then the pairs joined by commas
    in list order. *)
Lemma prepareEnvs_with_env (container : v1.Container) :
  v1.Env container <> [] ->
  prepareEnvs container =
    [""; "--env"; Strings.Join (map env_pair (v1.Env container)) ","].
Proof.
  intros H. unfold prepareEnvs.
  destruct (v1.Env container) as [|e envs]; [done |]. clear H.
  cbn [length Nat.ltb Nat.leb].
  rewrite env_data_loop_join, trim_last_snoc.
  rewrite bool_decide_eq_false_2 by apply join_env_nonempty.
  done.
Qed.

(** C8: for the env list A=1, B=2 the vector [prepareEnvs] returns is not
    [--env], [A=1,B=2]: it starts with an empty token. *)
Theorem prepareEnvs_leading_empty_token :
  prepareEnvs (Sample.container "ubuntu" Sample.env_AB) = [""; "--env"; "A=1,B=2"]
  /\ prepareEnvs (Sample.container "ubuntu" Sample.env_AB) <> ["--env"; "A=1,B=2"].
Proof. split; [reflexivity | discriminate]. Qed.

(** ** The image token *)

(** C7: the image token is the value of the annotation
    slurm-job.vk.io/image-root followed by [Image] when [Image] begins with a
    slash and the annotation is there, and [Image] as it is in every other
    case; it is the token of the invocation that follows the mounts. *)
Theorem Submit_image_token (env : Environment) (ext : Externals)
    (Config : commonIL.InterLinkConfig) (req : list commonIL.RetrievedPodData)
    (pod : v1.Pod) (filesPath : string) (rw : http.ResponseWriter)
    (acc : list SingularityCommand) (container : v1.Container)
    (w w' : World) (mounts : list string) :
  prepareMounts ext filesPath container req Config w = Ok mounts w' ->
  exists head image,
    Submit_container env ext Config req pod filesPath rw acc container w
    = Ok (Next (acc ++ [{| containerName := v1.Container_Name container;
                           command := head ++ mounts ++ [image] ++
                                      v1.Command container ++ v1.Args container |}])) w'
    /\ image = Submit_image (v1.Annotations pod) container
    /\ image =
         match v1.Annotations pod !! "slurm-job.vk.io/image-root" with
         | Some image_uri =>
             if Strings.HasPrefix (v1.Image container) "/"
             then image_uri +:+ v1.Image container
             else v1.Image container
         | None => v1.Image container
         end.
Proof.
  intros Hm.
  exists (["singularity"; "exec"; "--writable-tmpfs"; "--nv"; "-H";
           "${HOME}/" +:+ commonIL.DataRootFolder Config +:+ v1.UID pod +:+ ":${HOME}"]
          ++ prepareEnvs container),
         (Submit_image (v1.Annotations pod) container).
  split; [| split; [done |]].
  - unfold Submit_container, mbind, M_bind, try. rewrite Hm.
    unfold mret, M_ret. by rewrite <- !app_assoc.
  - unfold Submit_image.
    destruct (Strings.HasPrefix _ _), (_ !! _); done.
Qed.

Lemma Submit_image_token_witness :
  exists head image,
    Submit_container (Sample.answering (Sample.out "" "", None) []) Sample.ext Sample.config []
      (Sample.pod {["slurm-job.vk.io/image-root" := "/cvmfs"]} [])
      "dir" http.fresh [] (Sample.container "/img/tool.sif" []) Sample.world
    = Ok (Next ([] ++ [{| containerName := "c";
                          command := head ++ [] ++ [image] ++ ["echo"] ++ ["hi"] |}])) Sample.world
    /\ image = "/cvmfs/img/tool.sif".
Proof.
  destruct (Submit_image_token (Sample.answering (Sample.out "" "", None) []) Sample.ext
              Sample.config [] (Sample.pod {["slurm-job.vk.io/image-root" := "/cvmfs"]} [])
              "dir" http.fresh [] (Sample.container "/img/tool.sif" [])
              Sample.world Sample.world [] eq_refl) as (head & image & H1 & H2 & _).
  exists head, image. split; [exact H1 | rewrite H2; reflexivity].
Defined.

(** ** The primitives, one equation each *)

Ltac run :=
  unfold mbind, M_bind, mret, M_ret, fail, panic, get, modify, try, ask; simpl.

Lemma ask_ok (env : Environment) (c : syscall) (w : World) :
  fault env (tick w) c = None -> ask env c w = Ok tt (bump w).
Proof. intros H. unfold ask. by rewrite H. Qed.

Lemma ask_err (env : Environment) (c : syscall) (w : World) (e : error) :
  fault env (tick w) c = Some e -> ask env c w = Err e (bump w).
Proof. intros H. unfold ask. by rewrite H. Qed.

Lemma os_Create_ok (env : Environment) (name : string) (w : World) :
  fault env (tick w) (sys_Create name) = None ->
  os_Create env name w = Ok name (set_files (<[name := ""]> (files w)) (bump w)).
Proof. intros H. unfold os_Create. run. by rewrite H. Qed.

Lemma os_Create_err (env : Environment) (name : string) (w : World) (e : error) :
  fault env (tick w) (sys_Create name) = Some e ->
  os_Create env name w = Err e (bump w).
Proof. intros H. unfold os_Create. run. by rewrite H. Qed.

Lemma WriteString_ok (env : Environment) (f s : string) (w : World) :
  fault env (tick w) (sys_WriteString f) = None ->
  WriteString env f s w
  = Ok tt (set_files (<[f := default "" (files w !! f) +:+ s]> (files w)) (bump w)).
Proof. intros H. unfold WriteString. run. by rewrite H. Qed.

Lemma os_ReadFile_ok (env : Environment) (name : string) (w : World) :
  fault env (tick w) (sys_ReadFile name) = None ->
  os_ReadFile env name w =
    match files w !! name with
    | Some data => Ok data (bump w)
    | None => Err ENOENT (bump w)
    end.
Proof.
  intros H. unfold os_ReadFile. run. rewrite H. simpl.
  by destruct (files w !! name).
Qed.

Lemma try_Ok {A} (m : M A) (w w' : World) (a : A) :
  m w = Ok a w' -> try m w = Ok (inr a) w'.
Proof. intros H. unfold try. by rewrite H. Qed.

Lemma try_Err {A} (m : M A) (w w' : World) (e : error) :
  m w = Err e w' -> try m w = Ok (inl e) w'.
Proof. intros H. unfold try. by rewrite H. Qed.

Lemma try_Panic {A} (m : M A) (w w' : World) :
  m w = Panic w' -> try m w = Panic w'.
Proof. intros H. unfold try. by rewrite H. Qed.

(** ** MPI wrapping *)

Lemma mpi_loop_keeps_commands (mpi : list string) (commands : list SingularityCommand) :
  mpi_loop mpi commands = commands.
Proof.
  unfold mpi_loop. generalize (@None SingularityCommand).
  generalize commands at 1 3 as slice.
  induction commands as [|c cs IH]; intros slice o; [done |].
  simpl. apply IH.
Qed.

(** Whatever the annotation slurm-job.vk.io/mpi-flags holds, the commands
    that go into the script are those that came in. *)
Lemma mpi_wrap_keeps_commands (Annotations : gmap string string)
    (commands : list SingularityCommand) :
  mpi_wrap Annotations commands = commands.
Proof.
  unfold mpi_wrap. destruct (_ !! _); [| done].
  case_bool_decide; [apply mpi_loop_keeps_commands | done].
Qed.

(** C2: with slurm-job.vk.io/mpi-flags set to [--map-by core], the line of
    the container in job.sh is the singularity command itself; no
    [mpiexec -np $SLURM_NTASKS --map-by core] stands before it. *)
Theorem produceSLURMScript_mpi_flags_not_prepended :
  exists w',
    produceSLURMScript (Sample.answering (Sample.out "" "", None) [])
      "dir" "default" "abc"
      {["slurm-job.vk.io/mpi-flags" := "--map-by core"]}
      [{| containerName := "c"; command := ["singularity"; "exec"; "ubuntu"] |}]
      Sample.config Sample.world
    = Ok "dir/job.sh" w'
    /\ files w' !! "dir/job.sh" =
         Some ("#!/bin/bash" +:+ Strings.nl +:+
               "#SBATCH --job-name=abc" +:+ Strings.nl +:+
               "#SBATCH --output=dir/job.out" +:+ Strings.nl +:+
               Strings.nl +:+ Strings.nl +:+
               "singularity exec ubuntu &> dir/c.out; echo $? > dir/c.status &" +:+
               Strings.nl).
Proof. eexists. split; vm_compute; reflexivity. Qed.

(** ** Submitting and the job identifier *)

Example FindStringSubmatch_jid_scenario :
  FindStringSubmatch_jid "Submitted batch job 12345" = ["Submitted batch job 12345"; "12345"].
Proof. reflexivity. Qed.

Example FindStringSubmatch_jid_parsable :
  FindStringSubmatch_jid "12345" = [].
Proof. reflexivity. Qed.

Lemma span_digits_all (s : string) : Strings.all_digits (Strings.span_digits s) = true.
Proof.
  induction s as [|c s IH]; simpl; [done |].
  destruct (Strings.is_digit c) eqn:E; simpl; [by rewrite E | done].
Qed.

Lemma match_jid_here_shape (s : string) :
  match_jid_here s = [] \/
  exists d, match_jid_here s = [jid_literal +:+ d; d]
            /\ d <> "" /\ Strings.all_digits d = true.
Proof.
  unfold match_jid_here.
  destruct (Strings.strip_prefix jid_literal s) as [rest|]; [| by left].
  case_bool_decide as Hd; [by left |].
  right. eexists. split; [reflexivity |]. split; [done | apply span_digits_all].
Qed.

Lemma FindStringSubmatch_jid_unfold (s : string) :
  FindStringSubmatch_jid s =
    match match_jid_here s with
    | [] => match s with
            | EmptyString => []
            | String _ s' => FindStringSubmatch_jid s'
            end
    | m => m
    end.
Proof. by destruct s. Qed.

(** A match is the whole match and its group, and the group is a non-empty
    run of digits. *)
Lemma FindStringSubmatch_jid_shape (s : string) :
  FindStringSubmatch_jid s = [] \/
  exists d, FindStringSubmatch_jid s = [jid_literal +:+ d; d]
            /\ d <> "" /\ Strings.all_digits d = true.
Proof.
  induction s as [|c s IH]; rewrite FindStringSubmatch_jid_unfold.
  - destruct (match_jid_here_shape "") as [E | (d & E & H)]; rewrite E; eauto.
  - destruct (match_jid_here_shape (String c s)) as [E | (d & E & H)];
      rewrite E; eauto.
Qed.

(** When the output of sbatch does not match and JobID.jid could be
    created, [handleJID] panics on [jid[1]]: the empty file stays and the
    registry is as before. *)
Lemma handleJID_unmatched (env : Environment) (podUID output : string) (pod : v1.Pod)
    (path : string) (w : World) :
  FindStringSubmatch_jid output = [] ->
  fault env (tick w) (sys_Create (path +:+ "/JobID.jid")) = None ->
  handleJID env podUID output pod path w
  = Panic (set_files (<[path +:+ "/JobID.jid" := ""]> (files w)) (bump w)).
Proof.
  intros Hm Hc. unfold handleJID. rewrite Hm.
  unfold mbind at 1, M_bind at 1. by rewrite os_Create_ok.
Qed.

(** When it matches and the system lets the two calls through, the digits
    are written to JobID.jid and recorded as the JID of the pod. *)
Lemma handleJID_matched (env : Environment) (podUID output : string) (pod : v1.Pod)
    (path : string) (w : World) (m d : string) :
  FindStringSubmatch_jid output = [m; d] ->
  fault env (tick w) (sys_Create (path +:+ "/JobID.jid")) = None ->
  fault env (S (tick w)) (sys_WriteString (path +:+ "/JobID.jid")) = None ->
  exists w',
    handleJID env podUID output pod path w = Ok tt w'
    /\ files w' !! (path +:+ "/JobID.jid") = Some d
    /\ JIDs w' !! podUID = Some {| PodUID := v1.UID pod; JID := d;
                                   StartTime := time.zero; EndTime := time.zero |}.
Proof.
  intros Hm Hc Hw. unfold handleJID. rewrite Hm.
  unfold mbind at 1, M_bind at 1. rewrite os_Create_ok by done.
  unfold mbind at 1, M_bind at 1. cbn [index lookup list_lookup mret M_ret].
  unfold mbind at 1, M_bind at 1. rewrite WriteString_ok by done.
  run. eexists. split; [reflexivity |]. simpl.
  split; by rewrite !lookup_insert_eq.
Qed.

(** C1: sbatch prints only the job number (as with --parsable), stderr is
    empty and the executor reports no error: the submit operation panics
    instead of answering with an error; JobID.jid is left empty and the
    registry has no entry for the pod. *)
Theorem SubmitHandler_unmatched_output_panics :
  exists w',
    SubmitHandler (Sample.answering (Sample.out "12345" "", None) []) Sample.ext Sample.config
      (http.Decoded [{| commonIL.Pod := Sample.pod ∅ [Sample.container "ubuntu" []] |}])
      Sample.world
    = Panic w'
    /\ files w' !! ".local/interlink/jobs/default-abc/JobID.jid" = Some ""
    /\ JIDs w' !! "abc" = None.
Proof. eexists. split; [| split]; vm_compute; reflexivity. Qed.

(** ** Path names *)

Lemma Split_nonempty (s : string) (sep : ascii) : Strings.Split s sep <> [].
Proof.
  destruct s as [|c s]; simpl; [done |].
  destruct (Strings.byte_eqb c sep); [done |].
  by destruct (Strings.Split s sep).
Qed.

Lemma Split_app (a b : string) (sep : ascii) :
  Strings.Split (a +:+ String sep b) sep = Strings.Split a sep ++ Strings.Split b sep.
Proof.
  induction a as [|c a IH].
  - change ("" +:+ String sep b) with (String sep b). simpl.
    by rewrite byte_eqb_refl.
  - rewrite string_app_cons. simpl. rewrite IH.
    destruct (Strings.byte_eqb c sep); [done |].
    pose proof (Split_nonempty a sep) as Hne.
    by destruct (Strings.Split a sep).
Qed.

Lemma Split_plain (x : string) : has_slash x = false -> Strings.Split x "/" = [x].
Proof.
  induction x as [|c x IH]; [done |]. cbn [has_slash Strings.Split].
  intros [Hc Hx]%orb_false_iff. rewrite Hc, IH by done. done.
Qed.

Lemma path_element_inv (x : string) :
  path_element x = true ->
  x <> "" /\ x <> "." /\ x <> ".." /\ has_slash x = false.
Proof.
  unfold path_element. rewrite !andb_true_iff, !negb_true_iff.
  intros [[[H1%bool_decide_eq_false H2%bool_decide_eq_false]
             H3%bool_decide_eq_false] H4].
  done.
Qed.

Lemma step_element (dir : list string) (x : string) :
  path_element x = true -> Path.step dir x = x :: dir.
Proof.
  intros (H1 & H2 & H3 & _)%path_element_inv. unfold Path.step.
  rewrite bool_decide_eq_false_2 by (intros [? | ?]; done).
  by rewrite bool_decide_eq_false_2.
Qed.

Example resolve_relative :
  Path.resolve ["home"; "interlink"] "dir/abc/x" = Some ["home"; "interlink"; "dir"; "abc"; "x"].
Proof. reflexivity. Qed.

Example resolve_absolute :
  Path.resolve ["home"; "interlink"] "/var/jobs" = Some ["var"; "jobs"].
Proof. reflexivity. Qed.

Example resolve_trailing_slash :
  Path.resolve ["home"; "interlink"] "dir/" = Path.resolve ["home"; "interlink"] "dir".
Proof. reflexivity. Qed.

Example resolve_double_slash :
  Path.resolve ["home"; "interlink"] "dir//abc" = Path.resolve ["home"; "interlink"] "dir/abc".
Proof. reflexivity. Qed.

Example resolve_dot_dot :
  Path.resolve ["home"; "interlink"] "dir/./abc/../.." = Some ["home"; "interlink"].
Proof. reflexivity. Qed.

Example resolve_empty : Path.resolve ["home"; "interlink"] "" = None.
Proof. reflexivity. Qed.

Example endsWithDot_cases :
  Path.endsWithDot "." = true /\ Path.endsWithDot "dir/." = true
  /\ Path.endsWithDot "dir/.." = false /\ Path.endsWithDot "dir/" = false
  /\ Path.endsWithDot "dir/a." = false.
Proof. repeat split; reflexivity. Qed.

(** The place of [path/x], for a plain element [x], is the child [x] of the
    place of [path]; with the empty [path] it is the child [x] of the
    root. *)
Lemma resolve_child (cwd : list string) (path x : string) :
  path_element x = true ->
  Path.resolve cwd (path +:+ "/" +:+ x)
  = Some (default [] (Path.resolve cwd path) ++ [x]).
Proof.
  intros Hx. pose proof (path_element_inv x Hx) as (_ & _ & _ & Hs).
  unfold Path.resolve.
  change ("/" +:+ x) with (String "/" x).
  rewrite (bool_decide_eq_false_2 (path +:+ String "/" x = "")) by (by destruct path).
  rewrite Split_app, foldl_app, (Split_plain x) by done.
  cbn [foldl]. rewrite step_element by done. cbn [rev]. f_equal.
  destruct path as [|c path].
  - rewrite bool_decide_eq_true_2 by done.
    change ("" +:+ String "/" x) with (String "/" x).
    cbn [Strings.HasPrefix]. by rewrite byte_eqb_refl, HasPrefix_empty.
  - rewrite bool_decide_eq_false_2 by done. rewrite string_app_cons.
    cbn [Strings.HasPrefix]. by rewrite !HasPrefix_empty.
Qed.

Lemma is_prefix_app (b a c : list string) :
  Path.is_prefix (b ++ a) (b ++ c) = Path.is_prefix a c.
Proof.
  induction b as [|x b IH]; [done |]. cbn [app Path.is_prefix].
  by rewrite bool_decide_eq_true_2.
Qed.

Lemma is_prefix_child (b : list string) (x : string) :
  Path.is_prefix (b ++ [x]) b = false.
Proof.
  rewrite <- (app_nil_r b) at 2. by rewrite is_prefix_app.
Qed.

(** The supplied path is neither the removed tree nor inside it. *)
Lemma under_child_not_parent (cwd : list string) (path podUID : string) :
  path_element podUID = true ->
  Path.under cwd (path +:+ "/" +:+ podUID) path = false.
Proof.
  intros Hx. unfold Path.under. rewrite resolve_child by done.
  destruct (Path.resolve cwd path) as [b|]; [| done].
  apply is_prefix_child.
Qed.

(** Nor is any other child of the supplied path. *)
Lemma under_child_not_sibling (cwd : list string) (path podUID child : string) :
  path_element podUID = true -> path_element child = true -> child <> podUID ->
  Path.under cwd (path +:+ "/" +:+ podUID) (path +:+ "/" +:+ child) = false.
Proof.
  intros Hu Hc Hne. unfold Path.under. rewrite !resolve_child by done.
  rewrite is_prefix_app. cbn [Path.is_prefix].
  by rewrite bool_decide_eq_false_2.
Qed.

Lemma HasSuffix_slash (s suffix : string) :
  Strings.HasSuffix s suffix = true -> has_slash suffix = true -> has_slash s = true.
Proof.
  intros H Hs. induction s as [|c s IH]; cbn [Strings.HasSuffix] in H.
  - rewrite orb_false_r in H. apply bool_decide_eq_true in H. by subst.
  - apply orb_true_iff in H as [H | H].
    + apply bool_decide_eq_true in H. by subst.
    + cbn [has_slash]. rewrite IH by done. apply orb_true_r.
Qed.

Lemma child_not_dot (path x : string) : x <> "" -> path +:+ String "/" x <> ".".
Proof.
  intros Hx H. apply (f_equal String.length) in H. rewrite string_app_length in H.
  destruct x; [done | simpl in H; lia].
Qed.

Lemma endsWithDot_child (path x : string) :
  path_element x = true -> Path.endsWithDot (path +:+ "/" +:+ x) = false.
Proof.
  intros (H1 & H2 & _ & Hs)%path_element_inv. unfold Path.endsWithDot.
  change ("/" +:+ x) with (String "/" x).
  apply orb_false_iff. split.
  - apply bool_decide_eq_false. by apply child_not_dot.
  - induction path as [|c path IH].
    + change ("" +:+ String "/" x) with (String "/" x). cbn [Strings.HasSuffix].
      apply orb_false_iff. split.
      * apply bool_decide_eq_false. intros [= ->]. done.
      * destruct (Strings.HasSuffix x "/.") eqn:E; [| done].
        apply HasSuffix_slash in E; [congruence | done].
    + rewrite string_app_cons. cbn [Strings.HasSuffix]. rewrite IH.
      rewrite orb_false_r. apply bool_decide_eq_false.
      intros [= _ H]. by apply child_not_dot in H.
Qed.

(** ** Removing a tree *)

Lemma RemoveAll_files_lookup (cwd : list string) (path : string) (stays : string -> bool)
    (fs : gmap string string) (name : string) :
  RemoveAll_files cwd path stays fs !! name
  = if Path.under cwd path name && negb (stays name) then None else fs !! name.
Proof.
  unfold RemoveAll_files.
  destruct (Path.under cwd path name) eqn:E, (stays name) eqn:F; simpl.
  - destruct (fs !! name) as [x|] eqn:G.
    + apply map_lookup_filter_Some. split; [done |]. simpl. by right.
    + apply map_lookup_filter_None. by left.
  - apply map_lookup_filter_None. right. intros x _. simpl. rewrite E, F.
    by intros [? | ?].
  - destruct (fs !! name) as [x|] eqn:G.
    + apply map_lookup_filter_Some. split; [done |]. simpl. by left.
    + apply map_lookup_filter_None. by left.
  - destruct (fs !! name) as [x|] eqn:G.
    + apply map_lookup_filter_Some. split; [done |]. simpl. by left.
    + apply map_lookup_filter_None. by left.
Qed.

Lemma removal_refl (cwd : list string) (path : string) (w : World) : removal cwd path w w.
Proof.
  unfold removal. repeat split. intros name.
  destruct (Path.under cwd path name); [by right | done].
Qed.

Lemma removal_set_files (cwd : list string) (path : string) (stays : string -> bool)
    (w : World) :
  removal cwd path w (set_files (RemoveAll_files cwd path stays (files w)) (bump w)).
Proof.
  unfold removal. repeat split. intros name. cbn [files set_files bump].
  rewrite RemoveAll_files_lookup.
  destruct (Path.under cwd path name), (stays name); simpl; auto.
Qed.

(** [os.RemoveAll] with its error dropped, as every caller has it: the call
    goes on in a world where part of the tree, and nothing else, may be
    gone; all of the tree is gone when the path does not end in a dot
    element and the system lets the removal through. *)
Lemma os_RemoveAll_dropped (env : Environment) (path : string) (w : World) :
  exists r w',
    try (os_RemoveAll env path) w = Ok r w'
    /\ removal (Getwd env) path w w'
    /\ (Path.endsWithDot path = false ->
        fault env (tick w) (sys_RemoveAll path) = None ->
        forall name, Path.under (Getwd env) path name = true -> files w' !! name = None).
Proof.
  unfold try, os_RemoveAll. case_bool_decide as Hp.
  { eexists _, w. split; [reflexivity |]. split; [apply removal_refl |].
    intros _ _ name. subst path. unfold Path.under, Path.resolve.
    by rewrite bool_decide_eq_true_2. }
  destruct (Path.endsWithDot path).
  { eexists _, w. split; [reflexivity |]. split; [apply removal_refl | done]. }
  destruct (fault env (tick w) (sys_RemoveAll path)) as [e|].
  - eexists _, _. split; [reflexivity |]. split; [apply removal_set_files | done].
  - eexists _, _. split; [reflexivity |]. split; [apply removal_set_files |].
    intros _ _ name Hu. cbn [files set_files]. by rewrite RemoveAll_files_lookup, Hu.
Qed.

Lemma removal_no_new_file (cwd : list string) (path name : string) (w w' : World) :
  removal cwd path w w' -> files w !! name = None -> files w' !! name = None.
Proof.
  intros (_ & _ & _ & _ & _ & H) Hn. specialize (H name).
  destruct (Path.under cwd path name); [destruct H |]; congruence.
Qed.

(** ** Deleting *)

(** C6: when scancel returns an error, [deleteContainer] returns that error
    and the registry still maps the pod UID to its record; neither the
    registry nor the files have changed. *)
Theorem deleteContainer_scancel_error (env : Environment) (Config : commonIL.InterLinkConfig)
    (podUID path : string) (w : World) (r : JidStruct) (res : ExecResult) (e : error) :
  JIDs w !! podUID = Some r ->
  Execute env (tick w) (commonIL.Scancelpath Config) [JID r] = (res, Some e) ->
  exists w',
    deleteContainer env podUID path Config w = Err e w'
    /\ JIDs w' !! podUID = Some r
    /\ JIDs w' = JIDs w
    /\ files w' = files w.
Proof.
  intros Hr He. unfold deleteContainer, deref_JID, shell_Execute. run.
  rewrite Hr, He. simpl. eauto.
Qed.

Lemma deleteContainer_scancel_error_witness :
  exists w',
    deleteContainer (Sample.answering (Sample.out "" "", Some "exit status 1") [])
      "abc" "dir" Sample.config (Sample.registered "77") = Err "exit status 1" w'
    /\ JIDs w' !! "abc" = Some (Sample.record "77")
    /\ JIDs w' = JIDs (Sample.registered "77")
    /\ files w' = files (Sample.registered "77").
Proof.
  apply (deleteContainer_scancel_error
           (Sample.answering (Sample.out "" "", Some "exit status 1") [])
           Sample.config "abc" "dir" (Sample.registered "77") (Sample.record "77")
           (Sample.out "" "") "exit status 1"); reflexivity.
Defined.

(** A [deleteContainer] that finds the record and whose scancel reports no
    error: it returns nil whatever becomes of the removal, the entry is
    evicted, scancel is the one command run, and the files are those that
    the removal of [path/podUID] has left. *)
Lemma deleteContainer_run (env : Environment) (Config : commonIL.InterLinkConfig)
    (podUID path : string) (w : World) (r : JidStruct) (res : ExecResult) :
  JIDs w !! podUID = Some r ->
  Execute env (tick w) (commonIL.Scancelpath Config) [JID r] = (res, None) ->
  exists w0 w',
    deleteContainer env podUID path Config w = Ok tt w'
    /\ removal (Getwd env) (path +:+ "/" +:+ podUID)
         (log_exec (commonIL.Scancelpath Config) [JID r] (bump w)) w0
    /\ w' = set_JIDs (delete podUID (JIDs w0)) w0
    /\ (Path.endsWithDot (path +:+ "/" +:+ podUID) = false ->
        fault env (S (tick w)) (sys_RemoveAll (path +:+ "/" +:+ podUID)) = None ->
        forall name, Path.under (Getwd env) (path +:+ "/" +:+ podUID) name = true ->
                     files w0 !! name = None).
Proof.
  intros Hr He.
  destruct (os_RemoveAll_dropped env (path +:+ "/" +:+ podUID)
              (log_exec (commonIL.Scancelpath Config) [JID r] (bump w)))
    as (r0 & w0 & E & Hrem & Hall).
  exists w0. eexists. unfold deleteContainer.
  unfold mbind at 1, M_bind at 1, deref_JID at 1. rewrite Hr.
  unfold mbind at 1, M_bind at 1, shell_Execute at 1. rewrite He.
  unfold mbind at 1, M_bind at 1, deref_JID at 1. cbn [JIDs log_exec bump]. rewrite Hr.
  unfold mbind at 1, M_bind at 1. rewrite E.
  unfold removeJID, modify. split; [reflexivity |]. split; [exact Hrem |].
  split; [reflexivity | exact Hall].
Qed.

(** C10 as amended: a [deleteContainer] that succeeds for a pod UID that is
    one plain path element removes inside the tree at [path/podUID], the
    child named after the pod UID of the place of the supplied path, and
    nowhere else: every file outside that tree is as before, a file of the
    tree is gone or as before, and all of them are gone when the system lets
    the removal through (its error is dropped, so the call succeeds either
    way).  The supplied path and its other children are outside the tree,
    and the registry has lost the entry of the pod. *)
Theorem deleteContainer_removes_child (env : Environment) (Config : commonIL.InterLinkConfig)
    (podUID path : string) (w : World) (r : JidStruct) (res : ExecResult) :
  path_element podUID = true ->
  JIDs w !! podUID = Some r ->
  Execute env (tick w) (commonIL.Scancelpath Config) [JID r] = (res, None) ->
  exists w',
    deleteContainer env podUID path Config w = Ok tt w'
    /\ Path.resolve (Getwd env) (path +:+ "/" +:+ podUID)
       = Some (default [] (Path.resolve (Getwd env) path) ++ [podUID])
    /\ JIDs w' = delete podUID (JIDs w)
    /\ JIDs w' !! podUID = None
    /\ (forall name,
          Path.under (Getwd env) (path +:+ "/" +:+ podUID) name = false ->
          files w' !! name = files w !! name)
    /\ (forall name,
          Path.under (Getwd env) (path +:+ "/" +:+ podUID) name = true ->
          files w' !! name = None \/ files w' !! name = files w !! name)
    /\ (fault env (S (tick w)) (sys_RemoveAll (path +:+ "/" +:+ podUID)) = None ->
        forall name,
          Path.under (Getwd env) (path +:+ "/" +:+ podUID) name = true ->
          files w' !! name = None)
    /\ Path.under (Getwd env) (path +:+ "/" +:+ podUID) path = false
    /\ (forall child, path_element child = true -> child <> podUID ->
          Path.under (Getwd env) (path +:+ "/" +:+ podUID) (path +:+ "/" +:+ child) = false
          /\ files w' !! (path +:+ "/" +:+ child) = files w !! (path +:+ "/" +:+ child)).
Proof.
  intros Hu Hr He.
  destruct (deleteContainer_run env Config podUID path w r res Hr He)
    as (w0 & w' & E & (HJ & _ & _ & _ & _ & Hf) & -> & Hall).
  eexists. split; [exact E |]. cbn [JIDs files set_JIDs].
  assert (Hout : forall name,
             Path.under (Getwd env) (path +:+ "/" +:+ podUID) name = false ->
             files w0 !! name = files w !! name).
  { intros name Hn. specialize (Hf name). by rewrite Hn in Hf. }
  split; [by apply resolve_child |].
  split; [by rewrite HJ |]. split; [apply lookup_delete_eq |].
  split; [exact Hout |]. split.
  { intros name Hn. specialize (Hf name). by rewrite Hn in Hf. }
  split; [intros Hok; apply Hall; [by apply endsWithDot_child | exact Hok] |].
  split; [by apply under_child_not_parent |].
  intros child Hc Hne.
  pose proof (under_child_not_sibling (Getwd env) path podUID child Hu Hc Hne) as Hs.
  split; [exact Hs | by apply Hout].
Qed.

Lemma deleteContainer_removes_child_witness :
  exists w',
    deleteContainer (Sample.answering (Sample.out "" "", None) [])
      "abc" "dir" Sample.config
      (set_files {["dir/job.sh" := "#!"; "dir/abc/x" := "1"]} (Sample.registered "77"))
    = Ok tt w'
    /\ JIDs w' !! "abc" = None
    /\ files w' !! "dir/abc/x" = None
    /\ files w' !! "dir/job.sh" = Some "#!".
Proof.
  destruct (deleteContainer_removes_child
              (Sample.answering (Sample.out "" "", None) []) Sample.config "abc" "dir"
              (set_files {["dir/job.sh" := "#!"; "dir/abc/x" := "1"]} (Sample.registered "77"))
              (Sample.record "77") (Sample.out "" "") eq_refl eq_refl eq_refl)
    as (w' & H & _ & _ & HJ & _ & _ & Hin & _ & Hc).
  exists w'. split; [exact H |]. split; [exact HJ |]. split.
  - apply Hin; reflexivity.
  - etrans; [apply (Hc "job.sh"); [reflexivity | discriminate] | reflexivity].
Defined.

(** C10 as stated fails for the empty pod UID, which [deleteContainer]
    accepts like any other key of the registry: the tree it removes is then
    the supplied path itself, [dir/] being the place of [dir].  The files
    directly in [dir] and those of its children are gone. *)
Lemma deleteContainer_empty_uid_removes_path :
  exists w',
    deleteContainer (Sample.answering (Sample.out "" "", None) [])
      "" "dir" Sample.config
      (set_files {["dir/job.sh" := "#!"; "dir/abc/x" := "1"; "other/y" := "2"]}
         (set_JIDs {["" := Cases.record_of "" "77"]} Sample.world))
    = Ok tt w'
    /\ Path.under ["home"; "interlink"] ("dir" +:+ "/" +:+ "") "dir" = true
    /\ files w' !! "dir/job.sh" = None
    /\ files w' !! "dir/abc/x" = None
    /\ files w' !! "other/y" = Some "2"
    /\ JIDs w' !! "" = None.
Proof. eexists. repeat split; vm_compute; reflexivity. Qed.

(** ** What a call leaves as it is *)

Section Keeps.

Variable R : World -> World -> Prop.
Hypothesis R_refl : forall w, R w w.
Hypothesis R_trans : forall a b c, R a b -> R b c -> R a c.

Lemma keeps_ret {A} (a : A) : keeps R (mret a).
Proof. intros w. apply R_refl. Qed.

Lemma keeps_fail {A} (e : error) : keeps R (@fail A e).
Proof. intros w. apply R_refl. Qed.

Lemma keeps_panic {A} : keeps R (@panic A).
Proof. intros w. apply R_refl. Qed.

Lemma keeps_get : keeps R get.
Proof. intros w. apply R_refl. Qed.

Lemma keeps_bind {A B} (m : M A) (f : A -> M B) :
  keeps R m -> (forall a, keeps R (f a)) -> keeps R (mbind f m).
Proof.
  intros Hm Hf w. unfold mbind, M_bind. specialize (Hm w).
  destruct (m w) as [a w1 | e w1 | w1]; simpl in *; [| done | done].
  eapply R_trans; [exact Hm | apply Hf].
Qed.

Lemma keeps_try {A} (m : M A) : keeps R m -> keeps R (try m).
Proof.
  intros Hm w. unfold try. specialize (Hm w). by destruct (m w).
Qed.

Lemma keeps_index {A} (s : list A) (i : nat) : keeps R (index s i).
Proof. unfold index. destruct (s !! i); [apply keeps_ret | apply keeps_panic]. Qed.

Lemma keeps_deref_JID (podUID : string) : keeps R (deref_JID podUID).
Proof. intros w. unfold deref_JID. destruct (JIDs w !! podUID); apply R_refl. Qed.

Lemma keeps_for_range_flow {A S} (body : S -> A -> M (flow S)) (l : list A) (s : S) :
  (forall s x, keeps R (body s x)) -> keeps R (for_range_flow body l s).
Proof.
  intros Hb. revert s. induction l as [|x l IH]; intros s; simpl.
  - apply keeps_ret.
  - apply keeps_bind; [apply Hb |]. intros [s' | rw]; [apply IH | apply keeps_ret].
Qed.

Lemma keeps_for_range {A} (body : A -> M unit) (l : list A) :
  (forall x, keeps R (body x)) -> keeps R (for_range body l).
Proof.
  intros Hb. induction l as [|x l IH]; simpl.
  - apply keeps_ret.
  - apply keeps_bind; [apply Hb | intros _; apply IH].
Qed.

Lemma keeps_modify (f : World -> World) :
  (forall w, R w (f w)) -> keeps R (modify f).
Proof. intros H w. apply H. Qed.

End Keeps.

Lemma steady_refl (w : World) : steady w w.
Proof. by unfold steady. Qed.

Lemma steady_trans (a b c : World) : steady a b -> steady b c -> steady a c.
Proof. unfold steady. intros (-> & -> & ->) (-> & -> & ->). done. Qed.

Lemma same_files_refl (w : World) : same_files w w.
Proof. done. Qed.

Lemma same_files_trans (a b c : World) : same_files a b -> same_files b c -> same_files a c.
Proof. unfold same_files. congruence. Qed.

Create HintDb keeps.

#[local] Hint Resolve steady_refl steady_trans same_files_refl same_files_trans : keeps.
#[local] Hint Resolve keeps_ret keeps_fail keeps_panic keeps_get keeps_index
  keeps_deref_JID keeps_try : keeps.

(** One step through the structure of a monadic term. *)
Ltac keeps_step :=
  lazymatch goal with
  | |- keeps _ (mbind _ _) => eapply keeps_bind; [eauto with keeps | | intros]
  | |- keeps _ (mret _) => eapply keeps_ret; eauto with keeps
  | |- keeps _ (try _) => eapply keeps_try; eauto with keeps
  | |- keeps _ (if ?b then _ else _) => destruct b
  | |- keeps _ (match ?x with _ => _ end) => destruct x
  | |- keeps _ _ => solve [eauto with keeps]
  end.

Section SteadyPrimitives.

Variable env : Environment.

Lemma steady_ask (c : syscall) : keeps steady (ask env c).
Proof. intros w. unfold ask. by destruct (fault env (tick w) c). Qed.

Lemma steady_time_Now : keeps steady (time_Now env).
Proof. by intros w. Qed.

Lemma steady_shell_Execute (c : string) (args : list string) :
  keeps steady (shell_Execute env c args).
Proof. by intros w. Qed.

Lemma steady_set_files (f : World -> gmap string string) :
  keeps steady (modify (fun w => set_files (f w) w)).
Proof. by intros w. Qed.

Lemma steady_alter (g : JidStruct -> JidStruct) (uid : string) :
  keeps steady (modify (fun w => set_JIDs (alter g uid (JIDs w)) w)).
Proof. intros w. unfold steady. simpl. by rewrite dom_alter_L. Qed.

Hint Resolve steady_ask steady_set_files : keeps.

Lemma steady_os_Create (name : string) : keeps steady (os_Create env name).
Proof. unfold os_Create. repeat keeps_step. Qed.

Lemma steady_WriteString (f s : string) : keeps steady (WriteString env f s).
Proof. unfold WriteString. repeat keeps_step. Qed.

Lemma steady_os_Open (name : string) : keeps steady (os_Open env name).
Proof. unfold os_Open. repeat keeps_step. Qed.

Lemma steady_io_ReadAll (f : string) : keeps steady (io_ReadAll env f).
Proof. unfold io_ReadAll. repeat keeps_step. Qed.

End SteadyPrimitives.

#[local] Hint Resolve steady_ask steady_time_Now steady_shell_Execute steady_set_files
  steady_alter steady_os_Create steady_WriteString steady_os_Open steady_io_ReadAll : keeps.

Section SteadyStatus.

Variable env : Environment.
Variable ext : Externals.
Variable Config : commonIL.InterLinkConfig.

Lemma steady_Status_exit_code (path : string)
    (st : Z * http.ResponseWriter * list v1.ContainerStatus) (ct : v1.Container) :
  keeps steady (Status_exit_code env path st ct).
Proof.
  destruct st as [[sc rw] acc]. unfold Status_exit_code. repeat keeps_step.
Qed.

Lemma steady_Status_branchB (pod : v1.Pod) (path : string) (l : Local) :
  keeps steady (Status_branchB env pod path l).
Proof.
  unfold Status_branchB. eapply keeps_bind; eauto with keeps.
  - apply keeps_for_range_flow; eauto with keeps.
    intros. apply steady_Status_exit_code.
  - intros [[[sc rw] acc] | rw]; eauto with keeps.
Qed.

Lemma steady_stamp_end (uid path : string) (l : Local) :
  keeps steady (stamp_end env ext uid path l).
Proof. unfold stamp_end. repeat keeps_step. Qed.

Lemma steady_stamp_start (uid path : string) (l : Local) :
  keeps steady (stamp_start env ext uid path l).
Proof. unfold stamp_start. repeat keeps_step. Qed.

Hint Resolve steady_stamp_end steady_stamp_start : keeps.

Lemma steady_Status_branchA (pod : v1.Pod) (uid path stdout : string) (l : Local) :
  keeps steady (Status_branchA env ext pod uid path stdout l).
Proof.
  unfold Status_branchA, Status_terminated, Status_running, Status_waiting.
  repeat keeps_step.
Qed.

(** Answering one pod changes neither the rate-limit variables nor the keys
    of the registry. *)
Lemma steady_Status_pod (l : Local) (pod : v1.Pod) :
  keeps steady (Status_pod env ext Config l pod).
Proof.
  unfold Status_pod. eapply keeps_bind; eauto with keeps. intros r.
  eapply keeps_bind; eauto with keeps. intros [execReturn err].
  eapply keeps_bind; eauto with keeps. intros now.
  case_bool_decide; [apply steady_Status_branchB | apply steady_Status_branchA].
Qed.

Lemma steady_Status_pods (req : list v1.Pod) (l : Local) :
  keeps steady (for_range_flow (Status_pod env ext Config) req l).
Proof.
  apply keeps_for_range_flow; eauto with keeps. apply steady_Status_pod.
Qed.

End SteadyStatus.

(** ** The status poll: pods without a registry entry *)

Lemma for_range_flow_app {A S} (body : S -> A -> M (flow S)) (pre rest : list A)
    (s : S) (w : World) :
  for_range_flow body (pre ++ rest) s w =
    match for_range_flow body pre s w with
    | Ok (Next s') w' => for_range_flow body rest s' w'
    | Ok (Return rw) w' => Ok (Return rw) w'
    | Err e w' => Err e w'
    | Panic w' => Panic w'
    end.
Proof.
  revert s w. induction pre as [|x pre IH]; intros s w; [done |].
  cbn [app for_range_flow]. unfold mbind, M_bind.
  destruct (body s x w) as [[s' | rw] w' | e w' | w']; [apply IH | done ..].
Qed.

Lemma for_range_flow_cons {A S} (body : S -> A -> M (flow S)) (x : A) (l : list A)
    (s : S) (w : World) :
  for_range_flow body (x :: l) s w =
    match body s x w with
    | Ok (Next s') w' => for_range_flow body l s' w'
    | Ok (Return rw) w' => Ok (Return rw) w'
    | Err e w' => Err e w'
    | Panic w' => Panic w'
    end.
Proof.
  cbn [for_range_flow]. unfold mbind, M_bind.
  by destruct (body s x w) as [[s' | rw] w' | e w' | w'].
Qed.

(** The lookup of a pod that is not in the registry yields nil, and the
    first read through it panics before squeue is run for the pod. *)
Lemma Status_pod_unregistered (env : Environment) (ext : Externals)
    (Config : commonIL.InterLinkConfig) (l : Local) (pod : v1.Pod) (w : World) :
  JIDs w !! v1.UID pod = None ->
  Status_pod env ext Config l pod w = Panic w.
Proof.
  intros H. unfold Status_pod, mbind, M_bind, deref_JID. by rewrite H.
Qed.

(** C9: in a poll cycle (the rate limit has expired, the request decodes,
    [squeue --me] reports nothing on stderr) that reaches a pod whose UID
    has no registry entry, the pods before it having been answered, the
    handler panics at that pod: it neither returns an error response nor
    answers the pods that follow. *)
Theorem StatusHandler_unregistered_pod_panics (env : Environment) (ext : Externals)
    (Config : commonIL.InterLinkConfig) (pre post : list v1.Pod) (pod : v1.Pod)
    (w w1 : World) (l1 : Local) :
  time.Second * 10 <= time.Sub (Now env (tick w)) (timer w) ->
  Stderr (Execute env (S (tick w)) "squeue" ["--me"]).1 = "" ->
  JIDs w !! v1.UID pod = None ->
  for_range_flow (Status_pod env ext Config) pre
    {| statusCode := http.StatusOK; writer := http.fresh; resp := [];
       timeNow := Now env (tick w) |}
    (log_exec "squeue" ["--me"] (bump (bump w))) = Ok (Next l1) w1 ->
  StatusHandler env ext Config (http.Decoded (pre ++ pod :: post)) w = Panic w1.
Proof.
  intros Ht Hq Hu Hpre.
  assert (Hu1 : JIDs w1 !! v1.UID pod = None).
  { pose proof (steady_Status_pods env ext Config pre
                  {| statusCode := http.StatusOK; writer := http.fresh; resp := [];
                     timeNow := Now env (tick w) |}
                  (log_exec "squeue" ["--me"] (bump (bump w)))) as Hs.
    unfold final in Hs. rewrite Hpre in Hs. destruct Hs as (_ & _ & Hd).
    apply not_elem_of_dom. rewrite Hd. simpl. by apply not_elem_of_dom. }
  unfold StatusHandler, time_Now, get, mbind, M_bind. cbn [timeNow timer bump tick].
  apply Z.leb_le in Ht. rewrite Ht.
  unfold Status_cycle, shell_Execute, mbind, M_bind. cbn [tick bump].
  destruct (Execute env (S (tick w)) "squeue" ["--me"]) as [execReturn err].
  simpl in Hq. rewrite Hq. rewrite bool_decide_eq_false_2 by (intros H; by apply H).
  cbn [writer statusCode resp timeNow].
  rewrite for_range_flow_app, Hpre. cbn [for_range_flow]. unfold mbind, M_bind.
  by rewrite Status_pod_unregistered.
Qed.

Lemma StatusHandler_unregistered_pod_panics_witness :
  StatusHandler Sample.job_gone Sample.ext Sample.config
    (http.Decoded ([] ++ Sample.pod ∅ [Sample.container "ubuntu" []] :: []))
    Sample.world
  = Panic (log_exec "squeue" ["--me"] (bump (bump Sample.world))).
Proof.
  apply (StatusHandler_unregistered_pod_panics Sample.job_gone Sample.ext Sample.config
           [] [] (Sample.pod ∅ [Sample.container "ubuntu" []]) Sample.world _
           {| statusCode := http.StatusOK; writer := http.fresh; resp := [];
              timeNow := Now Sample.job_gone (tick Sample.world) |}).
  - vm_compute. discriminate.
  - reflexivity.
  - reflexivity.
  - reflexivity.
Defined.

(** ** The status poll: what is written to the response *)

Lemma status_respond (code : Z) (msg : string) (rw : http.ResponseWriter) :
  http.status (respond code msg rw) = Some (default code (http.status rw)).
Proof.
  unfold respond, http.Write, http.WriteHeader.
  destruct (http.status rw) eqn:E; simpl; [by rewrite E | done].
Qed.

Lemma body_respond (code : Z) (msg : string) (rw : http.ResponseWriter) :
  http.body (respond code msg rw) = http.body rw ++ [http.Text msg].
Proof.
  unfold respond, http.Write, http.WriteHeader. by destruct (http.status rw).
Qed.

Lemma respond_failed (msg : string) (rw : http.ResponseWriter) :
  rw = http.fresh \/ failed rw -> failed (respond 500 msg rw).
Proof.
  intros H. unfold failed. rewrite status_respond, body_respond, forallb_app.
  destruct H as [-> | [-> ->]]; done.
Qed.

Lemma code_ok_writer (sc : Z) (rw : http.ResponseWriter) :
  code_ok sc rw -> rw = http.fresh \/ failed rw.
Proof. intros [[_ H] | [_ H]]; [by left | by right]. Qed.

Lemma code_ok_respond (sc : Z) (msg : string) (rw : http.ResponseWriter) :
  code_ok sc rw -> failed (respond http.StatusInternalServerError msg rw).
Proof. intros H. by apply respond_failed, (code_ok_writer sc). Qed.

Section Post.

Lemma post_ret {A} (a : A) (Q : A -> Prop) : Q a -> post (mret a) Q.
Proof. intros H w. exact H. Qed.

Lemma post_any {A} (m : M A) : post m (fun _ => True).
Proof. intros w. by destruct (m w). Qed.

Lemma post_bind {A B} (m : M A) (f : A -> M B) (P : A -> Prop) (Q : B -> Prop) :
  post m P -> (forall a, P a -> post (f a) Q) -> post (mbind f m) Q.
Proof.
  intros Hm Hf w. unfold mbind, M_bind. specialize (Hm w).
  destruct (m w) as [a w1 | e w1 | w1]; [| done | done].
  apply (Hf a Hm w1).
Qed.

Lemma post_for_range_flow {A S} (body : S -> A -> M (flow S)) (I : S -> Prop)
    (R : http.ResponseWriter -> Prop) (l : list A) (s : S) :
  (forall s x, I s -> post (body s x) (flow_ok I R)) ->
  I s -> post (for_range_flow body l s) (flow_ok I R).
Proof.
  intros Hb. revert s. induction l as [|x l IH]; intros s Hs; simpl.
  - by apply post_ret.
  - eapply post_bind; [by apply Hb |].
    intros [s' | rw] H; [by apply IH | by apply post_ret].
Qed.

End Post.

(** One step through a monadic term whose intermediate values do not
    matter. *)
Ltac post_step :=
  lazymatch goal with
  | |- post (mbind _ _) _ => eapply post_bind; [apply post_any | intros ? _]
  | |- post (mret _) _ => apply post_ret
  | |- post (if ?b then _ else _) _ => destruct b
  | |- post (match ?x with _ => _ end) _ => destruct x
  end.

Section PostStatus.

Variable env : Environment.
Variable ext : Externals.
Variable Config : commonIL.InterLinkConfig.

Lemma post_Status_exit_code (path : string)
    (st : Z * http.ResponseWriter * list v1.ContainerStatus) (ct : v1.Container) :
  code_ok st.1.1 st.1.2 ->
  post (Status_exit_code env path st ct) (flow_ok (fun st' => code_ok st'.1.1 st'.1.2) failed).
Proof.
  destruct st as [[sc rw] acc]. cbn [fst snd]. intros H. unfold Status_exit_code.
  post_step. post_step; [post_step; by eapply code_ok_respond |].
  post_step. post_step; [post_step; by eapply code_ok_respond |].
  destruct (Strings.Atoi _); post_step; cbn [flow_ok fst snd]; [exact H |].
  right. split; [done | by eapply code_ok_respond].
Qed.

Lemma post_Status_branchB (pod : v1.Pod) (path : string) (l : Local) :
  Local_ok l -> post (Status_branchB env pod path l) (flow_ok Local_ok failed).
Proof.
  intros H. unfold Status_branchB.
  eapply post_bind.
  { apply (post_for_range_flow _ (fun st => code_ok st.1.1 st.1.2) failed);
      [intros; by apply post_Status_exit_code | exact H]. }
  intros [[[sc rw] acc] | rw] Hf; apply post_ret; exact Hf.
Qed.

Lemma post_stamp_end (uid path : string) (l : Local) :
  Local_ok l -> post (stamp_end env ext uid path l) (flow_ok (fun _ => True) failed).
Proof.
  intros H. unfold stamp_end. repeat post_step; cbn [flow_ok]; try done.
  by eapply code_ok_respond.
Qed.

Lemma post_stamp_start (uid path : string) (l : Local) :
  Local_ok l -> post (stamp_start env ext uid path l) (flow_ok (fun _ => True) failed).
Proof.
  intros H. unfold stamp_start. repeat post_step; cbn [flow_ok]; try done.
  by eapply code_ok_respond.
Qed.

Lemma post_Status_terminated (pod : v1.Pod) (uid path : string) (l : Local) :
  Local_ok l -> post (Status_terminated env ext pod uid path l) (flow_ok Local_ok failed).
Proof.
  intros H. unfold Status_terminated.
  eapply post_bind; [by apply post_stamp_end |].
  intros [[] | rw] Hf; repeat post_step; [exact H | exact Hf].
Qed.

Lemma post_Status_running (pod : v1.Pod) (uid path : string) (l : Local) :
  Local_ok l -> post (Status_running env ext pod uid path l) (flow_ok Local_ok failed).
Proof.
  intros H. unfold Status_running.
  eapply post_bind; [by apply post_stamp_start |].
  intros [[] | rw] Hf; repeat post_step; [exact H | exact Hf].
Qed.

Lemma post_Status_waiting (pod : v1.Pod) (l : Local) :
  Local_ok l -> post (Status_waiting pod l) (flow_ok Local_ok failed).
Proof. intros H. unfold Status_waiting. repeat post_step. exact H. Qed.

Lemma post_Status_branchA (pod : v1.Pod) (uid path stdout : string) (l : Local) :
  Local_ok l -> post (Status_branchA env ext pod uid path stdout l) (flow_ok Local_ok failed).
Proof.
  intros H. unfold Status_branchA. post_step.
  repeat case_bool_decide;
    first [ by apply post_Status_terminated
          | by apply post_Status_running
          | by apply post_Status_waiting ].
Qed.

(** Answering one pod keeps the status code and the response together, and
    a handler that returns at a pod returns a failed response. *)
Lemma post_Status_pod (l : Local) (pod : v1.Pod) :
  Local_ok l -> post (Status_pod env ext Config l pod) (flow_ok Local_ok failed).
Proof.
  intros H. unfold Status_pod. post_step.
  eapply post_bind; [apply post_any |]. intros [execReturn err] _.
  post_step. case_bool_decide; [by apply post_Status_branchB | by apply post_Status_branchA].
Qed.

Lemma post_Status_pods (req : list v1.Pod) (l : Local) :
  Local_ok l -> post (for_range_flow (Status_pod env ext Config) req l) (flow_ok Local_ok failed).
Proof.
  intros H. apply post_for_range_flow; [| exact H].
  intros. by apply post_Status_pod.
Qed.

Lemma grows_refl (l : Local) : grows l l.
Proof. split; [exists []; by rewrite app_nil_r | done]. Qed.

Lemma grows_add_resp (l0 l : Local) (ps : commonIL.PodStatus) :
  grows l0 l -> grows l0 (add_resp ps l).
Proof.
  intros [[more Hm] Hc]. split; [| exact Hc].
  exists (more ++ [ps]). cbn [resp add_resp]. by rewrite Hm, app_assoc.
Qed.

Lemma grows_Status_exit_code (path : string) (sc0 : Z)
    (st : Z * http.ResponseWriter * list v1.ContainerStatus) (ct : v1.Container) :
  (sc0 = 500 -> st.1.1 = 500) ->
  post (Status_exit_code env path st ct)
    (flow_ok (fun st' => sc0 = 500 -> st'.1.1 = 500) (fun _ => True)).
Proof.
  destruct st as [[sc rw] acc]. cbn [fst snd]. intros H. unfold Status_exit_code.
  post_step. post_step; [by post_step |].
  post_step. post_step; [by post_step |].
  destruct (Strings.Atoi _); post_step; cbn [flow_ok fst snd]; done.
Qed.

Lemma grows_Status_branchB (pod : v1.Pod) (path : string) (l0 l : Local) :
  grows l0 l ->
  post (Status_branchB env pod path l) (flow_ok (grows l0) (fun _ => True)).
Proof.
  intros [[more Hm] Hc]. unfold Status_branchB.
  eapply post_bind.
  { apply (post_for_range_flow _ (fun st => statusCode l0 = 500 -> st.1.1 = 500)
             (fun _ => True));
      [intros; by apply grows_Status_exit_code | exact Hc]. }
  intros [[[sc rw] acc] | rw] Hf; apply post_ret; [| done].
  split; [| exact Hf]. eexists. cbn [resp]. by rewrite Hm, <- app_assoc.
Qed.

Lemma grows_Status_branchA (pod : v1.Pod) (uid path stdout : string) (l0 l : Local) :
  grows l0 l ->
  post (Status_branchA env ext pod uid path stdout l) (flow_ok (grows l0) (fun _ => True)).
Proof.
  intros H.
  unfold Status_branchA, Status_terminated, Status_running, Status_waiting,
    stamp_end, stamp_start.
  repeat post_step; cbn [flow_ok]; try done; by apply grows_add_resp.
Qed.

Lemma grows_Status_pod (l0 l : Local) (pod : v1.Pod) :
  grows l0 l ->
  post (Status_pod env ext Config l pod) (flow_ok (grows l0) (fun _ => True)).
Proof.
  intros H. unfold Status_pod. post_step.
  eapply post_bind; [apply post_any |]. intros [execReturn err] _.
  post_step. case_bool_decide; [by apply grows_Status_branchB | by apply grows_Status_branchA].
Qed.

(** The loop over the pods only adds to the list, and keeps a status code
    500. *)
Lemma grows_Status_pods (req : list v1.Pod) (l : Local) :
  post (for_range_flow (Status_pod env ext Config) req l) (flow_ok (grows l) (fun _ => True)).
Proof.
  apply post_for_range_flow; [| apply grows_refl].
  intros. by apply grows_Status_pod.
Qed.

End PostStatus.

Lemma cycle_start_ok (env : Environment) (w : World) : Local_ok (cycle_start env w).
Proof. left. done. Qed.

(** The answer that ends a cycle: the list when the status code is 200,
    texts under the header 500 when it is not. *)
Lemma Status_finish_ok (l : Local) :
  Local_ok l -> statusCode l = 200 ->
  Status_finish l
  = {| http.status := Some 200; http.body := [http.Json (resp l)] |}.
Proof.
  intros [[_ Hw] | [Hc _]] H; [| congruence].
  unfold Status_finish. rewrite H, Hw. reflexivity.
Qed.

Lemma Status_finish_failed (l : Local) :
  Local_ok l -> statusCode l <> 200 -> failed (Status_finish l).
Proof.
  intros [[Hc _] | [Hc [Hs Hb]]] H; [done |].
  unfold Status_finish. rewrite bool_decide_eq_true_2 by exact H.
  unfold failed, http.Write, http.WriteHeader. rewrite Hs. cbn [http.status http.body].
  rewrite Hs, forallb_app, Hb. done.
Qed.

Lemma failed_not_list (rw : http.ResponseWriter) (resp : list commonIL.PodStatus) :
  failed rw -> http.body rw <> [http.Json resp].
Proof. intros [_ Hb] E. rewrite E in Hb. discriminate. Qed.

(** ** The status poll: a cycle *)

(** A call whose request decodes, that comes ten seconds or more after
    [timer] and whose [squeue --me] reports nothing on stderr runs the loop
    over the pods; what the loop gives decides the call. *)
Lemma StatusHandler_cycle (env : Environment) (ext : Externals)
    (Config : commonIL.InterLinkConfig) (req : list v1.Pod) (w : World) :
  time.Second * 10 <= time.Sub (Now env (tick w)) (timer w) ->
  Stderr (Execute env (S (tick w)) "squeue" ["--me"]).1 = "" ->
  StatusHandler env ext Config (http.Decoded req) w =
    match for_range_flow (Status_pod env ext Config) req (cycle_start env w) (cycle_world w) with
    | Ok (Next l) w1 => Ok (Status_finish l) (cycle_end env l w1)
    | Ok (Return rw) w1 => Ok rw w1
    | Err e w1 => Err e w1
    | Panic w1 => Panic w1
    end.
Proof.
  intros Ht Hq.
  unfold StatusHandler, time_Now, get, mbind, M_bind. cbn [timeNow timer bump tick].
  apply Z.leb_le in Ht. rewrite Ht.
  unfold Status_cycle, shell_Execute, mbind, M_bind. cbn [tick bump].
  destruct (Execute env (S (tick w)) "squeue" ["--me"]) as [execReturn err].
  simpl in Hq. rewrite Hq. rewrite bool_decide_eq_false_2 by (intros H; by apply H).
  cbn [writer statusCode resp timeNow].
  change (for_range_flow (Status_pod env ext Config) req
            {| statusCode := http.StatusOK; writer := http.fresh; resp := [];
               timeNow := Now env (tick w) |}
            (log_exec "squeue" ["--me"] (bump (bump w))))
    with (for_range_flow (Status_pod env ext Config) req (cycle_start env w) (cycle_world w)).
  by destruct (for_range_flow _ req _ _) as [[l | rw] w1 | e w1 | w1].
Qed.

(** A call that does not run the loop leaves the rate-limit variables as
    they are. *)
Lemma StatusHandler_no_cycle (env : Environment) (ext : Externals)
    (Config : commonIL.InterLinkConfig) (r : http.Request (list v1.Pod)) (w : World) :
  ~ (exists req, r = http.Decoded req
                 /\ time.Second * 10 <= time.Sub (Now env (tick w)) (timer w)
                 /\ Stderr (Execute env (S (tick w)) "squeue" ["--me"]).1 = "") ->
  timer (final (StatusHandler env ext Config r w)) = timer w
  /\ cachedStatus (final (StatusHandler env ext Config r w)) = cachedStatus w.
Proof.
  intros Hno.
  destruct r as [err | err | req];
    unfold StatusHandler, time_Now, get, mbind, M_bind;
    cbn [timeNow timer bump tick]; [done | |];
    destruct (_ <=? _) eqn:Ht; try done.
  unfold Status_cycle, shell_Execute, mbind, M_bind. cbn [tick bump].
  destruct (Execute env (S (tick w)) "squeue" ["--me"]) as [execReturn err] eqn:He.
  case_bool_decide as Hq; [done |].
  destruct Hno. exists req. split; [done |]. split; [by apply Z.leb_le |].
  exact Hq.
Qed.

(** ** The status poll: rate limit *)

(** A call whose body was read and that comes fewer than ten seconds after
    [timer] runs nothing and answers 200 with the encoding of
    [cachedStatus]. *)
Lemma StatusHandler_within_limit (env : Environment) (ext : Externals)
    (Config : commonIL.InterLinkConfig) (r : http.Request (list v1.Pod)) (w : World) :
  (forall err, r <> http.ReadFailed err) ->
  time.Sub (Now env (tick w)) (timer w) < time.Second * 10 ->
  StatusHandler env ext Config r w
  = Ok {| http.status := Some http.StatusOK;
          http.body := [http.Json (cachedStatus w)] |} (bump w).
Proof.
  intros Hr Ht.
  assert (Hlt : (time.Second * 10 <=? time.Sub (Now env (tick w)) (timer w)) = false)
    by (apply Z.leb_gt; exact Ht).
  destruct r as [err | err | req]; [by destruct (Hr err) | |];
    unfold StatusHandler, time_Now, get, mbind, M_bind;
    cbn [timeNow timer bump tick]; by rewrite Hlt.
Qed.

(** C4 as amended: two Status calls, the first of which runs a poll cycle
    to its end (with the local state [l], in the world [w1]).  The first
    call stores the list of the cycle as [cachedStatus] and the clock reading
    at its completion as [timer].  A second call whose body is read, made
    while these two are still in place and fewer than ten seconds after that
    reading, runs no external command, changes neither registry nor files
    nor cache, and answers 200 with the encoding of the stored list,
    whatever it was asked.  That is the answer of the first call when the
    cycle ended with status code 200; when it ended with another status code
    the first call has answered 500 with texts and no list. *)
Theorem StatusHandler_rate_limit (env : Environment) (ext : Externals)
    (Config : commonIL.InterLinkConfig) (req : list v1.Pod)
    (r2 : http.Request (list v1.Pod)) (w w1 v : World) (l : Local) :
  time.Second * 10 <= time.Sub (Now env (tick w)) (timer w) ->
  Stderr (Execute env (S (tick w)) "squeue" ["--me"]).1 = "" ->
  for_range_flow (Status_pod env ext Config) req (cycle_start env w) (cycle_world w)
  = Ok (Next l) w1 ->
  (forall err, r2 <> http.ReadFailed err) ->
  cachedStatus v = cachedStatus (cycle_end env l w1) ->
  timer v = timer (cycle_end env l w1) ->
  time.Sub (Now env (tick v)) (timer v) < time.Second * 10 ->
  exists v',
    StatusHandler env ext Config (http.Decoded req) w
    = Ok (Status_finish l) (cycle_end env l w1)
    /\ cachedStatus (cycle_end env l w1) = resp l
    /\ timer (cycle_end env l w1) = Now env (tick w1)
    /\ StatusHandler env ext Config r2 v
       = Ok {| http.status := Some 200; http.body := [http.Json (resp l)] |} v'
    /\ execLog v' = execLog v
    /\ cachedStatus v' = cachedStatus v /\ timer v' = timer v
    /\ JIDs v' = JIDs v /\ files v' = files v
    /\ (statusCode l = 200 ->
        Status_finish l
        = {| http.status := Some 200; http.body := [http.Json (resp l)] |})
    /\ (statusCode l <> 200 ->
        http.status (Status_finish l) = Some 500
        /\ forallb is_text (http.body (Status_finish l)) = true
        /\ http.body (Status_finish l) <> [http.Json (resp l)]).
Proof.
  intros Ht Hq Hloop Hr Hc Htm Hlt.
  assert (Hok : Local_ok l).
  { pose proof (post_Status_pods env ext Config req (cycle_start env w)
                  (cycle_start_ok env w) (cycle_world w)) as H.
    by rewrite Hloop in H. }
  exists (bump v).
  split; [by rewrite StatusHandler_cycle, Hloop |].
  split; [done |]. split; [done |].
  split; [by rewrite StatusHandler_within_limit, Hc |].
  do 5 (split; [done |]).
  split; [by apply Status_finish_ok |].
  intros Hne. pose proof (Status_finish_failed l Hok Hne) as Hf.
  split; [apply Hf |]. split; [apply Hf | by apply failed_not_list].
Qed.

Lemma StatusHandler_rate_limit_witness :
  exists w' v',
    StatusHandler Sample.job_gone Sample.ext Sample.config (http.Decoded [Cases.pod_abc])
      (Cases.finished ("0" +:+ Strings.nl))
    = Ok {| http.status := Some 200;
            http.body := [http.Json [pod_status Cases.pod_abc
                                       [terminated "c" 0 time.zero time.zero]]] |} w'
    /\ StatusHandler Sample.job_gone Sample.ext Sample.config (http.Malformed "EOF") w'
       = Ok {| http.status := Some 200;
               http.body := [http.Json [pod_status Cases.pod_abc
                                          [terminated "c" 0 time.zero time.zero]]] |} v'
    /\ execLog v' = execLog w'.
Proof.
  set (env := Sample.job_gone).
  set (w := Cases.finished ("0" +:+ Strings.nl)).
  set (l := {| statusCode := 200; writer := http.fresh;
               resp := [pod_status Cases.pod_abc [terminated "c" 0 time.zero time.zero]];
               timeNow := Now env 3 |}).
  set (w1 := final (for_range_flow (Status_pod env Sample.ext Sample.config)
                      [Cases.pod_abc] (cycle_start env w) (cycle_world w))).
  assert (Hloop : for_range_flow (Status_pod env Sample.ext Sample.config)
                    [Cases.pod_abc] (cycle_start env w) (cycle_world w) = Ok (Next l) w1)
    by (vm_compute; reflexivity).
  destruct (StatusHandler_rate_limit env Sample.ext Sample.config [Cases.pod_abc]
              (http.Malformed "EOF") w w1 (cycle_end env l w1) l)
    as (v' & E1 & _ & _ & E2 & Hl & _ & _ & _ & _ & Hfin & _).
  - vm_compute. discriminate.
  - reflexivity.
  - exact Hloop.
  - discriminate.
  - reflexivity.
  - reflexivity.
  - vm_compute. reflexivity.
  - exists (cycle_end env l w1), v'.
    split; [| split; [exact E2 | exact Hl]].
    rewrite E1. rewrite Hfin by reflexivity. reflexivity.
Defined.

(** C4 as stated fails: the two calls are within ten seconds of each other
    and the second runs nothing, but their bodies differ.  The status file
    of the one container of pod abc does not hold an integer: the first call
    runs the cycle to its end and answers 500 with two texts; the second is
    served the list that this cycle stored and answers 200 with it. *)
Lemma StatusHandler_rate_limit_bodies_differ :
  exists rw1 w' rw2 v',
    StatusHandler Sample.job_gone Sample.ext Sample.config (http.Decoded [Cases.pod_abc])
      (Cases.finished "abc") = Ok rw1 w'
    /\ StatusHandler Sample.job_gone Sample.ext Sample.config (http.Decoded [Cases.pod_abc])
         w' = Ok rw2 v'
    /\ time.Second * 10 <= time.Sub (Now Sample.job_gone (tick (Cases.finished "abc")))
                             (timer (Cases.finished "abc"))
    /\ time.Sub (Now Sample.job_gone (tick w')) (timer w') < time.Second * 10
    /\ execLog v' = execLog w'
    /\ rw1 = {| http.status := Some 500;
                http.body :=
                  [http.Text converting;
                   http.Text "Some errors occurred deleting containers. Check Docker Sidecar's logs"] |}
    /\ rw2 = {| http.status := Some 200;
                http.body := [http.Json [pod_status Cases.pod_abc
                                           [terminated "c" 500 time.zero time.zero]]] |}
    /\ http.body rw1 <> http.body rw2.
Proof.
  eexists _, _, _, _.
  split; [vm_compute; reflexivity |].
  split; [vm_compute; reflexivity |].
  split; [vm_compute; discriminate |].
  split; [vm_compute; reflexivity |].
  split; [reflexivity |].
  split; [reflexivity |].
  split; [reflexivity | discriminate].
Qed.

(** X10: what a Status call does to the rate-limit variables.  Either it
    ran a poll cycle to its end (the request decoded, ten seconds or more
    had passed since [timer], [squeue --me] reported nothing on stderr and
    the loop over the pods finished with the local state [l] in the world
    [w1]): then it stored the list of that loop as [cachedStatus] and the
    clock reading taken after the loop as [timer], and answered with that
    local state.  Or no cycle ran to its end, and both variables are as they
    were, however the call ended. *)
Theorem StatusHandler_cache (env : Environment) (ext : Externals)
    (Config : commonIL.InterLinkConfig) (r : http.Request (list v1.Pod)) (w : World) :
  (exists req l w1,
      r = http.Decoded req
      /\ time.Second * 10 <= time.Sub (Now env (tick w)) (timer w)
      /\ Stderr (Execute env (S (tick w)) "squeue" ["--me"]).1 = ""
      /\ for_range_flow (Status_pod env ext Config) req (cycle_start env w) (cycle_world w)
         = Ok (Next l) w1
      /\ StatusHandler env ext Config r w
         = Ok (Status_finish l) (set_cache (resp l) (Now env (tick w1)) (bump w1)))
  \/ ((forall req l w1,
         r = http.Decoded req ->
         time.Second * 10 <= time.Sub (Now env (tick w)) (timer w) ->
         Stderr (Execute env (S (tick w)) "squeue" ["--me"]).1 = "" ->
         for_range_flow (Status_pod env ext Config) req (cycle_start env w) (cycle_world w)
         <> Ok (Next l) w1)
      /\ timer (final (StatusHandler env ext Config r w)) = timer w
      /\ cachedStatus (final (StatusHandler env ext Config r w)) = cachedStatus w).
Proof.
  assert (Hcase :
            (exists req, r = http.Decoded req
                         /\ time.Second * 10 <= time.Sub (Now env (tick w)) (timer w)
                         /\ Stderr (Execute env (S (tick w)) "squeue" ["--me"]).1 = "")
            \/ ~ (exists req, r = http.Decoded req
                              /\ time.Second * 10 <= time.Sub (Now env (tick w)) (timer w)
                              /\ Stderr (Execute env (S (tick w)) "squeue" ["--me"]).1 = "")).
  { destruct r as [err | err | req];
      [right; by intros (? & ? & _) | right; by intros (? & ? & _) |].
    destruct (decide (time.Second * 10 <= time.Sub (Now env (tick w)) (timer w)))
      as [Ht | Ht]; [| right; by intros (? & _ & ? & _)].
    destruct (decide (Stderr (Execute env (S (tick w)) "squeue" ["--me"]).1 = ""))
      as [Hq | Hq]; [left; by exists req | right; by intros (? & _ & _ & ?)]. }
  destruct Hcase as [(req & -> & Ht & Hq) | Hno].
  2: { right. split; [| by apply StatusHandler_no_cycle].
       intros req l w1 -> Ht Hq _. apply Hno. by exists req. }
  pose proof (steady_Status_pods env ext Config req (cycle_start env w) (cycle_world w))
    as Hs.
  rewrite (StatusHandler_cycle env ext Config req w Ht Hq).
  destruct (for_range_flow _ req _ _) as [[l | rw] w1 | e w1 | w1] eqn:E.
  - left. by exists req, l, w1.
  - right. destruct Hs as (H1 & H2 & _). split; [| by split].
    intros req' l' w1' [= <-] _ _. by rewrite E.
  - right. destruct Hs as (H1 & H2 & _). split; [| by split].
    intros req' l' w1' [= <-] _ _. by rewrite E.
  - right. destruct Hs as (H1 & H2 & _). split; [| by split].
    intros req' l' w1' [= <-] _ _. by rewrite E.
Qed.

(** ** The status poll: exit codes of a job the scheduler no longer knows *)

Lemma files_asked (k : nat) (w : World) : files (asked k w) = files w.
Proof. induction k as [|k IH]; [done | exact IH]. Qed.

Lemma JIDs_asked (k : nat) (w : World) : JIDs (asked k w) = JIDs w.
Proof. induction k as [|k IH]; [done | exact IH]. Qed.

Lemma timer_asked (k : nat) (w : World) : timer (asked k w) = timer w.
Proof. induction k as [|k IH]; [done | exact IH]. Qed.

Lemma cachedStatus_asked (k : nat) (w : World) : cachedStatus (asked k w) = cachedStatus w.
Proof. induction k as [|k IH]; [done | exact IH]. Qed.

Lemma execLog_asked (k : nat) (w : World) : execLog (asked k w) = execLog w.
Proof. induction k as [|k IH]; [done | exact IH]. Qed.

Lemma tick_asked (k : nat) (w : World) : tick (asked k w) = (k + tick w)%nat.
Proof.
  induction k as [|k IH]; [done |].
  change (asked (S k) w) with (bump (asked k w)). cbn [tick bump]. by rewrite IH.
Qed.

Lemma asked_add (a b : nat) (w : World) : asked (a + b) w = asked a (asked b w).
Proof. unfold asked. apply Nat.iter_add. Qed.

(** The status file of one container is opened and read: a terminated
    status is added; a content that is no integer also sets the status code
    and writes a text. *)
Lemma Status_exit_code_read (env : Environment) (path : string) (sc : Z)
    (rw : http.ResponseWriter) (acc : list v1.ContainerStatus) (ct : v1.Container)
    (w : World) :
  can_read env (files w) (tick w) (status_file path ct) = true ->
  Status_exit_code env path (sc, rw, acc) ct w
  = Ok (Next (if parses (status_data (files w) path ct) then sc else 500,
              if parses (status_data (files w) path ct) then rw
              else respond 500 converting rw,
              acc ++ [terminated (v1.Container_Name ct)
                        (exit_status (status_data (files w) path ct))
                        time.zero time.zero]))
      (asked 2 w).
Proof.
  unfold can_read. rewrite !andb_true_iff, !bool_decide_eq_true.
  intros [[Ho [data Hf]] Hr].
  unfold Status_exit_code, os_Open, io_ReadAll. run.
  fold (status_file path ct). rewrite Ho. simpl. rewrite Hf. simpl.
  rewrite Hr. simpl. rewrite Hf. simpl.
  unfold parses, status_data, exit_status. rewrite Hf. cbn [default from_option id].
  destruct (Strings.Atoi (Strings.ReplaceAll_drop "010" data)) as [n|].
  - by rewrite bool_decide_eq_true_2.
  - rewrite bool_decide_eq_false_2 by (by intros [? ?]). reflexivity.
Qed.

(** It cannot be opened or read: the handler returns, having written a
    text under the header 500. *)
Lemma Status_exit_code_unread (env : Environment) (path : string) (sc : Z)
    (rw : http.ResponseWriter) (acc : list v1.ContainerStatus) (ct : v1.Container)
    (w : World) :
  can_read env (files w) (tick w) (status_file path ct) = false ->
  exists k,
    Status_exit_code env path (sc, rw, acc) ct w
    = Ok (Return (respond 500 (read_failure env (files w) (tick w) (status_file path ct)) rw))
        (asked k w).
Proof.
  unfold can_read, read_failure. intros H.
  unfold Status_exit_code, os_Open, io_ReadAll. run.
  fold (status_file path ct).
  destruct (fault env (tick w) (sys_Open (status_file path ct))) as [e|] eqn:Ho; simpl.
  { by exists 1%nat. }
  destruct (files w !! status_file path ct) as [data|] eqn:Hf; simpl.
  2: { by exists 1%nat. }
  destruct (fault env (S (tick w)) (sys_ReadAll (status_file path ct))) as [e|] eqn:Hr; simpl.
  { by exists 2%nat. }
  rewrite !bool_decide_eq_true_2 in H by (done || by eexists). discriminate.
Qed.

(** The response after one text for each status file that held no
    integer. *)
Lemma converted_body (rw : http.ResponseWriter) (cts : list v1.Container) :
  http.body (foldl (fun rw _ => respond 500 converting rw) rw cts)
  = http.body rw ++ map (fun _ => http.Text converting) cts.
Proof.
  revert rw. induction cts as [|ct cts IH]; intros rw; cbn [foldl map].
  - by rewrite app_nil_r.
  - by rewrite IH, body_respond, <- app_assoc.
Qed.

Lemma converted_status (rw : http.ResponseWriter) (cts : list v1.Container) :
  cts <> [] ->
  http.status (foldl (fun rw _ => respond 500 converting rw) rw cts)
  = Some (default 500 (http.status rw)).
Proof.
  intros Hne. destruct cts as [|ct cts]; [done |]. clear Hne. cbn [foldl].
  revert ct rw. induction cts as [|ct' cts IH]; intros ct rw; cbn [foldl].
  - apply status_respond.
  - rewrite (IH ct'), status_respond. done.
Qed.

Lemma converted_failed (rw : http.ResponseWriter) (cts : list v1.Container) :
  rw = http.fresh \/ failed rw ->
  foldl (fun rw _ => respond 500 converting rw) rw cts = http.fresh
  \/ failed (foldl (fun rw _ => respond 500 converting rw) rw cts).
Proof.
  revert rw. induction cts as [|ct cts IH]; intros rw H; cbn [foldl]; [exact H |].
  apply IH. right. by apply respond_failed.
Qed.

(** Every status file is opened and read: the loop over the containers
    reaches its end. *)
Lemma Status_exit_codes_read (env : Environment) (path : string)
    (cts : list v1.Container) (sc : Z) (rw : http.ResponseWriter)
    (acc : list v1.ContainerStatus) (w : World) :
  all_read env (files w) path (tick w) cts = true ->
  for_range_flow (Status_exit_code env path) cts (sc, rw, acc) w
  = Ok (Next (if decide (unparsed (files w) path cts = []) then sc else 500,
              foldl (fun rw _ => respond 500 converting rw) rw (unparsed (files w) path cts),
              acc ++ exit_statuses (files w) path cts))
      (asked (2 * length cts) w).
Proof.
  revert sc rw acc w. induction cts as [|ct cts IH]; intros sc rw acc w H.
  - cbn [for_range_flow]. unfold mret, M_ret. cbn. by rewrite app_nil_r.
  - cbn [all_read] in H. apply andb_true_iff in H as [Hct Hcts].
    rewrite for_range_flow_cons, Status_exit_code_read by done.
    rewrite IH by exact Hcts.
    change (files (asked 2 w)) with (files w).
    replace (2 * length (ct :: cts))%nat with (2 * length cts + 2)%nat
      by (cbn [length]; lia).
    rewrite asked_add. f_equal. unfold unparsed, exit_statuses.
    rewrite filter_cons. cbn [map]. rewrite <- app_assoc. cbn [app].
    fold (unparsed (files w) path cts).
    destruct (parses (status_data (files w) path ct)) eqn:Hp.
    + rewrite (decide_False (P := true = false)) by done. done.
    + rewrite (decide_True (P := false = false)) by done. cbn [foldl].
      rewrite (decide_False (P := ct :: _ = [])) by done.
      destruct (decide (unparsed (files w) path cts = [])); done.
Qed.

(** The first file that cannot be opened or read makes the handler
    return. *)
Lemma Status_exit_codes_unread (env : Environment) (path : string)
    (done ct_rest : list v1.Container) (ct : v1.Container) (sc : Z)
    (rw : http.ResponseWriter) (acc : list v1.ContainerStatus) (w : World) :
  all_read env (files w) path (tick w) done = true ->
  can_read env (files w) (tick w + 2 * length done) (status_file path ct) = false ->
  exists k,
    for_range_flow (Status_exit_code env path) (done ++ ct :: ct_rest) (sc, rw, acc) w
    = Ok (Return (respond 500
                    (read_failure env (files w) (tick w + 2 * length done)
                       (status_file path ct))
                    (foldl (fun rw _ => respond 500 converting rw) rw
                       (unparsed (files w) path done))))
        (asked k w).
Proof.
  intros Hd Hct.
  rewrite for_range_flow_app, Status_exit_codes_read by exact Hd.
  rewrite for_range_flow_cons.
  destruct (Status_exit_code_unread env path
              (if decide (unparsed (files w) path done = []) then sc else 500)
              (foldl (fun rw _ => respond 500 converting rw) rw
                 (unparsed (files w) path done))
              (acc ++ exit_statuses (files w) path done) ct
              (asked (2 * length done) w)) as (k & E).
  { rewrite files_asked, tick_asked. by rewrite Nat.add_comm. }
  rewrite E, files_asked, tick_asked, (Nat.add_comm (2 * length done)).
  exists (k + 2 * length done)%nat. by rewrite asked_add.
Qed.

(** A pod whose job squeue answers for on stderr goes through the branch
    of the status files, two questions after the poll began. *)
Lemma Status_pod_branchB (env : Environment) (ext : Externals)
    (Config : commonIL.InterLinkConfig) (l : Local) (pod : v1.Pod) (w : World)
    (r : JidStruct) (res : ExecResult) (err : option error) :
  JIDs w !! v1.UID pod = Some r ->
  Execute env (tick w) (commonIL.Squeuepath Config)
    ["--noheader"; "-a"; "-j " +:+ JID r] = (res, err) ->
  Stderr res <> "" ->
  Status_pod env ext Config l pod w
  = Status_branchB env pod
      (commonIL.DataRootFolder Config +:+ v1.Namespace pod +:+ "-" +:+ v1.UID pod)
      {| statusCode := statusCode l; writer := writer l; resp := resp l;
         timeNow := Now env (S (tick w)) |}
      (polled Config r w).
Proof.
  intros Hr He Hs.
  unfold Status_pod, deref_JID, shell_Execute, time_Now, mbind, M_bind.
  rewrite Hr, He. cbn [tick bump log_exec].
  by rewrite bool_decide_eq_true_2.
Qed.

(** C3 as amended: a poll cycle reaches a pod whose job squeue answers for
    on stderr; the status files of its containers are read in order, the
    first one with the question [n] to the environment.

    When every file is opened and read, the cycle goes on with one more
    entry in its list: one terminated status per declared container, in
    order, whose exit code is the content of the file without newlines read
    as an integer (its low 32 bits), or 500 when it is no integer.  With
    integers in all files the status code and the response are as before;
    otherwise the status code is 500 and one text per such file was written
    under the header 500.  When the loop then reaches the end of the
    request, the list it stores as [cachedStatus] holds that entry, a status
    code 500 has stayed, and the answer is 200 with the list when the status
    code is 200, and 500 with texts and without the list when it is not.

    When a file cannot be opened or read, the handler returns at that file:
    the answer is 500, its body ends in the text of that failure and holds no
    list, the remaining files and pods are not looked at, and [cachedStatus]
    and [timer] are as they were before the call. *)
Theorem StatusHandler_branchB_exit_codes (env : Environment) (ext : Externals)
    (Config : commonIL.InterLinkConfig) (before after : list v1.Pod) (pod : v1.Pod)
    (w w1 : World) (l1 : Local) (r : JidStruct) (res : ExecResult) (err : option error) :
  time.Second * 10 <= time.Sub (Now env (tick w)) (timer w) ->
  Stderr (Execute env (S (tick w)) "squeue" ["--me"]).1 = "" ->
  for_range_flow (Status_pod env ext Config) before (cycle_start env w) (cycle_world w)
  = Ok (Next l1) w1 ->
  JIDs w1 !! v1.UID pod = Some r ->
  Execute env (tick w1) (commonIL.Squeuepath Config)
    ["--noheader"; "-a"; "-j " +:+ JID r] = (res, err) ->
  Stderr res <> "" ->
  let path := commonIL.DataRootFolder Config +:+ v1.Namespace pod +:+ "-" +:+ v1.UID pod in
  let cts := v1.Containers pod in
  let n := S (S (tick w1)) in
  (all_read env (files w1) path n cts = true ->
   exists l2 w2,
     Status_pod env ext Config l1 pod w1 = Ok (Next l2) w2
     /\ resp l2 = resp l1 ++ [pod_status pod (exit_statuses (files w1) path cts)]
     /\ (unparsed (files w1) path cts = [] ->
         statusCode l2 = statusCode l1 /\ writer l2 = writer l1)
     /\ (unparsed (files w1) path cts <> [] ->
         statusCode l2 = 500
         /\ http.status (writer l2) = Some 500
         /\ http.body (writer l2)
            = http.body (writer l1)
              ++ map (fun _ => http.Text converting) (unparsed (files w1) path cts))
     /\ files w2 = files w1 /\ JIDs w2 = JIDs w1
     /\ (forall l3 w3,
           for_range_flow (Status_pod env ext Config) after l2 w2 = Ok (Next l3) w3 ->
           StatusHandler env ext Config (http.Decoded (before ++ pod :: after)) w
           = Ok (Status_finish l3) (cycle_end env l3 w3)
           /\ cachedStatus (cycle_end env l3 w3) = resp l3
           /\ (exists more, resp l3 = resp l2 ++ more)
           /\ (statusCode l2 = 500 -> statusCode l3 = 500)
           /\ (statusCode l3 = 200 ->
               Status_finish l3
               = {| http.status := Some 200; http.body := [http.Json (resp l3)] |})
           /\ (statusCode l3 <> 200 ->
               http.status (Status_finish l3) = Some 500
               /\ forallb is_text (http.body (Status_finish l3)) = true)))
  /\ (forall done ct rest,
        cts = done ++ ct :: rest ->
        all_read env (files w1) path n done = true ->
        can_read env (files w1) (n + 2 * length done) (status_file path ct) = false ->
        exists rw w2,
          StatusHandler env ext Config (http.Decoded (before ++ pod :: after)) w = Ok rw w2
          /\ http.status rw = Some 500
          /\ http.body rw
             = http.body (writer l1)
               ++ map (fun _ => http.Text converting) (unparsed (files w1) path done)
               ++ [http.Text (read_failure env (files w1) (n + 2 * length done)
                                (status_file path ct))]
          /\ forallb is_text (http.body rw) = true
          /\ cachedStatus w2 = cachedStatus w /\ timer w2 = timer w
          /\ files w2 = files w1 /\ JIDs w2 = JIDs w1
          /\ execLog w2
             = execLog w1 ++ [(commonIL.Squeuepath Config,
                               ["--noheader"; "-a"; "-j " +:+ JID r])]).
Proof.
  intros Ht Hq Hpre Hr He Hs path cts n.
  assert (Hok1 : Local_ok l1).
  { pose proof (post_Status_pods env ext Config before (cycle_start env w)
                  (cycle_start_ok env w) (cycle_world w)) as H.
    by rewrite Hpre in H. }
  pose proof (steady_Status_pods env ext Config before (cycle_start env w) (cycle_world w))
    as Hsteady.
  rewrite Hpre in Hsteady. destruct Hsteady as (Htm & Hcs & _).
  cbn [final timer cachedStatus cycle_world log_exec bump] in Htm, Hcs.
  pose proof (Status_pod_branchB env ext Config l1 pod w1 r res err Hr He Hs) as Epod.
  fold path in Epod. unfold Status_branchB in Epod. fold cts in Epod.
  cbn [statusCode writer resp timeNow] in Epod. unfold mbind, M_bind in Epod.
  split.
  - intros Hall.
    rewrite (Status_exit_codes_read env path cts (statusCode l1) (writer l1) []
               (polled Config r w1) Hall) in Epod.
    unfold mret, M_ret in Epod.
    change (files (polled Config r w1)) with (files w1) in Epod. cbn [app] in Epod.
    match type of Epod with
    | _ = Ok (Next ?a) ?b => set (l2 := a) in Epod; set (w2 := b) in Epod
    end.
    assert (Hlast :
              forall l3 w3,
                for_range_flow (Status_pod env ext Config) after l2 w2 = Ok (Next l3) w3 ->
                StatusHandler env ext Config (http.Decoded (before ++ pod :: after)) w
                = Ok (Status_finish l3) (cycle_end env l3 w3)
                /\ cachedStatus (cycle_end env l3 w3) = resp l3
                /\ (exists more, resp l3 = resp l2 ++ more)
                /\ (statusCode l2 = 500 -> statusCode l3 = 500)
                /\ (statusCode l3 = 200 ->
                    Status_finish l3
                    = {| http.status := Some 200; http.body := [http.Json (resp l3)] |})
                /\ (statusCode l3 <> 200 ->
                    http.status (Status_finish l3) = Some 500
                    /\ forallb is_text (http.body (Status_finish l3)) = true)).
    { intros l3 w3 Hafter.
      assert (Eloop : for_range_flow (Status_pod env ext Config) (before ++ pod :: after)
                        (cycle_start env w) (cycle_world w) = Ok (Next l3) w3).
      { by rewrite for_range_flow_app, Hpre, for_range_flow_cons, Epod. }
      assert (Hok3 : Local_ok l3).
      { pose proof (post_Status_pods env ext Config (before ++ pod :: after)
                      (cycle_start env w) (cycle_start_ok env w) (cycle_world w)) as H.
        rewrite Eloop in H. exact H. }
      pose proof (grows_Status_pods env ext Config after l2 w2) as Hg.
      rewrite Hafter in Hg. destruct Hg as [Hmore Hkeep].
      split; [by rewrite StatusHandler_cycle, Eloop |].
      split; [done |]. split; [exact Hmore |]. split; [exact Hkeep |].
      split; [by apply Status_finish_ok |].
      intros Hne. by apply Status_finish_failed. }
    exists l2, w2. split; [exact Epod |].
    split; [done |].
    split; [intros Hnil; subst l2; cbn [statusCode writer]; by rewrite Hnil, decide_True |].
    split.
    { intros Hne. subst l2. cbn [statusCode writer].
      rewrite decide_False by done. split; [done |].
      rewrite converted_status, converted_body by done. split; [| done].
      by destruct (code_ok_writer _ _ Hok1) as [-> | [-> _]]. }
    split; [subst w2; by rewrite files_asked |].
    split; [subst w2; by rewrite JIDs_asked | exact Hlast].
  - intros done ct rest Hcts Hdone Hct.
    destruct (Status_exit_codes_unread env path done rest ct (statusCode l1) (writer l1) []
                (polled Config r w1) Hdone Hct) as (k & E).
    rewrite Hcts, E in Epod. unfold mret, M_ret in Epod.
    change (files (polled Config r w1)) with (files w1) in Epod.
    change (tick (polled Config r w1)) with n in Epod.
    eexists _, _.
    split.
    { rewrite StatusHandler_cycle, for_range_flow_app, Hpre, for_range_flow_cons, Epod
        by done. reflexivity. }
    assert (Hf : forall t,
               failed (respond 500 t
                         (foldl (fun rw _ => respond 500 converting rw) (writer l1)
                            (unparsed (files w1) path done)))).
    { intros t. apply respond_failed, converted_failed. by eapply code_ok_writer. }
    split; [apply Hf |].
    split; [by rewrite body_respond, converted_body, <- app_assoc |].
    split; [apply Hf |].
    rewrite cachedStatus_asked, timer_asked, files_asked, JIDs_asked, execLog_asked.
    done.
Qed.

Lemma StatusHandler_branchB_exit_codes_witness :
  (exists w',
      StatusHandler Sample.job_gone Sample.ext Sample.config
        (http.Decoded ([] ++ Cases.pod_abc :: []))
        (Cases.finished ("0" +:+ Strings.nl))
      = Ok {| http.status := Some 200;
              http.body := [http.Json [pod_status Cases.pod_abc
                                         [terminated "c" 0 time.zero time.zero]]] |} w')
  /\ (exists rw w',
        StatusHandler Sample.job_gone Sample.ext Sample.config
          (http.Decoded ([] ++ Cases.pod_abc :: []))
          (Sample.registered "77")
        = Ok rw w'
        /\ http.status rw = Some 500 /\ cachedStatus w' = []).
Proof.
  set (env := Sample.job_gone). split.
  - set (w := Cases.finished ("0" +:+ Strings.nl)).
    destruct (StatusHandler_branchB_exit_codes env Sample.ext Sample.config [] []
                Cases.pod_abc w (cycle_world w) (cycle_start env w) (Sample.record "77")
                (Sample.out "" "slurm_load_jobs error: Invalid job id specified") None)
      as [Hread _].
    + vm_compute. discriminate.
    + reflexivity.
    + reflexivity.
    + reflexivity.
    + reflexivity.
    + discriminate.
    + destruct Hread as (l2 & w2 & _ & Hresp & Hint & _ & _ & _ & Hlast);
        [vm_compute; reflexivity |].
      destruct Hint as [Hc _]; [vm_compute; reflexivity |].
      destruct (Hlast l2 w2) as (E & _ & _ & _ & Hfin & _); [reflexivity |].
      exists (cycle_end env l2 w2). rewrite E. rewrite Hfin by exact Hc.
      rewrite Hresp. reflexivity.
  - set (w := Sample.registered "77").
    destruct (StatusHandler_branchB_exit_codes env Sample.ext Sample.config [] []
                Cases.pod_abc w (cycle_world w) (cycle_start env w) (Sample.record "77")
                (Sample.out "" "slurm_load_jobs error: Invalid job id specified") None)
      as [_ Hfail].
    + vm_compute. discriminate.
    + reflexivity.
    + reflexivity.
    + reflexivity.
    + reflexivity.
    + discriminate.
    + destruct (Hfail [] (Sample.container "ubuntu" []) [])
        as (rw & w2 & E & Hst & _ & _ & Hc & _);
        [reflexivity | reflexivity | vm_compute; reflexivity |].
      exists rw, w2. split; [exact E |]. split; [exact Hst | exact Hc].
Defined.

(** C3 as stated fails, in two ways.  The scheduler no longer knows the job
    of pod abc.  When the status file of its container does not exist, the
    handler answers 500 with a text and stores nothing: no status with exit
    code 500, nor any other, is produced.  When the file holds [abc], the
    exit code 500 is made up and stored with the list of the cycle, but the
    answer of the call is 500 with two texts: it holds no status of any
    container. *)
Lemma StatusHandler_status_file_failures :
  (exists w',
      StatusHandler Sample.job_gone Sample.ext Sample.config
        (http.Decoded [Cases.pod_abc]) (Sample.registered "77")
      = Ok {| http.status := Some 500; http.body := [http.Text retrieving] |} w'
      /\ cachedStatus w' = [] /\ timer w' = time.zero)
  /\ (exists w',
        StatusHandler Sample.job_gone Sample.ext Sample.config
          (http.Decoded [Cases.pod_abc]) (Cases.finished "abc")
        = Ok {| http.status := Some 500;
                http.body :=
                  [http.Text converting;
                   http.Text "Some errors occurred deleting containers. Check Docker Sidecar's logs"] |}
            w'
        /\ cachedStatus w'
           = [pod_status Cases.pod_abc [terminated "c" 500 time.zero time.zero]]).
Proof.
  split; eexists; repeat split; vm_compute; reflexivity.
Qed.

(** ** Recovery of the registry *)

Lemma for_range_app {A} (body : A -> M unit) (pre rest : list A) (w : World) :
  for_range body (pre ++ rest) w =
    match for_range body pre w with
    | Ok _ w' => for_range body rest w'
    | Err e w' => Err e w'
    | Panic w' => Panic w'
    end.
Proof.
  revert w. induction pre as [|x pre IH]; intros w; [done |].
  cbn [app for_range]. unfold mbind, M_bind.
  destruct (body x w) as [[] w' | e w' | w']; [apply IH | done ..].
Qed.

Lemma load_time_ok (env : Environment) (ext : Externals) (name : string) (w : World) :
  no_faults env ->
  load_time env ext name w = Ok (recovered_time ext (files w !! name)) (bump w).
Proof.
  intros Hn. unfold load_time, mbind, M_bind, try.
  rewrite os_ReadFile_ok by apply Hn.
  by destruct (files w !! name).
Qed.

(** A directory with JobID.jid, or an entry that is no directory. *)
Lemma LoadJIDs_entry_ok (env : Environment) (ext : Externals) (path : string)
    (e : DirEntry) (w : World) :
  no_faults env ->
  (IsDir e = true -> is_Some (files w !! jid_file path e)) ->
  exists w',
    LoadJIDs_entry env ext path e w = Ok tt w'
    /\ JIDs w' = recover_entry ext (files w) path (JIDs w) e
    /\ files w' = files w.
Proof.
  intros Hn Hj. unfold LoadJIDs_entry, recover_entry.
  destruct (IsDir e); [| by exists w].
  destruct Hj as [jid Hj]; [done |].
  unfold mbind at 1, M_bind at 1. fold (jid_file path e).
  rewrite os_ReadFile_ok, Hj by apply Hn.
  unfold mbind at 1, M_bind at 1. rewrite load_time_ok by exact Hn.
  unfold mbind at 1, M_bind at 1. rewrite load_time_ok by exact Hn.
  unfold modify. eexists. split; [reflexivity |]. by split.
Qed.

(** A directory without JobID.jid. *)
Lemma LoadJIDs_entry_no_jid (env : Environment) (ext : Externals) (path : string)
    (e : DirEntry) (w : World) :
  no_faults env ->
  IsDir e = true -> files w !! jid_file path e = None ->
  LoadJIDs_entry env ext path e w = Err ENOENT (bump w).
Proof.
  intros Hn Hd Hj. unfold LoadJIDs_entry. rewrite Hd.
  unfold mbind at 1, M_bind at 1. fold (jid_file path e).
  by rewrite os_ReadFile_ok, Hj by apply Hn.
Qed.

Lemma LoadJIDs_entries_ok (env : Environment) (ext : Externals) (path : string)
    (entries : list DirEntry) (w : World) :
  no_faults env ->
  Forall (fun e => IsDir e = true -> is_Some (files w !! jid_file path e)) entries ->
  exists w',
    for_range (LoadJIDs_entry env ext path) entries w = Ok tt w'
    /\ JIDs w' = foldl (recover_entry ext (files w) path) (JIDs w) entries
    /\ files w' = files w.
Proof.
  intros Hn. revert w. induction entries as [|e entries IH]; intros w Hall.
  - by exists w.
  - apply Forall_cons in Hall as [He Hall].
    destruct (LoadJIDs_entry_ok env ext path e w Hn He) as (w1 & E1 & HJ1 & Hf1).
    destruct (IH w1) as (w2 & E2 & HJ2 & Hf2); [by rewrite Hf1 |].
    exists w2. cbn [for_range foldl]. unfold mbind, M_bind. rewrite E1.
    split; [exact E2 |]. split; [| congruence].
    by rewrite HJ2, HJ1, Hf1.
Qed.

(** C5 as amended: recovery loads the directories in the order they are
    listed.  A directory without JobID.jid ends the recovery with the error
    of that read: the directories listed before it are in the registry, it
    and those listed after it are not loaded.  Without such a directory all
    are loaded.  A directory whose StartedAt.time or FinishedAt.time is
    missing is loaded with the zero instant in that field. *)
Theorem LoadJIDs_recovery (env : Environment) (ext : Externals)
    (Config : commonIL.InterLinkConfig) (w : World) (pre rest : list DirEntry) :
  let path := commonIL.DataRootFolder Config in
  no_faults env ->
  Listing env (S (S (tick w))) path = pre ++ rest ->
  Forall (fun e => IsDir e = true -> is_Some (files w !! jid_file path e)) pre ->
  match rest with
  | [] => True
  | d :: _ => IsDir d = true /\ files w !! jid_file path d = None
  end ->
  (exists w',
      LoadJIDs env ext Config w =
        match rest with
        | [] => Ok tt w'
        | _ :: _ => Err ENOENT w'
        end
      /\ JIDs w' = foldl (recover_entry ext (files w) path) (JIDs w) pre
      /\ files w' = files w)
  /\ (forall J e, IsDir e = true ->
        files w !! (path +:+ DirEntry_Name e +:+ "/" +:+ "StartedAt.time") = None ->
        exists r, recover_entry ext (files w) path J e !! DirEntry_Name e = Some r
                  /\ StartTime r = time.zero)
  /\ (forall J e, IsDir e = true ->
        files w !! (path +:+ DirEntry_Name e +:+ "/" +:+ "FinishedAt.time") = None ->
        exists r, recover_entry ext (files w) path J e !! DirEntry_Name e = Some r
                  /\ EndTime r = time.zero).
Proof.
  intros path Hn Hl Hpre Hrest. split; [| split].
  - unfold LoadJIDs, os_ReadDir, entries_of. fold path.
    unfold mbind at 1, M_bind at 1. unfold mbind at 1, M_bind at 1.
    rewrite ask_ok by apply Hn.
    unfold mbind at 1, M_bind at 1. rewrite ask_ok by apply Hn.
    cbn [tick bump]. rewrite Hl, for_range_app.
    destruct (LoadJIDs_entries_ok env ext path pre (bump (bump (bump w))) Hn Hpre)
      as (w1 & -> & HJ & Hf).
    destruct rest as [|d rest].
    + exists w1. by split.
    + destruct Hrest as [Hd Hj]. exists (bump w1).
      cbn [for_range]. unfold mbind, M_bind.
      rewrite LoadJIDs_entry_no_jid; [by split | done | done | by rewrite Hf].
  - intros J e Hd Hs. unfold recover_entry. rewrite Hd, lookup_insert_eq, Hs.
    by eexists.
  - intros J e Hd Hs. unfold recover_entry. rewrite Hd, lookup_insert_eq, Hs.
    by eexists.
Qed.

Lemma LoadJIDs_recovery_witness :
  exists w',
    LoadJIDs
      (Sample.answering (Sample.out "" "", None)
         [{| DirEntry_Name := "b"; IsDir := true |};
          {| DirEntry_Name := "a"; IsDir := true |}])
      Sample.ext Sample.config
      (set_files {[".local/interlink/jobs/b/JobID.jid" := "42"]} Sample.world)
    = Err ENOENT w'
    /\ JIDs w' !! "b" = Some {| PodUID := "b"; JID := "42";
                                StartTime := time.zero; EndTime := time.zero |}
    /\ JIDs w' !! "a" = None.
Proof.
  destruct (LoadJIDs_recovery
              (Sample.answering (Sample.out "" "", None)
                 [{| DirEntry_Name := "b"; IsDir := true |};
                  {| DirEntry_Name := "a"; IsDir := true |}])
              Sample.ext Sample.config
              (set_files {[".local/interlink/jobs/b/JobID.jid" := "42"]} Sample.world)
              [{| DirEntry_Name := "b"; IsDir := true |}]
              [{| DirEntry_Name := "a"; IsDir := true |}])
    as [(w' & E & HJ & _) _].
  - intros n c. reflexivity.
  - reflexivity.
  - repeat constructor. by eexists.
  - split; reflexivity.
  - exists w'. split; [exact E |]. rewrite HJ. split; reflexivity.
Defined.

(** C5 as stated fails: directory a has no JobID.jid and is listed before
    directory b, which has one.  Recovery returns the error of a, and b is
    not in the registry. *)
Lemma LoadJIDs_missing_jid_stops_recovery :
  exists w',
    LoadJIDs
      (Sample.answering (Sample.out "" "", None)
         [{| DirEntry_Name := "a"; IsDir := true |};
          {| DirEntry_Name := "b"; IsDir := true |}])
      Sample.ext Sample.config
      (set_files {[".local/interlink/jobs/b/JobID.jid" := "42"]} Sample.world)
    = Err ENOENT w'
    /\ JIDs w' !! "b" = None.
Proof. eexists. split; vm_compute; reflexivity. Qed.

(** * Further properties *)

(** ** The environment block and the MPI annotation *)

(** X1: [prepareEnvs] returns no token for a container without [Env], and
    otherwise three tokens: an empty one, [--env], and the [NAME=VALUE]
    pairs in list order joined by single commas, with nothing after the last
    pair. *)
Theorem prepareEnvs_tokens (container : v1.Container) :
  prepareEnvs container =
    match v1.Env container with
    | [] => []
    | _ :: _ => [""; "--env"; Strings.Join (map env_pair (v1.Env container)) ","]
    end.
Proof.
  destruct (v1.Env container) as [|e envs] eqn:E.
  - by apply prepareEnvs_no_env.
  - rewrite <- E. apply prepareEnvs_with_env. by rewrite E.
Qed.

(** X2: the script that [produceSLURMScript] writes, its result and the
    world it leaves do not depend on the annotation
    slurm-job.vk.io/mpi-flags: with any value for it the call does what it
    does without it. *)
Theorem produceSLURMScript_ignores_mpi_flags (env : Environment)
    (path podNamespace podUID : string) (Annotations : gmap string string)
    (mpi_flags : string) (commands : list SingularityCommand)
    (config : commonIL.InterLinkConfig) (w : World) :
  produceSLURMScript env path podNamespace podUID
    (<["slurm-job.vk.io/mpi-flags" := mpi_flags]> Annotations) commands config w
  = produceSLURMScript env path podNamespace podUID
      (delete "slurm-job.vk.io/mpi-flags" Annotations) commands config w.
Proof.
  unfold produceSLURMScript. rewrite !mpi_wrap_keeps_commands.
  rewrite !lookup_insert_ne, !lookup_delete_ne by done.
  reflexivity.
Qed.

(** ** The state code of a squeue line *)

Lemma HasPrefix_ST_S (s : string) :
  Strings.HasPrefix s "S" = false -> Strings.HasPrefix s "ST" = false.
Proof.
  destruct s as [|c s]; [done |]. cbn [Strings.HasPrefix].
  destruct (Strings.byte_eqb "S" c); simpl; [destruct s; discriminate | done].
Qed.

Lemma match_state_here_codes (s c : string) :
  match_state_here s = Some c -> c ∈ state_codes /\ c <> "ST".
Proof.
  unfold match_state_here, state_codes. cbn [List.find].
  repeat match goal with
         | |- context [if Strings.HasPrefix s ?p then _ else _] =>
             destruct (Strings.HasPrefix s p) eqn:?;
             [intros ?; simplify_eq;
              split; [apply list_elem_of_In; simpl; tauto | discriminate] |]
         end.
  rewrite HasPrefix_ST_S by done. discriminate.
Qed.

Lemma FindString_state_unfold (s : string) :
  FindString_state s =
    match match_state_here s with
    | Some c => c
    | None => match s with
              | EmptyString => ""
              | String _ s' => FindString_state s'
              end
    end.
Proof. by destruct s. Qed.

(** X3: the state code that the status poll reads from a squeue line is
    the empty string or one of the eight codes of the pattern, and it is
    never ST: where ST would match, the alternative S that stands before it
    in the pattern matches first, so the [case "ST"] of the handler is never
    taken and a stopped job is told from a suspended one by nothing. *)
Theorem FindString_state_never_ST (stdout : string) :
  FindString_state stdout <> "ST"
  /\ (FindString_state stdout = "" \/ FindString_state stdout ∈ state_codes).
Proof.
  induction stdout as [|c s IH]; rewrite FindString_state_unfold.
  - destruct (match_state_here "") as [code|] eqn:E.
    + apply match_state_here_codes in E as [? ?]. by split; [| right].
    + split; [discriminate | by left].
  - destruct (match_state_here (String c s)) as [code|] eqn:E.
    + apply match_state_here_codes in E as [? ?]. by split; [| right].
    + exact IH.
Qed.

(** ** From the output of sbatch to the registry *)

Lemma ReplaceAll_drop_app (c : ascii) (a b : string) :
  Strings.ReplaceAll_drop c (a +:+ b)
  = Strings.ReplaceAll_drop c a +:+ Strings.ReplaceAll_drop c b.
Proof.
  induction a as [|x a IH]; [done |].
  rewrite string_app_cons. cbn [Strings.ReplaceAll_drop].
  destruct (Strings.byte_eqb x c); [exact IH |].
  rewrite string_app_cons. by f_equal.
Qed.

Lemma ReplaceAll_drop_digits (d : string) :
  Strings.all_digits d = true -> Strings.ReplaceAll_drop "010" d = d.
Proof.
  induction d as [|x d IH]; [done |]. cbn [Strings.all_digits Strings.ReplaceAll_drop].
  intros [Hx Hd]%andb_true_iff.
  destruct (Strings.byte_eqb x "010") eqn:E.
  - apply byte_eqb_eq in E. subst x. discriminate.
  - f_equal. by apply IH.
Qed.

Lemma strip_prefix_app (p s : string) : Strings.strip_prefix p (p +:+ s) = Some s.
Proof.
  induction p as [|c p IH]; [done |].
  rewrite string_app_cons. cbn [Strings.strip_prefix]. by rewrite byte_eqb_refl.
Qed.

Lemma span_digits_id (d : string) :
  Strings.all_digits d = true -> Strings.span_digits d = d.
Proof.
  induction d as [|x d IH]; [done |]. cbn [Strings.all_digits Strings.span_digits].
  intros [Hx Hd]%andb_true_iff. rewrite Hx. f_equal. by apply IH.
Qed.

Lemma FindStringSubmatch_jid_line (d : string) :
  Strings.all_digits d = true -> d <> "" ->
  FindStringSubmatch_jid (jid_literal +:+ d) = [jid_literal +:+ d; d].
Proof.
  intros Hd Hne. rewrite FindStringSubmatch_jid_unfold. unfold match_jid_here.
  rewrite strip_prefix_app, span_digits_id by done.
  by rewrite bool_decide_eq_false_2.
Qed.

(** X4: when sbatch prints its line [Submitted batch job <digits>] with the
    newline after it, reports nothing on stderr and the system lets the
    calls through, [SLURMBatchSubmit] returns the line without the newline
    and [handleJID] makes the digits, and nothing else, the content of
    JobID.jid and the JID of the pod in the registry. *)
Theorem sbatch_line_to_registry (env : Environment) (Config : commonIL.InterLinkConfig)
    (script podUID path d : string) (pod : v1.Pod) (code : Z) (w : World) :
  no_faults env ->
  Strings.all_digits d = true -> d <> "" ->
  Execute env (tick w) (commonIL.Sbatchpath Config) [script]
  = ({| Stdout := jid_literal +:+ d +:+ Strings.nl; Stderr := ""; ExitCode := code |}, None) ->
  exists w1 w2,
    SLURMBatchSubmit env script Config w = Ok (jid_literal +:+ d) w1
    /\ handleJID env podUID (jid_literal +:+ d) pod path w1 = Ok tt w2
    /\ files w2 !! (path +:+ "/JobID.jid") = Some d
    /\ JIDs w2 !! podUID = Some {| PodUID := v1.UID pod; JID := d;
                                   StartTime := time.zero; EndTime := time.zero |}.
Proof.
  intros Hn Hd Hne He.
  assert (E1 : SLURMBatchSubmit env script Config w
               = Ok (jid_literal +:+ d)
                   (log_exec (commonIL.Sbatchpath Config) [script] (bump w))).
  { unfold SLURMBatchSubmit, shell_Execute, mbind, M_bind. rewrite He.
    cbn [Stdout Stderr]. rewrite bool_decide_eq_false_2 by (intros H; by apply H).
    unfold mret, M_ret. f_equal.
    rewrite !ReplaceAll_drop_app, (ReplaceAll_drop_digits d) by done.
    cbn [Strings.ReplaceAll_drop Strings.nl]. by rewrite string_app_nil_r. }
  destruct (handleJID_matched env podUID (jid_literal +:+ d) pod path
              (log_exec (commonIL.Sbatchpath Config) [script] (bump w))
              (jid_literal +:+ d) d) as (w2 & E2 & Hf & HJ);
    [by apply FindStringSubmatch_jid_line | apply Hn | apply Hn |].
  by exists (log_exec (commonIL.Sbatchpath Config) [script] (bump w)), w2.
Qed.

Lemma sbatch_line_to_registry_witness :
  exists w1 w2,
    SLURMBatchSubmit (Cases.squeue_says ("Submitted batch job 12345" +:+ Strings.nl))
      "dir/job.sh" Sample.config Sample.world = Ok "Submitted batch job 12345" w1
    /\ handleJID (Cases.squeue_says ("Submitted batch job 12345" +:+ Strings.nl))
         "abc" "Submitted batch job 12345" (Sample.pod ∅ []) "dir" w1 = Ok tt w2
    /\ files w2 !! "dir/JobID.jid" = Some "12345"
    /\ JIDs w2 !! "abc" = Some (Sample.record "12345").
Proof.
  apply (sbatch_line_to_registry
           (Cases.squeue_says ("Submitted batch job 12345" +:+ Strings.nl))
           Sample.config "dir/job.sh" "abc" "dir" "12345" (Sample.pod ∅ []) 0 Sample.world).
  - intros n c. reflexivity.
  - reflexivity.
  - discriminate.
  - reflexivity.
Defined.

(** ** One pod of a Submit request *)

Lemma WriteString_err (env : Environment) (f s : string) (w : World) (e : error) :
  fault env (tick w) (sys_WriteString f) = Some e ->
  WriteString env f s w = Err e (bump w).
Proof. intros H. unfold WriteString. run. by rewrite H. Qed.

(** What a [handleJID] that returned nil has done. *)
Lemma handleJID_ok_inv (env : Environment) (podUID output : string) (pod : v1.Pod)
    (path : string) (w w' : World) :
  handleJID env podUID output pod path w = Ok tt w' ->
  exists d,
    d <> "" /\ Strings.all_digits d = true
    /\ files w' !! (path +:+ "/JobID.jid") = Some d
    /\ JIDs w' !! podUID = Some {| PodUID := v1.UID pod; JID := d;
                                   StartTime := time.zero; EndTime := time.zero |}.
Proof.
  intros H. unfold handleJID in H. unfold mbind at 1, M_bind at 1 in H.
  destruct (fault env (tick w) (sys_Create (path +:+ "/JobID.jid"))) as [e|] eqn:F.
  { rewrite (os_Create_err _ _ _ e) in H by done. discriminate. }
  rewrite os_Create_ok in H by done.
  destruct (FindStringSubmatch_jid_shape output) as [E | (d & E & Hne & Hd)];
    rewrite E in H; [discriminate |].
  unfold mbind at 1, M_bind at 1 in H. cbn [index lookup list_lookup mret M_ret] in H.
  unfold mbind at 1, M_bind at 1 in H.
  destruct (fault env (S (tick w)) (sys_WriteString (path +:+ "/JobID.jid"))) as [e|] eqn:G.
  { rewrite (WriteString_err _ _ _ _ e) in H by done. discriminate. }
  rewrite WriteString_ok in H by done.
  unfold mbind, M_bind, mret, M_ret, modify in H. simpl in H.
  injection H as <-. exists d. simpl. by rewrite !lookup_insert_eq.
Qed.

(** The outermost call under [try] in [H], by its three outcomes. *)
Ltac split_try H :=
  match type of H with
  | context [try ?m ?w] =>
      let E := fresh "E" in
      destruct (m w) eqn:E;
      [ rewrite (try_Ok _ _ _ _ E) in H
      | rewrite (try_Err _ _ _ _ E) in H
      | rewrite (try_Panic _ _ _ E) in H ];
      cbv beta iota in H
  end.

(** The outermost removal in [H], with what it leaves. *)
Ltac drop_removal H Hrem Hall :=
  match type of H with
  | context [try (os_RemoveAll ?e ?p) ?w] =>
      let E := fresh "E" in
      destruct (os_RemoveAll_dropped e p w) as (? & ? & E & Hrem & Hall);
      rewrite E in H; cbv beta iota in H
  end.

(** X5: when the body of the Submit loop goes on to the next pod, the pod
    was submitted: JobID.jid in its working directory holds a non-empty run
    of decimal digits and nothing else, the registry maps the pod UID to a
    record with exactly these digits as JID and with both instants zero, and
    nothing was written to the response. *)
Theorem Submit_pod_registers (env : Environment) (ext : Externals)
    (Config : commonIL.InterLinkConfig) (req : list commonIL.RetrievedPodData)
    (rw rw' : http.ResponseWriter) (data : commonIL.RetrievedPodData) (w w' : World) :
  Submit_pod env ext Config req rw data w = Ok (Next rw') w' ->
  rw' = rw /\
  exists d,
    d <> "" /\ Strings.all_digits d = true
    /\ files w' !! ((commonIL.DataRootFolder Config +:+ v1.Namespace (commonIL.Pod data)
                     +:+ "-" +:+ v1.UID (commonIL.Pod data)) +:+ "/JobID.jid") = Some d
    /\ JIDs w' !! v1.UID (commonIL.Pod data)
       = Some {| PodUID := v1.UID (commonIL.Pod data); JID := d;
                 StartTime := time.zero; EndTime := time.zero |}.
Proof.
  intros H. unfold Submit_pod in H. unfold mbind, M_bind, mret, M_ret in H.
  destruct (for_range_flow _ _ _ _) as [[cmds | rw0] w1 | e1 w1 | w1];
    cbv beta iota in H; try discriminate.
  split_try H; [| drop_removal H Hrem Hall; discriminate | discriminate].
  split_try H; [| drop_removal H Hrem Hall; discriminate | discriminate].
  split_try H; [| | discriminate].
  - injection H as <- <-. split; [done |].
    match goal with HJ : handleJID _ _ _ _ _ _ = Ok ?u _ |- _ => destruct u end.
    by eapply handleJID_ok_inv.
  - drop_removal H Hrem Hall. split_try H; discriminate.
Qed.

Lemma Submit_pod_registers_witness :
  exists w',
    Submit_pod (Cases.squeue_says ("Submitted batch job 12345" +:+ Strings.nl))
      Sample.ext Sample.config [] http.fresh Cases.data_abc Sample.world
    = Ok (Next http.fresh) w'
    /\ JIDs w' !! "abc" = Some (Sample.record "12345").
Proof.
  eassert (E : Submit_pod (Cases.squeue_says ("Submitted batch job 12345" +:+ Strings.nl))
                 Sample.ext Sample.config [] http.fresh Cases.data_abc Sample.world
               = Ok (Next http.fresh) _) by (vm_compute; reflexivity).
  destruct (Submit_pod_registers _ _ _ _ _ _ _ _ _ E) as (_ & d & _ & _ & _ & HJ).
  eexists. split; [exact E |]. vm_compute. reflexivity.
Defined.

(** [deleteContainer] creates no file. *)
Lemma deleteContainer_no_new_file (env : Environment) (Config : commonIL.InterLinkConfig)
    (podUID path name : string) (w : World) :
  files w !! name = None ->
  files (final (deleteContainer env podUID path Config w)) !! name = None.
Proof.
  intros H. destruct (JIDs w !! podUID) as [r|] eqn:Hr.
  2: { unfold deleteContainer, deref_JID, mbind, M_bind. by rewrite Hr. }
  destruct (Execute env (tick w) (commonIL.Scancelpath Config) [JID r]) as [res [e|]] eqn:He.
  { destruct (deleteContainer_scancel_error env Config podUID path w r res e Hr He)
      as (w' & -> & _ & _ & Hf).
    cbn [final]. by rewrite Hf. }
  destruct (deleteContainer_run env Config podUID path w r res Hr He)
    as (w0 & w' & -> & Hrem & -> & _).
  cbn [final files set_JIDs]. by eapply removal_no_new_file.
Qed.

Lemma Submit_containers_return (env : Environment) (ext : Externals)
    (Config : commonIL.InterLinkConfig)
    (req : list commonIL.RetrievedPodData) (pod : v1.Pod) (filesPath : string)
    (rw rw' : http.ResponseWriter) (containers : list v1.Container)
    (acc : list SingularityCommand) (w w' : World) :
  (forall n, fault env n (sys_RemoveAll filesPath) = None) ->
  Path.endsWithDot filesPath = false ->
  for_range_flow (Submit_container env ext Config req pod filesPath rw) containers acc w
  = Ok (Return rw') w' ->
  http.status rw' = Some (default 500 (http.status rw))
  /\ forall name, Path.under (Getwd env) filesPath name = true -> files w' !! name = None.
Proof.
  intros Hok Hdot. revert acc w.
  induction containers as [|c cs IH]; intros acc w H; [done |].
  rewrite for_range_flow_cons in H.
  destruct (Submit_container env ext Config req pod filesPath rw acc c w)
    as [[acc1 | rw1] w1 | e1 w1 | w1] eqn:E; try discriminate.
  - by apply IH in H.
  - injection H as <- <-. unfold Submit_container in E.
    unfold mbind, M_bind, mret, M_ret in E.
    split_try E; [discriminate | | discriminate].
    drop_removal E Hrem Hall. injection E as <- <-.
    split; [apply status_respond |]. by apply Hall.
Qed.

(** X6: whenever the body of the Submit loop makes the handler return for a
    pod (the mounts, the script, sbatch or [handleJID] returned an error)
    and the removal of the pod's working directory is let through by the
    system (the handler drops its error), no file is left at or below that
    directory, and the response carries status 500 unless a header was
    written before. *)
Theorem Submit_pod_failure_cleans (env : Environment) (ext : Externals)
    (Config : commonIL.InterLinkConfig) (req : list commonIL.RetrievedPodData)
    (rw rw' : http.ResponseWriter) (data : commonIL.RetrievedPodData) (w w' : World) :
  let filesPath :=
    commonIL.DataRootFolder Config +:+ v1.Namespace (commonIL.Pod data)
    +:+ "-" +:+ v1.UID (commonIL.Pod data) in
  (forall n, fault env n (sys_RemoveAll filesPath) = None) ->
  Path.endsWithDot filesPath = false ->
  Submit_pod env ext Config req rw data w = Ok (Return rw') w' ->
  http.status rw' = Some (default 500 (http.status rw))
  /\ forall name,
       Path.under (Getwd env) filesPath name = true -> files w' !! name = None.
Proof.
  intros filesPath Hok Hdot H. unfold Submit_pod in H. fold filesPath in H.
  unfold mbind, M_bind, mret, M_ret in H.
  destruct (for_range_flow _ _ _ _) as [[cmds | rw0] w1 | e1 w1 | w1] eqn:E0;
    cbv beta iota in H; try discriminate.
  2: { injection H as <- <-. by eapply Submit_containers_return. }
  split_try H; [| | discriminate].
  2: { drop_removal H Hrem Hall. injection H as <- <-.
       split; [apply status_respond | by apply Hall]. }
  split_try H; [| | discriminate].
  2: { drop_removal H Hrem Hall. injection H as <- <-.
       split; [apply status_respond | by apply Hall]. }
  split_try H; [discriminate | | discriminate].
  drop_removal H Hrem Hall.
  match type of H with
  | context [try (deleteContainer ?e ?u ?p ?c) ?w0] =>
      assert (Hnew : forall name,
                 files w0 !! name = None ->
                 files (final (deleteContainer e u p c w0)) !! name = None)
        by (intros; by apply deleteContainer_no_new_file)
  end.
  split_try H; [| | discriminate];
    cbn [final] in Hnew; injection H as <- <-; (split; [apply status_respond |]);
    intros name Hu; apply Hnew; by apply Hall.
Qed.

Lemma Submit_pod_failure_cleans_witness :
  exists rw' w',
    Submit_pod (Sample.answering (Sample.out "" "sbatch: error: invalid partition", None) [])
      Sample.ext Sample.config [] http.fresh Cases.data_abc Sample.world
    = Ok (Return rw') w'
    /\ http.status rw' = Some 500
    /\ files w' !! ".local/interlink/jobs/default-abc/job.sh" = None.
Proof.
  eassert (E : Submit_pod
                 (Sample.answering (Sample.out "" "sbatch: error: invalid partition", None) [])
                 Sample.ext Sample.config [] http.fresh Cases.data_abc Sample.world
               = Ok (Return _) _) by (vm_compute; reflexivity).
  destruct (Submit_pod_failure_cleans
              (Sample.answering (Sample.out "" "sbatch: error: invalid partition", None) [])
              Sample.ext Sample.config [] http.fresh _ Cases.data_abc Sample.world _
              (fun n => eq_refl) eq_refl E) as [Hs Hf].
  eexists _, _. split; [exact E |]. split; [exact Hs |].
  apply Hf. reflexivity.
Defined.

(** X7: when [handleJID] returns an error for a pod that has no registry
    entry (JobID.jid could not be created or written, so nothing was
    inserted), the clean-up of the handler removes what it can of the
    working directory and then panics in [deleteContainer], which reads the
    JID through the missing entry: the 500 response that was prepared is not
    returned, and scancel is not run for the job that sbatch accepted.
    Between the error and the panic nothing changes but files of the working
    directory, which are gone or as they were. *)
Theorem Submit_pod_unpersisted_jid_panics (env : Environment) (ext : Externals)
    (Config : commonIL.InterLinkConfig) (req : list commonIL.RetrievedPodData)
    (rw : http.ResponseWriter) (data : commonIL.RetrievedPodData)
    (cmds : list SingularityCommand) (script out : string) (e : error)
    (w w1 w2 w3 w4 : World) :
  let pod := commonIL.Pod data in
  let filesPath :=
    commonIL.DataRootFolder Config +:+ v1.Namespace pod +:+ "-" +:+ v1.UID pod in
  for_range_flow (Submit_container env ext Config req pod filesPath rw)
    (v1.Containers pod) [] w = Ok (Next cmds) w1 ->
  produceSLURMScript env filesPath (v1.Namespace pod) (v1.UID pod)
    (v1.Annotations pod) cmds Config w1 = Ok script w2 ->
  SLURMBatchSubmit env script Config w2 = Ok out w3 ->
  handleJID env (v1.UID pod) out pod filesPath w3 = Err e w4 ->
  JIDs w4 !! v1.UID pod = None ->
  exists w',
    Submit_pod env ext Config req rw data w = Panic w'
    /\ execLog w' = execLog w4
    /\ JIDs w' = JIDs w4
    /\ (forall name,
          files w' !! name = files w4 !! name
          \/ (Path.under (Getwd env) filesPath name = true /\ files w' !! name = None))
    /\ (Path.endsWithDot filesPath = false ->
        fault env (tick w4) (sys_RemoveAll filesPath) = None ->
        forall name,
          Path.under (Getwd env) filesPath name = true -> files w' !! name = None).
Proof.
  intros pod filesPath H1 H2 H3 H4 HJ.
  destruct (os_RemoveAll_dropped env filesPath w4)
    as (r0 & w' & E & (HJ' & Hl & _ & _ & _ & Hf) & Hall).
  exists w'. split; [| split; [exact Hl | split; [exact HJ' | split; [| exact Hall]]]].
  - unfold Submit_pod. fold pod. fold filesPath.
    unfold mbind, M_bind, mret, M_ret.
    rewrite H1. cbv beta iota. rewrite (try_Ok _ _ _ _ H2). cbv beta iota.
    rewrite (try_Ok _ _ _ _ H3). cbv beta iota.
    rewrite (try_Err _ _ _ _ H4). cbv beta iota. rewrite E.
    rewrite (try_Panic _ w' w'); [done |].
    unfold deleteContainer, deref_JID, mbind, M_bind. by rewrite HJ', HJ.
  - intros name. specialize (Hf name).
    destruct (Path.under (Getwd env) filesPath name); [| by left].
    destruct Hf as [Hf | Hf]; [by right | by left].
Qed.

Lemma Submit_pod_unpersisted_jid_panics_witness :
  exists w',
    Submit_pod Cases.jid_unwritable Sample.ext Sample.config [] http.fresh
      Cases.data_abc Sample.world = Panic w'.
Proof.
  set (env := Cases.jid_unwritable).
  set (dir := ".local/interlink/jobs/default-abc").
  set (cmds := [{| containerName := "c";
                   command := ["singularity"; "exec"; "--writable-tmpfs"; "--nv"; "-H";
                               "${HOME}/.local/interlink/jobs/abc:${HOME}";
                               "ubuntu"; "echo"; "hi"] |}]).
  set (w1 := final (for_range_flow
                      (Submit_container env Sample.ext Sample.config [] Cases.pod_abc dir
                         http.fresh)
                      (v1.Containers Cases.pod_abc) [] Sample.world)).
  set (w2 := final (produceSLURMScript env dir "default" "abc" ∅ cmds Sample.config w1)).
  set (w3 := final (SLURMBatchSubmit env (dir +:+ "/job.sh") Sample.config w2)).
  set (w4 := final (handleJID env "abc" "Submitted batch job 12345" Cases.pod_abc dir w3)).
  destruct (Submit_pod_unpersisted_jid_panics env Sample.ext Sample.config
              [] http.fresh Cases.data_abc cmds (dir +:+ "/job.sh")
              "Submitted batch job 12345" "permission denied"
              Sample.world w1 w2 w3 w4) as (w' & E & _).
  - vm_compute. reflexivity.
  - vm_compute. reflexivity.
  - vm_compute. reflexivity.
  - vm_compute. reflexivity.
  - vm_compute. reflexivity.
  - by exists w'.
Defined.

(** ** The text of job.sh *)

Lemma concat_empty_cons (a : string) (rest : list string) :
  String.concat "" (a :: rest) = a +:+ String.concat "" rest.
Proof. destruct rest; cbn [String.concat]; [by rewrite string_app_nil_r | done]. Qed.

Lemma foldl_append_concat {A} (g : A -> string) (l : list A) (init : string) :
  foldl (fun acc x => acc +:+ g x) init l = init +:+ String.concat "" (map g l).
Proof.
  revert init. induction l as [|x l IH]; intros init.
  - by rewrite string_app_nil_r.
  - cbn [foldl map]. by rewrite IH, concat_empty_cons, string_app_assoc.
Qed.

(** What a [produceSLURMScript] that returned nil has done. *)
Lemma produceSLURMScript_ok_inv (env : Environment) (path podNamespace podUID : string)
    (Annotations : gmap string string) (commands : list SingularityCommand)
    (config : commonIL.InterLinkConfig) (f : string) (w w' : World) :
  produceSLURMScript env path podNamespace podUID Annotations commands config w = Ok f w' ->
  f = path +:+ "/job.sh"
  /\ prefix w' = prefix w +:+ prefix_added podUID Annotations config
  /\ files w' = <[f := script_text path podUID Annotations commands config (prefix w')]> (files w)
  /\ JIDs w' = JIDs w /\ execLog w' = execLog w.
Proof.
  unfold produceSLURMScript. rewrite mpi_wrap_keeps_commands.
  unfold os_MkdirAll, os_Create, os_Chmod, append_prefix, WriteString. run.
  destruct (fault env (tick w) _); simpl; [discriminate |].
  destruct (fault env (S (tick w)) _); simpl; [discriminate |].
  destruct (fault env (S (S (tick w))) _); simpl; [discriminate |].
  unfold prefix_added, script_text, script_header, script_flags, script_postfix.
  destruct (commonIL.Tsocks config); simpl;
    case_bool_decide; simpl;
    destruct (Annotations !! "job.vk.io/pre-exec"); simpl;
    (destruct (fault env (S (S (S (tick w)))) _); simpl; [discriminate |]);
    intros [= <- <-]; simpl;
    rewrite lookup_insert_eq, insert_insert_eq; simpl;
    rewrite !foldl_append_concat;
    rewrite ?string_app_assoc, ?string_app_nil_r; done.
Qed.

(** X8: when [produceSLURMScript] returns nil, it returns the name
    [path/job.sh] and that file holds exactly: the interpreter line, the
    job-name and output directives, one directive per piece of the flags
    annotation, the process-wide prefix as it is at that moment, one line per
    command in the order given (each sending its output to [<name>.out] and
    its exit code to [<name>.status], in the background), and the postfix.
    No other file, no registry entry and no external command is involved. *)
Theorem produceSLURMScript_writes_script (env : Environment)
    (path podNamespace podUID : string) (Annotations : gmap string string)
    (commands : list SingularityCommand) (config : commonIL.InterLinkConfig)
    (f : string) (w w' : World) :
  produceSLURMScript env path podNamespace podUID Annotations commands config w = Ok f w' ->
  f = path +:+ "/job.sh"
  /\ files w' !! f =
       Some (script_header path podUID config +:+ script_flags Annotations +:+
             Strings.nl +:+ prefix w' +:+ Strings.nl +:+
             String.concat "" (map (command_line path) commands) +:+
             Strings.nl +:+ script_postfix config)
  /\ (forall name, name <> f -> files w' !! name = files w !! name)
  /\ JIDs w' = JIDs w /\ execLog w' = execLog w.
Proof.
  intros H. apply produceSLURMScript_ok_inv in H as (Hf & _ & Hfs & HJ & Hl).
  split; [exact Hf |]. rewrite Hfs. split; [by rewrite lookup_insert_eq |].
  split; [| by split]. intros name Hn. by rewrite lookup_insert_ne.
Qed.

Lemma produceSLURMScript_writes_script_witness :
  exists w',
    produceSLURMScript (Sample.answering (Sample.out "" "", None) [])
      "dir" "default" "abc" ∅
      [{| containerName := "c"; command := ["singularity"; "exec"; "ubuntu"] |}]
      Sample.config Sample.world = Ok "dir/job.sh" w'
    /\ JIDs w' = ∅.
Proof.
  eassert (E : produceSLURMScript (Sample.answering (Sample.out "" "", None) [])
                 "dir" "default" "abc" ∅
                 [{| containerName := "c"; command := ["singularity"; "exec"; "ubuntu"] |}]
                 Sample.config Sample.world = Ok "dir/job.sh" _)
    by (vm_compute; reflexivity).
  destruct (produceSLURMScript_writes_script _ _ _ _ _ _ _ _ _ _ E) as (_ & _ & _ & HJ & _).
  eexists. split; [exact E | exact HJ].
Defined.

(** X9: the prefix of the package is never reset.  When two scripts are
    produced one after the other (nothing in between having changed the
    prefix), the second script holds, between its directives and its
    commands, what the prefix was before the first call, then what the first
    call added for its pod (tunnel set-up, command prefix, pre-exec
    annotation), then what the second call added. *)
Theorem produceSLURMScript_prefix_carries_over (env : Environment)
    (path1 ns1 uid1 path2 ns2 uid2 : string) (A1 A2 : gmap string string)
    (cmds1 cmds2 : list SingularityCommand) (config : commonIL.InterLinkConfig)
    (f1 f2 : string) (w w1 v v2 : World) :
  produceSLURMScript env path1 ns1 uid1 A1 cmds1 config w = Ok f1 w1 ->
  prefix v = prefix w1 ->
  produceSLURMScript env path2 ns2 uid2 A2 cmds2 config v = Ok f2 v2 ->
  prefix v2 = prefix w +:+ prefix_added uid1 A1 config +:+ prefix_added uid2 A2 config
  /\ files v2 !! f2 =
       Some (script_text path2 uid2 A2 cmds2 config
               (prefix w +:+ prefix_added uid1 A1 config +:+ prefix_added uid2 A2 config)).
Proof.
  intros H1 Hv H2.
  apply produceSLURMScript_ok_inv in H1 as (_ & Hp1 & _).
  apply produceSLURMScript_ok_inv in H2 as (_ & Hp2 & Hfs & _).
  rewrite Hv, Hp1, string_app_assoc in Hp2.
  split; [exact Hp2 |]. by rewrite Hfs, lookup_insert_eq, Hp2.
Qed.

Lemma produceSLURMScript_prefix_carries_over_witness :
  exists w1 v2,
    produceSLURMScript (Sample.answering (Sample.out "" "", None) [])
      "dir1" "default" "abc" ∅ [] Cases.config_prefixed Sample.world = Ok "dir1/job.sh" w1
    /\ produceSLURMScript (Sample.answering (Sample.out "" "", None) [])
         "dir2" "default" "xyz" ∅ [] Cases.config_prefixed w1 = Ok "dir2/job.sh" v2
    /\ prefix v2 = Strings.nl +:+ "module load singularity" +:+
                   Strings.nl +:+ "module load singularity".
Proof.
  set (env := Sample.answering (Sample.out "" "", None) []).
  set (w1 := final (produceSLURMScript env "dir1" "default" "abc" ∅ []
                      Cases.config_prefixed Sample.world)).
  set (v2 := final (produceSLURMScript env "dir2" "default" "xyz" ∅ []
                      Cases.config_prefixed w1)).
  assert (E1 : produceSLURMScript env "dir1" "default" "abc" ∅ []
                 Cases.config_prefixed Sample.world = Ok "dir1/job.sh" w1)
    by (vm_compute; reflexivity).
  assert (E2 : produceSLURMScript env "dir2" "default" "xyz" ∅ []
                 Cases.config_prefixed w1 = Ok "dir2/job.sh" v2)
    by (vm_compute; reflexivity).
  exists w1, v2. split; [exact E1 |]. split; [exact E2 |].
  exact (proj1 (produceSLURMScript_prefix_carries_over env
                  "dir1" "default" "abc" "dir2" "default" "xyz" ∅ ∅ [] []
                  Cases.config_prefixed "dir1/job.sh" "dir2/job.sh"
                  Sample.world w1 w1 v2 E1 eq_refl E2)).
Defined.

(** ** The status poll and the registry *)

Lemma ages_record_refl (r : JidStruct) : ages_record r r.
Proof. by unfold ages_record. Qed.

Lemma ages_refl (w : World) : ages w w.
Proof.
  intros uid. destruct (JIDs w !! uid) as [r|]; [| done].
  exists r. split; [done | apply ages_record_refl].
Qed.

Lemma ages_trans (a b c : World) : ages a b -> ages b c -> ages a c.
Proof.
  intros Hab Hbc uid. specialize (Hab uid). specialize (Hbc uid).
  destruct (JIDs a !! uid) as [r|].
  - destruct Hab as (r' & Hb & Hr). rewrite Hb in Hbc.
    destruct Hbc as (r'' & Hc & Hr'). exists r''. split; [done |].
    destruct Hr as (H1 & H2 & H3 & H4), Hr' as (H1' & H2' & H3' & H4').
    unfold ages_record. split; [congruence |]. split; [congruence |].
    split; intros Hz.
    + rewrite <- (H3 Hz). apply H3'. by rewrite (H3 Hz).
    + rewrite <- (H4 Hz). apply H4'. by rewrite (H4 Hz).
  - by rewrite Hab in Hbc.
Qed.

Lemma ages_eq (w w' : World) : JIDs w' = JIDs w -> ages w w'.
Proof.
  intros H uid. rewrite H. destruct (JIDs w !! uid) as [r|]; [| done].
  exists r. split; [done | apply ages_record_refl].
Qed.

#[local] Hint Resolve ages_refl ages_trans : keeps.

Section AgesPrimitives.

Variable env : Environment.

Lemma ages_ask (c : syscall) : keeps ages (ask env c).
Proof. intros w. apply ages_eq. unfold ask. by destruct (fault env (tick w) c). Qed.

Lemma ages_time_Now : keeps ages (time_Now env).
Proof. intros w. by apply ages_eq. Qed.

Lemma ages_shell_Execute (c : string) (args : list string) :
  keeps ages (shell_Execute env c args).
Proof. intros w. by apply ages_eq. Qed.

Lemma ages_set_files (f : World -> gmap string string) :
  keeps ages (modify (fun w => set_files (f w) w)).
Proof. intros w. by apply ages_eq. Qed.

Lemma ages_set_cache (c : list commonIL.PodStatus) (t : time.Time) :
  keeps ages (modify (set_cache c t)).
Proof. intros w. by apply ages_eq. Qed.

Hint Resolve ages_ask ages_set_files : keeps.

Lemma ages_os_Create (name : string) : keeps ages (os_Create env name).
Proof. unfold os_Create. repeat keeps_step. Qed.

Lemma ages_WriteString (f s : string) : keeps ages (WriteString env f s).
Proof. unfold WriteString. repeat keeps_step. Qed.

Lemma ages_os_Open (name : string) : keeps ages (os_Open env name).
Proof. unfold os_Open. repeat keeps_step. Qed.

Lemma ages_io_ReadAll (f : string) : keeps ages (io_ReadAll env f).
Proof. unfold io_ReadAll. repeat keeps_step. Qed.

End AgesPrimitives.

#[local] Hint Resolve ages_ask ages_time_Now ages_shell_Execute ages_set_files
  ages_set_cache ages_os_Create ages_WriteString ages_os_Open ages_io_ReadAll : keeps.

Lemma IsZero_true (t : time.Time) : time.IsZero t = true -> t = time.zero.
Proof. unfold time.IsZero, time.zero. apply Z.eqb_eq. Qed.

(** Setting an instant that was zero ages the world. *)
Lemma ages_alter_end (t : time.Time) (uid : string) (r : JidStruct) (w : World) :
  JIDs w !! uid = Some r -> EndTime r = time.zero ->
  ages w (set_JIDs (alter (set_EndTime t) uid (JIDs w)) w).
Proof.
  intros Hr Hz u. cbn [JIDs set_JIDs]. destruct (decide (uid = u)) as [<- | Hne].
  - rewrite Hr, lookup_alter_eq, Hr. eexists. split; [reflexivity |].
    unfold ages_record. cbn [PodUID JID StartTime EndTime set_EndTime].
    by repeat split.
  - rewrite lookup_alter_ne by done. destruct (JIDs w !! u) as [r'|]; [| done].
    exists r'. split; [done | apply ages_record_refl].
Qed.

Lemma ages_alter_start (t : time.Time) (uid : string) (r : JidStruct) (w : World) :
  JIDs w !! uid = Some r -> StartTime r = time.zero ->
  ages w (set_JIDs (alter (set_StartTime t) uid (JIDs w)) w).
Proof.
  intros Hr Hz u. cbn [JIDs set_JIDs]. destruct (decide (uid = u)) as [<- | Hne].
  - rewrite Hr, lookup_alter_eq, Hr. eexists. split; [reflexivity |].
    unfold ages_record. cbn [PodUID JID StartTime EndTime set_StartTime].
    by repeat split.
  - rewrite lookup_alter_ne by done. destruct (JIDs w !! u) as [r'|]; [| done].
    exists r'. split; [done | apply ages_record_refl].
Qed.

Section AgesStatus.

Variable env : Environment.
Variable ext : Externals.
Variable Config : commonIL.InterLinkConfig.

Lemma ages_stamp_end (uid path : string) (l : Local) :
  keeps ages (stamp_end env ext uid path l).
Proof.
  intros w. unfold stamp_end. unfold mbind at 1, M_bind at 1, deref_JID at 1.
  destruct (JIDs w !! uid) as [r|] eqn:Hr; [| apply ages_refl].
  destruct (time.IsZero (EndTime r)) eqn:Hz; [| apply ages_refl].
  unfold mbind at 1, M_bind at 1, modify at 1.
  apply (ages_trans _ (set_JIDs (alter (set_EndTime (timeNow l)) uid (JIDs w)) w));
    [by eapply ages_alter_end, IsZero_true |].
  generalize (set_JIDs (alter (set_EndTime (timeNow l)) uid (JIDs w)) w).
  change (keeps ages
            (c ← try (os_Create env (path +:+ "/FinishedAt.time"));
             match c with
             | inl _ =>
                 mret (Return (respond http.StatusInternalServerError
                                 "Error writing end timestamp... Check Slurm Sidecar's logs"
                                 (writer l)))
             | inr f =>
                 r ← deref_JID uid;
                 _ ← try (WriteString env f (time_Format ext (EndTime r) timestampFormat));
                 mret (Next tt)
             end)).
  repeat keeps_step.
Qed.

Lemma ages_stamp_start (uid path : string) (l : Local) :
  keeps ages (stamp_start env ext uid path l).
Proof.
  intros w. unfold stamp_start. unfold mbind at 1, M_bind at 1, deref_JID at 1.
  destruct (JIDs w !! uid) as [r|] eqn:Hr; [| apply ages_refl].
  destruct (time.IsZero (StartTime r)) eqn:Hz; [| apply ages_refl].
  unfold mbind at 1, M_bind at 1, modify at 1.
  apply (ages_trans _ (set_JIDs (alter (set_StartTime (timeNow l)) uid (JIDs w)) w));
    [by eapply ages_alter_start, IsZero_true |].
  generalize (set_JIDs (alter (set_StartTime (timeNow l)) uid (JIDs w)) w).
  change (keeps ages
            (c ← try (os_Create env (path +:+ "/StartedAt.time"));
             match c with
             | inl _ =>
                 mret (Return (respond http.StatusInternalServerError
                                 "Error writing start timestamp... Check Slurm Sidecar's logs"
                                 (writer l)))
             | inr f =>
                 r ← deref_JID uid;
                 _ ← try (WriteString env f (time_Format ext (StartTime r) timestampFormat));
                 mret (Next tt)
             end)).
  repeat keeps_step.
Qed.

Hint Resolve ages_stamp_end ages_stamp_start : keeps.

Lemma ages_Status_exit_code (path : string)
    (st : Z * http.ResponseWriter * list v1.ContainerStatus) (ct : v1.Container) :
  keeps ages (Status_exit_code env path st ct).
Proof.
  destruct st as [[sc rw] acc]. unfold Status_exit_code. repeat keeps_step.
Qed.

Lemma ages_Status_branchB (pod : v1.Pod) (path : string) (l : Local) :
  keeps ages (Status_branchB env pod path l).
Proof.
  unfold Status_branchB. eapply keeps_bind; eauto with keeps.
  - apply keeps_for_range_flow; eauto with keeps.
    intros. apply ages_Status_exit_code.
  - intros [[[sc rw] acc] | rw]; eauto with keeps.
Qed.

Lemma ages_Status_branchA (pod : v1.Pod) (uid path stdout : string) (l : Local) :
  keeps ages (Status_branchA env ext pod uid path stdout l).
Proof.
  unfold Status_branchA, Status_terminated, Status_running, Status_waiting.
  repeat keeps_step.
Qed.

Lemma ages_Status_pod (l : Local) (pod : v1.Pod) :
  keeps ages (Status_pod env ext Config l pod).
Proof.
  unfold Status_pod. eapply keeps_bind; eauto with keeps. intros r.
  eapply keeps_bind; eauto with keeps. intros [execReturn err].
  eapply keeps_bind; eauto with keeps. intros now.
  case_bool_decide; [apply ages_Status_branchB | apply ages_Status_branchA].
Qed.

Lemma ages_Status_cycle (req : list v1.Pod) (l : Local) :
  keeps ages (Status_cycle env ext Config req l).
Proof.
  unfold Status_cycle. eapply keeps_bind; eauto with keeps. intros [execReturn err].
  case_bool_decide; [eauto with keeps |].
  eapply keeps_bind; eauto with keeps.
  - apply keeps_for_range_flow; eauto with keeps. apply ages_Status_pod.
  - intros [l' | rw]; repeat keeps_step.
Qed.

End AgesStatus.

(** X11: a Status call only ages the registry.  However it ends (answer
    or panic), every pod UID that had a record still has one, no record was
    added, the JID and PodUID of every record are as before, and a start or
    end instant that was not zero is as before: the instants are written at
    most once. *)
Theorem StatusHandler_ages_registry (env : Environment) (ext : Externals)
    (Config : commonIL.InterLinkConfig) (r : http.Request (list v1.Pod)) (w : World) :
  forall uid,
    match JIDs w !! uid with
    | Some rec =>
        exists rec',
          JIDs (final (StatusHandler env ext Config r w)) !! uid = Some rec'
          /\ PodUID rec' = PodUID rec /\ JID rec' = JID rec
          /\ (StartTime rec <> time.zero -> StartTime rec' = StartTime rec)
          /\ (EndTime rec <> time.zero -> EndTime rec' = EndTime rec)
    | None => JIDs (final (StatusHandler env ext Config r w)) !! uid = None
    end.
Proof.
  assert (H : keeps ages (StatusHandler env ext Config r)).
  { unfold StatusHandler. eapply keeps_bind; eauto with keeps. intros now.
    destruct r as [err | err | req]; [eauto with keeps | |];
      (eapply keeps_bind; eauto with keeps; intros w0);
      destruct (_ <=? _); eauto with keeps.
    apply ages_Status_cycle. }
  exact (H w).
Qed.

(** ** The status poll of a job the scheduler knows *)

Section BranchA.

Variable env : Environment.
Variable ext : Externals.
Variable Config : commonIL.InterLinkConfig.
Hypothesis calm : no_faults env.

Lemma stamp_end_ok (uid path : string) (l : Local) (w : World) (r : JidStruct) :
  JIDs w !! uid = Some r ->
  exists w1,
    stamp_end env ext uid path l w = Ok (Next tt) w1
    /\ JIDs w1 !! uid
       = Some (if time.IsZero (EndTime r) then set_EndTime (timeNow l) r else r)
    /\ (forall u, u <> uid -> JIDs w1 !! u = JIDs w !! u).
Proof.
  intros Hr. unfold stamp_end, deref_JID, os_Create, WriteString. run. rewrite Hr.
  destruct (time.IsZero (EndTime r)); simpl; [| by exists w].
  rewrite calm. simpl. rewrite lookup_alter_eq, Hr. simpl. rewrite calm. simpl.
  eexists. split; [reflexivity |]. simpl. rewrite lookup_alter_eq, Hr.
  split; [done |]. intros u Hu. by rewrite lookup_alter_ne.
Qed.

Lemma stamp_start_ok (uid path : string) (l : Local) (w : World) (r : JidStruct) :
  JIDs w !! uid = Some r ->
  exists w1,
    stamp_start env ext uid path l w = Ok (Next tt) w1
    /\ JIDs w1 !! uid
       = Some (if time.IsZero (StartTime r) then set_StartTime (timeNow l) r else r)
    /\ (forall u, u <> uid -> JIDs w1 !! u = JIDs w !! u).
Proof.
  intros Hr. unfold stamp_start, deref_JID, os_Create, WriteString. run. rewrite Hr.
  destruct (time.IsZero (StartTime r)); simpl; [| by exists w].
  rewrite calm. simpl. rewrite lookup_alter_eq, Hr. simpl. rewrite calm. simpl.
  eexists. split; [reflexivity |]. simpl. rewrite lookup_alter_eq, Hr.
  split; [done |]. intros u Hu. by rewrite lookup_alter_ne.
Qed.

(** The three bodies of the switch, for a pod with a record: the record
    afterwards, and a status for the first container, or a panic when there
    is no container to name. *)
Lemma Status_terminated_run (pod : v1.Pod) (uid path : string) (l : Local)
    (w : World) (r : JidStruct) :
  JIDs w !! uid = Some r ->
  let r' := if time.IsZero (EndTime r) then set_EndTime (timeNow l) r else r in
  exists w1,
    JIDs w1 !! uid = Some r'
    /\ (forall u, u <> uid -> JIDs w1 !! u = JIDs w !! u)
    /\ Status_terminated env ext pod uid path l w =
         match v1.Containers pod with
         | [] => Panic w1
         | c0 :: _ =>
             Ok (Next (add_resp (pod_status pod
                                   [terminated (v1.Container_Name c0) 0
                                      (StartTime r') (EndTime r')]) l)) w1
         end.
Proof.
  intros Hr r'. destruct (stamp_end_ok uid path l w r Hr) as (w1 & E & HJ & Hfr).
  exists w1. split; [exact HJ |]. split; [exact Hfr |].
  unfold Status_terminated, mbind, M_bind. rewrite E. unfold index, deref_JID.
  destruct (v1.Containers pod) as [|c0 cs]; [done |].
  cbn [lookup list_lookup mret M_ret]. by rewrite HJ.
Qed.

Lemma Status_running_run (pod : v1.Pod) (uid path : string) (l : Local)
    (w : World) (r : JidStruct) :
  JIDs w !! uid = Some r ->
  let r' := if time.IsZero (StartTime r) then set_StartTime (timeNow l) r else r in
  exists w1,
    JIDs w1 !! uid = Some r'
    /\ (forall u, u <> uid -> JIDs w1 !! u = JIDs w !! u)
    /\ Status_running env ext pod uid path l w =
         match v1.Containers pod with
         | [] => Panic w1
         | c0 :: _ =>
             Ok (Next (add_resp (pod_status pod
                                   [{| v1.ContainerStatus_Name := v1.Container_Name c0;
                                       v1.State := v1.Running (StartTime r');
                                       v1.Ready := true |}]) l)) w1
         end.
Proof.
  intros Hr r'. destruct (stamp_start_ok uid path l w r Hr) as (w1 & E & HJ & Hfr).
  exists w1. split; [exact HJ |]. split; [exact Hfr |].
  unfold Status_running, mbind, M_bind. rewrite E. unfold index, deref_JID.
  destruct (v1.Containers pod) as [|c0 cs]; [done |].
  cbn [lookup list_lookup mret M_ret]. by rewrite HJ.
Qed.

Lemma Status_waiting_run (pod : v1.Pod) (l : Local) (w : World) :
  Status_waiting pod l w =
    match v1.Containers pod with
    | [] => Panic w
    | c0 :: _ =>
        Ok (Next (add_resp (pod_status pod
                              [{| v1.ContainerStatus_Name := v1.Container_Name c0;
                                  v1.State := v1.Waiting;
                                  v1.Ready := false |}]) l)) w
    end.
Proof.
  unfold Status_waiting, mbind, M_bind, index.
  by destruct (v1.Containers pod) as [|c0 cs].
Qed.

(** The switch as a whole, phrased with [project]. *)
Lemma Status_branchA_run (pod : v1.Pod) (uid path stdout : string) (l : Local)
    (w : World) (r : JidStruct) :
  JIDs w !! uid = Some r ->
  let p := project (FindString_state stdout) r (timeNow l) in
  exists w1,
    JIDs w1 !! uid = Some p.1.1
    /\ (forall u, u <> uid -> JIDs w1 !! u = JIDs w !! u)
    /\ Status_branchA env ext pod uid path stdout l w =
         match v1.Containers pod with
         | [] => Panic w1
         | c0 :: _ =>
             Ok (Next (add_resp (pod_status pod
                                   [{| v1.ContainerStatus_Name := v1.Container_Name c0;
                                       v1.State := p.1.2;
                                       v1.Ready := p.2 |}]) l)) w1
         end.
Proof.
  intros Hr p. subst p. unfold Status_branchA, project.
  unfold mbind at 1, M_bind at 1, deref_JID at 1. rewrite Hr.
  destruct (Status_terminated_run pod uid path l w r Hr) as (wt & HtJ & Htf & Ht).
  destruct (Status_running_run pod uid path l w r Hr) as (wr & HrJ & Hrf & Hrr).
  pose proof (Status_waiting_run pod l w) as Hw.
  repeat case_bool_decide; try (exfalso; intuition congruence);
    first [ exists wt; split; [exact HtJ |]; split; [exact Htf |]; exact Ht
          | exists wr; split; [exact HrJ |]; split; [exact Hrf |]; exact Hrr
          | exists w; split; [exact Hr |]; split; [done |]; exact Hw ].
Qed.

End BranchA.

(** X12: the answer of the status poll for a pod that has a record and
    whose job squeue reports without error (no fault of the system): the
    state code found in the output decides by [project] what the record
    becomes and what is reported, always as one status named after the first
    container of the pod.  CG and R report it running and ready since the
    recorded start, which is set to the clock reading taken after squeue if
    none was recorded; PD and S report it waiting; every other outcome (CD,
    F, PR, no code at all) reports it terminated with exit code 0 between
    the recorded start and the recorded end, which is set in the same way.
    The records of the other pods are as before. *)
Theorem Status_pod_projects (env : Environment) (ext : Externals)
    (Config : commonIL.InterLinkConfig) (l : Local) (pod : v1.Pod) (w : World)
    (r : JidStruct) (res : ExecResult) (err : option error)
    (c0 : v1.Container) (cs : list v1.Container) :
  no_faults env ->
  JIDs w !! v1.UID pod = Some r ->
  Execute env (tick w) (commonIL.Squeuepath Config) ["--noheader"; "-a"; "-j " +:+ JID r]
  = (res, err) ->
  Stderr res = "" ->
  v1.Containers pod = c0 :: cs ->
  let p := project (FindString_state (Stdout res)) r (Now env (S (tick w))) in
  exists l' w',
    Status_pod env ext Config l pod w = Ok (Next l') w'
    /\ resp l' = resp l ++ [pod_status pod
                              [{| v1.ContainerStatus_Name := v1.Container_Name c0;
                                  v1.State := p.1.2;
                                  v1.Ready := p.2 |}]]
    /\ statusCode l' = statusCode l /\ writer l' = writer l
    /\ JIDs w' !! v1.UID pod = Some p.1.1
    /\ (forall u, u <> v1.UID pod -> JIDs w' !! u = JIDs w !! u).
Proof.
  intros Hn Hr He Hs Hc p.
  unfold Status_pod, deref_JID, shell_Execute, time_Now, mbind, M_bind.
  rewrite Hr, He. cbn [tick bump log_exec]. rewrite Hs.
  rewrite bool_decide_eq_false_2 by (intros H; by apply H).
  match goal with
  | |- context [Status_branchA env ext pod ?u ?pa ?so ?l0 ?w0] =>
      destruct (Status_branchA_run env ext Hn pod u pa so l0 w0 r Hr)
        as (w1 & HJ & Hfr & E)
  end.
  rewrite E, Hc. eexists _, w1. split; [reflexivity |].
  cbn [resp add_resp statusCode writer]. by repeat split.
Qed.

Lemma Status_pod_projects_witness :
  exists l' w',
    Status_pod (Cases.squeue_says "  77 debug abc user  R 0:05 1 node1")
      Sample.ext Sample.config Cases.local Cases.pod_abc (Sample.registered "77")
    = Ok (Next l') w'
    /\ resp l' = [pod_status Cases.pod_abc
                    [{| v1.ContainerStatus_Name := "c";
                        v1.State := v1.Running 63000000000000000001;
                        v1.Ready := true |}]]
    /\ JIDs w' !! "abc" = Some (set_StartTime 63000000000000000001 (Sample.record "77")).
Proof.
  destruct (Status_pod_projects (Cases.squeue_says "  77 debug abc user  R 0:05 1 node1")
              Sample.ext Sample.config Cases.local Cases.pod_abc (Sample.registered "77")
              (Sample.record "77") (Sample.out "  77 debug abc user  R 0:05 1 node1" "") None
              (Sample.container "ubuntu" []) [])
    as (l' & w' & E & Hresp & _ & _ & HJ & _).
  - intros n c. reflexivity.
  - reflexivity.
  - reflexivity.
  - reflexivity.
  - reflexivity.
  - exists l', w'. split; [exact E |]. split; [exact Hresp | exact HJ].
Defined.

(** X13: a pod that has a record but no container makes the status poll
    panic when squeue reports its job without error (no fault of the
    system): the handler names the state after [Containers[0]].  The record
    may already have been aged by then. *)
Theorem Status_pod_without_containers_panics (env : Environment) (ext : Externals)
    (Config : commonIL.InterLinkConfig) (l : Local) (pod : v1.Pod) (w : World)
    (r : JidStruct) (res : ExecResult) (err : option error) :
  no_faults env ->
  JIDs w !! v1.UID pod = Some r ->
  Execute env (tick w) (commonIL.Squeuepath Config) ["--noheader"; "-a"; "-j " +:+ JID r]
  = (res, err) ->
  Stderr res = "" ->
  v1.Containers pod = [] ->
  exists w',
    Status_pod env ext Config l pod w = Panic w'
    /\ JIDs w' !! v1.UID pod
       = Some (project (FindString_state (Stdout res)) r (Now env (S (tick w)))).1.1.
Proof.
  intros Hn Hr He Hs Hc.
  unfold Status_pod, deref_JID, shell_Execute, time_Now, mbind, M_bind.
  rewrite Hr, He. cbn [tick bump log_exec]. rewrite Hs.
  rewrite bool_decide_eq_false_2 by (intros H; by apply H).
  match goal with
  | |- context [Status_branchA env ext pod ?u ?pa ?so ?l0 ?w0] =>
      destruct (Status_branchA_run env ext Hn pod u pa so l0 w0 r Hr)
        as (w1 & HJ & Hfr & E)
  end.
  rewrite E, Hc. by exists w1.
Qed.

Lemma Status_pod_without_containers_panics_witness :
  exists w',
    Status_pod (Cases.squeue_says "  77 debug abc user  PD 0:00 1 (Priority)")
      Sample.ext Sample.config Cases.local Cases.pod_bare (Sample.registered "77")
    = Panic w'.
Proof.
  destruct (Status_pod_without_containers_panics
              (Cases.squeue_says "  77 debug abc user  PD 0:00 1 (Priority)")
              Sample.ext Sample.config Cases.local Cases.pod_bare (Sample.registered "77")
              (Sample.record "77")
              (Sample.out "  77 debug abc user  PD 0:00 1 (Priority)" "") None)
    as (w' & E & _).
  - intros n c. reflexivity.
  - reflexivity.
  - reflexivity.
  - reflexivity.
  - reflexivity.
  - by exists w'.
Defined.

(** ** Recovery after a Submit *)

Lemma LoadJIDs_run (env : Environment) (ext : Externals)
    (Config : commonIL.InterLinkConfig) (w : World) :
  no_faults env ->
  LoadJIDs env ext Config w
  = for_range (LoadJIDs_entry env ext (commonIL.DataRootFolder Config))
      (Listing env (S (S (tick w))) (commonIL.DataRootFolder Config))
      (bump (bump (bump w))).
Proof.
  intros Hn. unfold LoadJIDs, os_ReadDir, entries_of.
  unfold mbind at 1, M_bind at 1. unfold mbind at 1, M_bind at 1.
  rewrite ask_ok by apply Hn.
  unfold mbind at 1, M_bind at 1. by rewrite ask_ok by apply Hn.
Qed.

Lemma uid_not_directory_name (ns uid : string) : ns +:+ "-" +:+ uid <> uid.
Proof.
  intros H. apply (f_equal String.length) in H.
  rewrite !string_app_length in H. simpl in H. lia.
Qed.

(** X14: the registry does not survive a restart under the key the
    handlers use.  Submit keeps the job of pod [uid] of namespace [ns] in
    the directory [<root><ns>-<uid>]; recovery reads JobID.jid from there and
    files the record under the name of the directory, [<ns>-<uid>], which is
    never [uid].  After recovering such a directory into an empty registry
    the JID is known under [<ns>-<uid>], there is no record for [uid], and
    the status poll of that pod panics. *)
Theorem LoadJIDs_files_under_directory_name (env : Environment) (ext : Externals)
    (Config : commonIL.InterLinkConfig) (ns uid d : string) (w : World) :
  no_faults env ->
  Listing env (S (S (tick w))) (commonIL.DataRootFolder Config)
  = [{| DirEntry_Name := ns +:+ "-" +:+ uid; IsDir := true |}] ->
  files w !! ((commonIL.DataRootFolder Config +:+ ns +:+ "-" +:+ uid) +:+ "/JobID.jid")
  = Some d ->
  JIDs w = ∅ ->
  exists w',
    LoadJIDs env ext Config w = Ok tt w'
    /\ (exists r, JIDs w' !! (ns +:+ "-" +:+ uid) = Some r
                  /\ JID r = d /\ PodUID r = ns +:+ "-" +:+ uid)
    /\ JIDs w' !! uid = None
    /\ (forall l pod, v1.UID pod = uid ->
          Status_pod env ext Config l pod w' = Panic w').
Proof.
  intros Hn Hl Hf HJ. rewrite LoadJIDs_run, Hl by done.
  rewrite string_app_assoc in Hf.
  assert (Hf' : files w !! jid_file (commonIL.DataRootFolder Config)
                            {| DirEntry_Name := ns +:+ "-" +:+ uid; IsDir := true |}
                = Some d) by exact Hf.
  destruct (LoadJIDs_entries_ok env ext (commonIL.DataRootFolder Config)
              [{| DirEntry_Name := ns +:+ "-" +:+ uid; IsDir := true |}]
              (bump (bump (bump w))) Hn) as (w' & E & HJ' & _).
  { repeat constructor. intros _. by eexists. }
  assert (Hnone : JIDs w' !! uid = None).
  { rewrite HJ'. cbn [foldl recover_entry IsDir DirEntry_Name JIDs bump].
    rewrite lookup_insert_ne by apply uid_not_directory_name.
    by rewrite HJ. }
  exists w'. split; [exact E |]. split; [| split; [exact Hnone |]].
  - rewrite HJ'. cbn [foldl recover_entry IsDir DirEntry_Name JIDs bump files].
    rewrite lookup_insert_eq. eexists. split; [reflexivity |].
    cbn [JID PodUID DirEntry_Name]. split; [| done]. by rewrite Hf'.
  - intros l pod <-. by apply Status_pod_unregistered.
Qed.

Lemma LoadJIDs_files_under_directory_name_witness :
  exists w',
    LoadJIDs
      (Sample.answering (Sample.out "" "", None)
         [{| DirEntry_Name := "default-abc"; IsDir := true |}])
      Sample.ext Sample.config
      (set_files {[".local/interlink/jobs/default-abc/JobID.jid" := "12345"]} Sample.world)
    = Ok tt w'
    /\ JIDs w' !! "abc" = None.
Proof.
  destruct (LoadJIDs_files_under_directory_name
              (Sample.answering (Sample.out "" "", None)
                 [{| DirEntry_Name := "default-abc"; IsDir := true |}])
              Sample.ext Sample.config "default" "abc" "12345"
              (set_files {[".local/interlink/jobs/default-abc/JobID.jid" := "12345"]}
                 Sample.world))
    as (w' & E & _ & Hnone & _).
  - intros n c. reflexivity.
  - reflexivity.
  - reflexivity.
  - reflexivity.
  - exists w'. by split.
Defined.

(** ** Deleting twice *)

(** X15: deleting is not idempotent.  After a [deleteContainer] that
    succeeded (scancel was run once, with the JID of the pod), the pod has no
    record, so a second [deleteContainer] for it panics before it runs
    anything, and so does the status poll of the pod. *)
Theorem deleteContainer_twice_panics (env : Environment) (ext : Externals)
    (Config : commonIL.InterLinkConfig) (podUID path path' : string) (w : World)
    (r : JidStruct) (res : ExecResult) :
  JIDs w !! podUID = Some r ->
  Execute env (tick w) (commonIL.Scancelpath Config) [JID r] = (res, None) ->
  exists w1,
    deleteContainer env podUID path Config w = Ok tt w1
    /\ execLog w1 = execLog w ++ [(commonIL.Scancelpath Config, [JID r])]
    /\ deleteContainer env podUID path' Config w1 = Panic w1
    /\ (forall l pod, v1.UID pod = podUID ->
          Status_pod env ext Config l pod w1 = Panic w1).
Proof.
  intros Hr He.
  destruct (deleteContainer_run env Config podUID path w r res Hr He)
    as (w0 & w1 & E & (_ & Hl & _) & -> & _).
  assert (Hnone : JIDs (set_JIDs (delete podUID (JIDs w0)) w0) !! podUID = None)
    by apply lookup_delete_eq.
  eexists. split; [exact E |]. split; [exact Hl |]. split.
  - unfold deleteContainer, deref_JID, mbind, M_bind. by rewrite Hnone.
  - intros l pod <-. by apply Status_pod_unregistered.
Qed.

Lemma deleteContainer_twice_panics_witness :
  exists w1,
    deleteContainer (Sample.answering (Sample.out "" "", None) [])
      "abc" "dir" Sample.config (Sample.registered "77") = Ok tt w1
    /\ deleteContainer (Sample.answering (Sample.out "" "", None) [])
         "abc" "dir" Sample.config w1 = Panic w1.
Proof.
  destruct (deleteContainer_twice_panics
              (Sample.answering (Sample.out "" "", None) []) Sample.ext Sample.config
              "abc" "dir" "dir" (Sample.registered "77") (Sample.record "77")
              (Sample.out "" "") eq_refl eq_refl) as (w1 & E1 & _ & E2 & _).
  by exists w1.
Defined.
